(** * claude-code-controller: controller, REST routes and action tracker

    A shallow embedding of the orchestration core of the repository
    (src/controller.ts, src/api/routes.ts, src/api/action-tracker.ts) and
    the properties its specification states about it, followed by
    further properties read off the code.

    Conventions.
    - A JavaScript string is a Rocq [string]; a JavaScript [Map] is an
      insertion-ordered association list ([JsMap]); a [Record<string,string>]
      is a [gmap string string].
    - A method that mutates [this] or the file system is a function in the
      state-and-exception monad [M] over the [World]; [throw] is [raise].
    - The clock ([Date.now()]) is a field of the world; what other processes
      and the inbox poller do while the controller sleeps is given to
      [receive] as a script.
    - The modules the controller imports and whose source is not part of
      the material (inbox, team manager, task manager, process manager) are
      modelled from the specification; each such definition says so.
    - Left out: logging, the version probe ([getClaudeVersion],
      [verifyCompatibility]), [waitForTask] and the dispatch of poll
      events to listeners ([handlePollEvents]). *)

From Stdlib Require Import String Ascii List ZArith Lia Bool.
From Stdlib Require Import DecimalString DecimalN DecimalZ.
From stdpp Require Import base gmap strings.
Import ListNotations.
Local Open Scope string_scope.
Local Open Scope Z_scope.
Set Warnings "-register-all".
#[local] Arguments String.append !s1 s2 : simpl nomatch.
Set Default Proof Using "Type".

(** ** JavaScript Map: insertion-ordered, keys compared with [===] *)

Module JsMap.

Definition t (V : Type) : Type := list (string * V).

Definition empty {V} : t V := [].

Fixpoint get {V} (k : string) (m : t V) : option V :=
  match m with
  | [] => None
  | (k', v) :: r => if String.eqb k k' then Some v else get k r
  end.

(** [Map.prototype.set]: an existing key keeps its position. *)
Fixpoint set {V} (k : string) (v : V) (m : t V) : t V :=
  match m with
  | [] => [(k, v)]
  | (k', v') :: r =>
      if String.eqb k k' then (k', v) :: r else (k', v') :: set k v r
  end.

Definition delete {V} (k : string) (m : t V) : t V :=
  List.filter (fun kv => negb (String.eqb k (fst kv))) m.

Definition values {V} (m : t V) : list V := map snd m.
Definition keys {V} (m : t V) : list string := map fst m.

(** The invariant of a Map: no key occurs twice. *)
Definition wf {V} (m : t V) : Prop := NoDup (keys m).

End JsMap.

(** ** src/api/action-tracker.ts *)

Inductive ApprovalType := ApPlan | ApPermission.

Record PendingApproval := {
  pa_type : ApprovalType;
  pa_agent : string;
  pa_requestId : string;
  pa_timestamp : string;
  pa_action : string;
  pa_planContent : option string;
  pa_toolName : option string;
  pa_description : option string
}.

Record IdleAgent := {
  ia_name : string;
  ia_type : string;
  ia_idleSince : string;
  ia_action : string
}.

(** The payloads of the two request events, as types.ts declares them. *)
Record PlanApprovalRequestMessage := {
  plan_requestId : string;
  plan_timestamp : string;
  plan_planContent : option string
}.

Record PermissionRequestMessage := {
  perm_requestId : string;
  perm_timestamp : string;
  perm_toolName : string;
  perm_description : string
}.

Record ActionTracker := {
  approvals : JsMap.t PendingApproval;
  idles : JsMap.t IdleAgent;
  agentTypes : JsMap.t string;
  (** [currentController]: the team name of the controller listened to. *)
  currentController : option string
}.

Definition new_ActionTracker : ActionTracker :=
  {| approvals := JsMap.empty; idles := JsMap.empty;
     agentTypes := JsMap.empty; currentController := None |}.

Definition with_approvals (f : JsMap.t PendingApproval -> JsMap.t PendingApproval)
    (t : ActionTracker) : ActionTracker :=
  {| approvals := f (approvals t); idles := idles t;
     agentTypes := agentTypes t; currentController := currentController t |}.

Definition with_idles (f : JsMap.t IdleAgent -> JsMap.t IdleAgent)
    (t : ActionTracker) : ActionTracker :=
  {| approvals := approvals t; idles := f (idles t);
     agentTypes := agentTypes t; currentController := currentController t |}.

Definition onPlan (agent : string) (parsed : PlanApprovalRequestMessage)
    (t : ActionTracker) : ActionTracker :=
  with_approvals (JsMap.set (plan_requestId parsed)
    {| pa_type := ApPlan; pa_agent := agent;
       pa_requestId := plan_requestId parsed;
       pa_timestamp := plan_timestamp parsed;
       pa_action := "POST /agents/" ++ agent ++ "/approve-plan";
       pa_planContent := plan_planContent parsed;
       pa_toolName := None; pa_description := None |}) t.

Definition onPermission (agent : string) (parsed : PermissionRequestMessage)
    (t : ActionTracker) : ActionTracker :=
  with_approvals (JsMap.set (perm_requestId parsed)
    {| pa_type := ApPermission; pa_agent := agent;
       pa_requestId := perm_requestId parsed;
       pa_timestamp := perm_timestamp parsed;
       pa_action := "POST /agents/" ++ agent ++ "/approve-permission";
       pa_planContent := None;
       pa_toolName := Some (perm_toolName parsed);
       pa_description := Some (perm_description parsed) |}) t.

(** [nowIso] is [new Date().toISOString()] at the time of the event. *)
Definition onIdle (nowIso : string) (agent : string) (t : ActionTracker)
    : ActionTracker :=
  with_idles (JsMap.set agent
    {| ia_name := agent;
       ia_type := match JsMap.get agent (agentTypes t) with
                  | Some ty => ty
                  | None => "unknown"
                  end;
       ia_idleSince := nowIso;
       ia_action := "POST /agents/" ++ agent ++ "/messages" |}) t.

Definition onMessage (agent : string) (t : ActionTracker) : ActionTracker :=
  with_idles (JsMap.delete agent) t.

Definition onSpawned (agent : string) (t : ActionTracker) : ActionTracker :=
  with_idles (JsMap.delete agent) t.

(** The clean-up loop of [onExited]:
    [for (const [id, approval] of this.approvals)
       if (approval.agent === agent) this.approvals.delete(id)]. *)
Definition purge_agent (agent : string) (m : JsMap.t PendingApproval)
    : JsMap.t PendingApproval :=
  fold_left
    (fun acc entry =>
       if String.eqb (pa_agent (snd entry)) agent
       then JsMap.delete (fst entry) acc
       else acc)
    m m.

Definition onExited (agent : string) (t : ActionTracker) : ActionTracker :=
  with_approvals (purge_agent agent) (with_idles (JsMap.delete agent) t).

Definition registerAgentType (name type : string) (t : ActionTracker)
    : ActionTracker :=
  {| approvals := approvals t; idles := idles t;
     agentTypes := JsMap.set name type (agentTypes t);
     currentController := currentController t |}.

Definition resolveApproval (requestId : string) (t : ActionTracker)
    : ActionTracker :=
  with_approvals (JsMap.delete requestId) t.

Definition getPendingApprovals (t : ActionTracker) : list PendingApproval :=
  JsMap.values (approvals t).

Definition getIdleAgents (t : ActionTracker) : list IdleAgent :=
  JsMap.values (idles t).

Definition detach (t : ActionTracker) : ActionTracker :=
  {| approvals := approvals t; idles := idles t;
     agentTypes := agentTypes t; currentController := None |}.

(** [attach] detaches first, then listens to the given controller. *)
Definition attach (controller : string) (t : ActionTracker) : ActionTracker :=
  {| approvals := approvals (detach t); idles := idles (detach t);
     agentTypes := agentTypes (detach t);
     currentController := Some controller |}.

Definition clear (t : ActionTracker) : ActionTracker :=
  {| approvals := JsMap.empty; idles := JsMap.empty;
     agentTypes := JsMap.empty;
     currentController := currentController (detach t) |}.

(** ** The JavaScript runtime: numbers as text, dates, JSON

    A string is modelled as the bytes of its UTF-8 encoding. *)

Definition dquote : ascii := "034"%char.
Definition backslash : ascii := "092"%char.

(** [String(n)] for a non-negative integer. *)
Definition N_to_string (n : N) : string :=
  NilEmpty.string_of_uint (N.to_uint n).

(** [String(z)], and a number inside a template literal. *)
Definition Z_to_string (z : Z) : string :=
  if z <? 0 then "-" ++ N_to_string (Z.abs_N z) else N_to_string (Z.to_N z).

Fixpoint zeros (n : nat) : string :=
  match n with
  | O => EmptyString
  | S k => String "0" (zeros k)
  end.

Definition pad (width : nat) (z : Z) : string :=
  let digits := N_to_string (Z.to_N z) in
  zeros (width - String.length digits) ++ digits.

(** Days since 1970-01-01 to (year, month, day) of the proleptic
    Gregorian calendar. *)
Definition civil_from_days (days : Z) : Z * Z * Z :=
  let z := days + 719468 in
  let era := z / 146097 in
  let doe := z - era * 146097 in
  let yoe := (doe - doe / 1460 + doe / 36524 - doe / 146096) / 365 in
  let doy := doe - (365 * yoe + yoe / 4 - yoe / 100) in
  let mp := (5 * doy + 2) / 153 in
  let d := doy - (153 * mp + 2) / 5 + 1 in
  let m := if mp <? 10 then mp + 3 else mp - 9 in
  let y := yoe + era * 400 + (if m <=? 2 then 1 else 0) in
  (y, m, d).

(** [new Date(ms).toISOString()]. *)
Definition toISOString (ms : Z) : string :=
  let days := ms / 86400000 in
  let rem := ms mod 86400000 in
  let '(y, m, d) := civil_from_days days in
  let year :=
    if (0 <=? y) && (y <=? 9999) then pad 4 y
    else (if y <? 0 then "-" else "+") ++ pad 6 (Z.abs y) in
  year ++ "-" ++ pad 2 m ++ "-" ++ pad 2 d ++ "T"
    ++ pad 2 (rem / 3600000) ++ ":" ++ pad 2 ((rem / 60000) mod 60) ++ ":"
    ++ pad 2 ((rem / 1000) mod 60) ++ "." ++ pad 3 (rem mod 1000) ++ "Z".

Module Json.

(** A parsed JSON value. A number keeps its lexeme. *)
Inductive json :=
| JNull
| JBool (b : bool)
| JNum (lexeme : string)
| JStr (s : string)
| JArr (items : list json)
| JObj (members : list (string * json)).

(** *** JSON.stringify *)

Definition hex_digit (n : N) : ascii :=
  if (n <? 10)%N then ascii_of_N (48 + n) else ascii_of_N (87 + n).

Definition escape_char (c : ascii) : string :=
  if Ascii.eqb c dquote then String backslash (String dquote EmptyString)
  else if Ascii.eqb c backslash then String backslash (String backslash EmptyString)
  else if Ascii.eqb c "008" then String backslash "b"
  else if Ascii.eqb c "012" then String backslash "f"
  else if Ascii.eqb c "010" then String backslash "n"
  else if Ascii.eqb c "013" then String backslash "r"
  else if Ascii.eqb c "009" then String backslash "t"
  else if (N_of_ascii c <? 32)%N then
    String backslash
      (String "u" (String "0" (String "0"
        (String (hex_digit (N_of_ascii c / 16))
          (String (hex_digit (N_of_ascii c mod 16)) EmptyString)))))
  else String c EmptyString.

Fixpoint escape (s : string) : string :=
  match s with
  | EmptyString => EmptyString
  | String c r => escape_char c ++ escape r
  end.

Definition quote (s : string) : string :=
  String dquote (escape s ++ String dquote EmptyString).

Fixpoint stringify (j : json) : string :=
  match j with
  | JNull => "null"
  | JBool true => "true"
  | JBool false => "false"
  | JNum lexeme => lexeme
  | JStr s => quote s
  | JArr items => "[" ++ String.concat "," (map stringify items) ++ "]"
  | JObj members =>
      "{" ++ String.concat ","
               (map (fun '(k, v) => quote k ++ ":" ++ stringify v) members)
          ++ "}"
  end.

(** The members of an object literal: a property whose value is
    [undefined] is left out by [JSON.stringify]. *)
Definition prop (k : string) (v : json) : list (string * json) := [(k, v)].

Definition opt_prop (k : string) (v : option string) : list (string * json) :=
  match v with
  | Some s => [(k, JStr s)]
  | None => []
  end.

(** *** JSON.parse *)

Definition is_ws (c : ascii) : bool :=
  Ascii.eqb c " " || Ascii.eqb c "009" || Ascii.eqb c "010" || Ascii.eqb c "013".

Fixpoint skip_ws (s : string) : string :=
  match s with
  | String c r => if is_ws c then skip_ws r else s
  | EmptyString => s
  end.

Definition hex_val (c : ascii) : option N :=
  let n := N_of_ascii c in
  if (48 <=? n)%N && (n <=? 57)%N then Some (n - 48)%N
  else if (97 <=? n)%N && (n <=? 102)%N then Some (n - 87)%N
  else if (65 <=? n)%N && (n <=? 70)%N then Some (n - 55)%N
  else None.

Definition hex4 (a b c d : ascii) : option N :=
  match hex_val a, hex_val b, hex_val c, hex_val d with
  | Some x, Some y, Some z, Some w => Some (((x * 16 + y) * 16 + z) * 16 + w)%N
  | _, _, _, _ => None
  end.

Definition simple_escape (e : ascii) : option ascii :=
  if Ascii.eqb e dquote then Some dquote
  else if Ascii.eqb e backslash then Some backslash
  else if Ascii.eqb e "/" then Some "/"%char
  else if Ascii.eqb e "b" then Some "008"%char
  else if Ascii.eqb e "f" then Some "012"%char
  else if Ascii.eqb e "n" then Some "010"%char
  else if Ascii.eqb e "r" then Some "013"%char
  else if Ascii.eqb e "t" then Some "009"%char
  else None.

(** What a string literal denotes, piece by piece: a byte of the text, or
    the UTF-16 code unit of a [\uXXXX] escape. *)
Inductive piece := PByte (c : ascii) | PUnit (n : N).

Definition push (p : piece) (r : option (list piece * string))
    : option (list piece * string) :=
  match r with
  | Some (ps, rest) => Some (p :: ps, rest)
  | None => None
  end.

(** The characters of a string literal after its opening quote, up to and
    including the closing quote. *)
Fixpoint parse_chars (s : string) : option (list piece * string) :=
  match s with
  | EmptyString => None
  | String c r =>
      if Ascii.eqb c dquote then Some ([], r)
      else if Ascii.eqb c backslash then
        match r with
        | String e r1 =>
            match simple_escape e with
            | Some d => push (PByte d) (parse_chars r1)
            | None =>
                if Ascii.eqb e "u" then
                  match r1 with
                  | String h1 (String h2 (String h3 (String h4 r2))) =>
                      match hex4 h1 h2 h3 h4 with
                      | Some n => push (PUnit n) (parse_chars r2)
                      | None => None
                      end
                  | _ => None
                  end
                else None
            end
        | EmptyString => None
        end
      else if (N_of_ascii c <? 32)%N then None
      else push (PByte c) (parse_chars r)
  end.

Definition utf8_encode (cp : N) : string :=
  (if cp <? 128 then String (ascii_of_N cp) EmptyString
   else if cp <? 2048 then
     String (ascii_of_N (192 + cp / 64))
       (String (ascii_of_N (128 + cp mod 64)) EmptyString)
   else if cp <? 65536 then
     String (ascii_of_N (224 + cp / 4096))
       (String (ascii_of_N (128 + (cp / 64) mod 64))
         (String (ascii_of_N (128 + cp mod 64)) EmptyString))
   else
     String (ascii_of_N (240 + cp / 262144))
       (String (ascii_of_N (128 + (cp / 4096) mod 64))
         (String (ascii_of_N (128 + (cp / 64) mod 64))
           (String (ascii_of_N (128 + cp mod 64)) EmptyString))))%N.

Definition is_high_surrogate (n : N) : bool := ((55296 <=? n) && (n <=? 56319))%N.
Definition is_low_surrogate (n : N) : bool := ((56320 <=? n) && (n <=? 57343))%N.

Fixpoint decode_pieces (l : list piece) : string :=
  match l with
  | [] => EmptyString
  | PByte c :: r => String c (decode_pieces r)
  | PUnit hi :: r =>
      match r with
      | PUnit lo :: r' =>
          if is_high_surrogate hi && is_low_surrogate lo
          then utf8_encode (65536 + (hi - 55296) * 1024 + (lo - 56320))%N
                 ++ decode_pieces r'
          else utf8_encode hi ++ decode_pieces r
      | _ => utf8_encode hi ++ decode_pieces r
      end
  end.

(** A string literal after its opening quote. *)
Definition parse_string (s : string) : option (string * string) :=
  match parse_chars s with
  | Some (ps, rest) => Some (decode_pieces ps, rest)
  | None => None
  end.

Definition is_digit (c : ascii) : bool :=
  ((48 <=? N_of_ascii c) && (N_of_ascii c <=? 57))%N.

Fixpoint span_digits (s : string) : string * string :=
  match s with
  | String c r =>
      if is_digit c
      then let (d, rest) := span_digits r in (String c d, rest)
      else (EmptyString, s)
  | EmptyString => (EmptyString, s)
  end.

(** The number grammar of JSON: an optional minus sign, an integer part
    without a leading zero, an optional fraction, an optional exponent. *)
Definition parse_number (s : string) : option (string * string) :=
  let (sign, s1) :=
    match s with
    | String "-" r => ("-", r)
    | _ => (EmptyString, s)
    end in
  let (int, s2) := span_digits s1 in
  match int with
  | EmptyString => None
  | String d more =>
      if Ascii.eqb d "0" && negb (String.eqb more EmptyString) then None
      else
        let frac :=
          match s2 with
          | String "." r =>
              let (ds, r') := span_digits r in
              match ds with
              | EmptyString => None
              | _ => Some ("." ++ ds, r')
              end
          | _ => Some (EmptyString, s2)
          end in
        match frac with
        | None => None
        | Some (fr, s3) =>
            let finish (e : ascii) (r : string) :=
              let (esign, r1) :=
                match r with
                | String "+" r' => ("+", r')
                | String "-" r' => ("-", r')
                | _ => (EmptyString, r)
                end in
              let (ds, r2) := span_digits r1 in
              match ds with
              | EmptyString => None
              | _ => Some (sign ++ int ++ fr ++ String e esign ++ ds, r2)
              end in
            match s3 with
            | String "e" r => finish "e"%char r
            | String "E" r => finish "E"%char r
            | _ => Some (sign ++ int ++ fr, s3)
            end
        end
  end.

Definition strip_prefix (p s : string) : option string :=
  if String.prefix p s
  then Some (String.substring (String.length p) (String.length s - String.length p) s)
  else None.

Fixpoint parse_value (fuel : nat) (s : string) : option (json * string) :=
  match fuel with
  | O => None
  | S f =>
      match skip_ws s with
      | EmptyString => None
      | String c r =>
          if Ascii.eqb c "{" then
            match skip_ws r with
            | String "}" r' => Some (JObj [], r')
            | _ =>
                match parse_members f r with
                | Some (ms, r') => Some (JObj ms, r')
                | None => None
                end
            end
          else if Ascii.eqb c "[" then
            match skip_ws r with
            | String "]" r' => Some (JArr [], r')
            | _ =>
                match parse_elements f r with
                | Some (xs, r') => Some (JArr xs, r')
                | None => None
                end
            end
          else if Ascii.eqb c dquote then
            match parse_string r with
            | Some (str, r') => Some (JStr str, r')
            | None => None
            end
          else if Ascii.eqb c "t" then
            match strip_prefix "rue" r with
            | Some r' => Some (JBool true, r')
            | None => None
            end
          else if Ascii.eqb c "f" then
            match strip_prefix "alse" r with
            | Some r' => Some (JBool false, r')
            | None => None
            end
          else if Ascii.eqb c "n" then
            match strip_prefix "ull" r with
            | Some r' => Some (JNull, r')
            | None => None
            end
          else
            match parse_number (String c r) with
            | Some (lexeme, r') => Some (JNum lexeme, r')
            | None => None
            end
      end
  end
with parse_members (fuel : nat) (s : string)
    : option (list (string * json) * string) :=
  match fuel with
  | O => None
  | S f =>
      match skip_ws s with
      | String q r =>
          if Ascii.eqb q dquote then
            match parse_string r with
            | Some (k, r1) =>
                match skip_ws r1 with
                | String ":" r2 =>
                    match parse_value f r2 with
                    | Some (v, r3) =>
                        match skip_ws r3 with
                        | String "," r4 =>
                            match parse_members f r4 with
                            | Some (ms, r5) => Some ((k, v) :: ms, r5)
                            | None => None
                            end
                        | String "}" r4 => Some ([(k, v)], r4)
                        | _ => None
                        end
                    | None => None
                    end
                | _ => None
                end
            | None => None
            end
          else None
      | EmptyString => None
      end
  end
with parse_elements (fuel : nat) (s : string) : option (list json * string) :=
  match fuel with
  | O => None
  | S f =>
      match parse_value f s with
      | Some (v, r1) =>
          match skip_ws r1 with
          | String "," r2 =>
              match parse_elements f r2 with
              | Some (vs, r3) => Some (v :: vs, r3)
              | None => None
              end
          | String "]" r2 => Some ([v], r2)
          | _ => None
          end
      | None => None
      end
  end.

(** [JSON.parse]: [None] stands for the SyntaxError it throws. *)
Definition parse (s : string) : option json :=
  match parse_value (S (String.length s)) s with
  | Some (v, rest) =>
      match skip_ws rest with
      | EmptyString => Some v
      | _ => None
      end
  | None => None
  end.

(** Property access on a parsed object: of two members with one key the
    later one stands. *)
Fixpoint field (k : string) (members : list (string * json)) : option json :=
  match members with
  | [] => None
  | (k', v) :: r =>
      match field k r with
      | Some v' => Some v'
      | None => if String.eqb k k' then Some v else None
      end
  end.

End Json.

(** ** Exceptions and state *)

Inductive ErrorName := Error | ValidationError.

Record JsError := { err_name : ErrorName; err_message : string }.

(** A computation over a state [St] that returns an [A] or throws. *)
Definition M (St A : Type) : Type := St -> St * (JsError + A).

Definition ret {St A} (a : A) : M St A := fun s => (s, inr a).

Definition bind {St A B} (m : M St A) (k : A -> M St B) : M St B :=
  fun s =>
    match m s with
    | (s', inr a) => k a s'
    | (s', inl e) => (s', inl e)
    end.

Definition raise {St A} (e : JsError) : M St A := fun s => (s, inl e).

Definition throw_Error {St A} (message : string) : M St A :=
  raise {| err_name := Error; err_message := message |}.

Definition gets {St A} (f : St -> A) : M St A := fun s => (s, inr (f s)).

Definition modify {St} (f : St -> St) : M St unit := fun s => (f s, inr tt).

(** [try { m } catch (e) { h e }] *)
Definition try_catch {St A} (m : M St A) (h : JsError -> M St A) : M St A :=
  fun s =>
    match m s with
    | (s', inr a) => (s', inr a)
    | (s', inl e) => h e s'
    end.

(** [promise.catch(() => null)] *)
Definition catch_null {St A} (m : M St A) : M St (option A) :=
  fun s =>
    match m s with
    | (s', inr a) => (s', inr (Some a))
    | (s', inl _) => (s', inr None)
    end.

Notation "'let*' x ':=' m 'in' k" := (bind m (fun x => k))
  (at level 10, x name, m at level 100, k at level 200).

Notation "m ;;; k" := (bind m (fun _ => k))
  (at level 100, k at level 200, right associativity).

Fixpoint forM {St A} (l : list A) (f : A -> M St unit) : M St unit :=
  match l with
  | [] => ret tt
  | x :: r => f x ;;; forM r f
  end.

(** JavaScript truthiness of an optional string, and [a || b]. *)
Definition truthy (o : option string) : bool :=
  match o with
  | Some s => negb (String.eqb s EmptyString)
  | None => false
  end.

Definition or_else (o : option string) (d : string) : string :=
  match o with
  | Some s => if String.eqb s EmptyString then d else s
  | None => d
  end.

(** ** The file system and the processes *)

Record InboxMessage := {
  msg_from : string;
  msg_text : string;
  msg_timestamp : string;
  msg_summary : option string
}.

(** A mailbox: the append-only log and the reader's cursor. *)
Record Mailbox := {
  mb_log : list InboxMessage;
  mb_cursor : nat
}.

Record TeamMember := {
  tm_agentId : string;
  tm_name : string;
  tm_agentType : string;
  tm_model : option string;
  tm_joinedAt : Z;
  tm_tmuxPaneId : string;
  tm_cwd : string;
  tm_subscriptions : list string
}.

Record TeamConfig := {
  tc_name : string;
  tc_cwd : string;
  tc_sessionId : string;
  tc_createdAt : Z;
  tc_members : list TeamMember
}.

Inductive TaskStatus := pending | in_progress | completed.

Record TaskFile := {
  task_id : string;
  task_subject : string;
  task_description : string;
  task_activeForm : option string;
  task_status : TaskStatus;
  task_owner : option string;
  task_blocks : list string;
  task_blockedBy : list string;
  task_metadata : option (list (string * Json.json))
}.

(** The task directory of one team. *)
Record Ledger := {
  next_id : N;
  records : list TaskFile
}.

Record World := {
  now : Z;
  uuid_seed : N;
  next_pid : Z;
  teams : gmap string TeamConfig;
  inboxes : gmap (string * string) Mailbox;
  ledgers : gmap string Ledger
}.

Definition set_now (f : Z -> Z) (w : World) : World :=
  {| now := f (now w); uuid_seed := uuid_seed w; next_pid := next_pid w;
     teams := teams w; inboxes := inboxes w; ledgers := ledgers w |}.

Definition set_uuid_seed (f : N -> N) (w : World) : World :=
  {| now := now w; uuid_seed := f (uuid_seed w); next_pid := next_pid w;
     teams := teams w; inboxes := inboxes w; ledgers := ledgers w |}.

Definition set_next_pid (f : Z -> Z) (w : World) : World :=
  {| now := now w; uuid_seed := uuid_seed w; next_pid := f (next_pid w);
     teams := teams w; inboxes := inboxes w; ledgers := ledgers w |}.

Definition set_teams (f : gmap string TeamConfig -> gmap string TeamConfig)
    (w : World) : World :=
  {| now := now w; uuid_seed := uuid_seed w; next_pid := next_pid w;
     teams := f (teams w); inboxes := inboxes w; ledgers := ledgers w |}.

Definition set_inboxes
    (f : gmap (string * string) Mailbox -> gmap (string * string) Mailbox)
    (w : World) : World :=
  {| now := now w; uuid_seed := uuid_seed w; next_pid := next_pid w;
     teams := teams w; inboxes := f (inboxes w); ledgers := ledgers w |}.

Definition set_ledgers (f : gmap string Ledger -> gmap string Ledger)
    (w : World) : World :=
  {| now := now w; uuid_seed := uuid_seed w; next_pid := next_pid w;
     teams := teams w; inboxes := inboxes w; ledgers := f (ledgers w) |}.

Definition empty_World : World :=
  {| now := 0; uuid_seed := 0; next_pid := 1000;
     teams := ∅; inboxes := ∅; ledgers := ∅ |}.

(** *** inbox.ts *)

Definition empty_Mailbox : Mailbox := {| mb_log := []; mb_cursor := 0 |}.

Definition mailbox (team agent : string) (w : World) : Mailbox :=
  default empty_Mailbox (inboxes w !! (team, agent)).

(** Modelled from the spec: [writeInbox] of src/inbox.ts, whose source is
    not part of the material. "append(team, recipient, message) durably
    adds one envelope to the recipient's log, creating the log/namespace
    if absent." The recipient name is used as the file name as it is. *)
Definition writeInbox (team agent : string) (m : InboxMessage) (w : World)
    : World :=
  let mb := mailbox team agent w in
  set_inboxes
    <[(team, agent) := {| mb_log := (mb_log mb ++ [m])%list;
                          mb_cursor := mb_cursor mb |}]> w.

(** Modelled from the spec: [readInbox] of src/inbox.ts. "readAll returns
    the full log without advancing"; a missing mailbox reads as empty. *)
Definition readInbox (team agent : string) (w : World) : list InboxMessage :=
  mb_log (mailbox team agent w).

(** The envelopes after the cursor. *)
Definition unread (team agent : string) (w : World) : list InboxMessage :=
  let mb := mailbox team agent w in drop (mb_cursor mb) (mb_log mb).

(** Modelled from the spec: [readUnread] of src/inbox.ts. "readUnread
    returns all envelopes after the reader's last-seen cursor and advances
    the cursor"; "missing team/recipient on read yields an empty result". *)
Definition readUnread (team agent : string) (w : World)
    : list InboxMessage * World :=
  match inboxes w !! (team, agent) with
  | Some mb =>
      (drop (mb_cursor mb) (mb_log mb),
       set_inboxes
         <[(team, agent) := {| mb_log := mb_log mb;
                               mb_cursor := length (mb_log mb) |}]> w)
  | None => ([], w)
  end.

(** The result of [parseMessage]: the parsed object with its [type], or the
    plain-text fallback. *)
Inductive StructuredMessage :=
| PlainText (text : string)
| Protocol (type : string) (members : list (string * Json.json)).

Definition msg_type (p : StructuredMessage) : string :=
  match p with
  | PlainText _ => "plain_text"
  | Protocol ty _ => ty
  end.

Definition RECOGNIZED_TYPES : list string :=
  [ "idle_notification"; "shutdown_request"; "shutdown_approved";
    "plan_approval_request"; "plan_approval_response";
    "permission_request"; "permission_response"; "task_assignment" ].

Definition has (set : list string) (x : string) : bool :=
  existsb (String.eqb x) set.

(** Modelled from the spec: [parseMessage] of src/inbox.ts. "given raw
    text, attempt strict JSON parse; if it parses and contains a recognized
    type discriminator, return the corresponding typed variant; otherwise
    return a plain_text variant wrapping the original string verbatim." *)
Definition parseMessage (m : InboxMessage) : StructuredMessage :=
  match Json.parse (msg_text m) with
  | Some (Json.JObj members) =>
      match Json.field "type" members with
      | Some (Json.JStr ty) =>
          if has RECOGNIZED_TYPES ty then Protocol ty members
          else PlainText (msg_text m)
      | _ => PlainText (msg_text m)
      end
  | _ => PlainText (msg_text m)
  end.

(** *** team-manager.ts *)

(** [crypto.randomUUID()]: the next identifier of the world's supply. *)
Definition randomUUID : M World string :=
  fun w =>
    (set_uuid_seed N.succ w,
     inr (pad 8 (Z.of_N (uuid_seed w)) ++ "-0000-4000-8000-000000000000")).

Definition controller_member (team cwd : string) (joined : Z) : TeamMember :=
  {| tm_agentId := "controller@" ++ team; tm_name := "controller";
     tm_agentType := "controller"; tm_model := None; tm_joinedAt := joined;
     tm_tmuxPaneId := EmptyString; tm_cwd := cwd; tm_subscriptions := [] |}.

Definition not_found {A} (what : string) : M World A :=
  throw_Error (what ++ " not found").

(** Modelled from the spec: [TeamManager.create] of src/team-manager.ts,
    whose source is not part of the material. "create(team, cwd)
    establishes the team namespace and writes an initial configuration
    containing a synthesized session id and [...] a controller member;
    fails if a team of that name already has live state". Returns the
    session id. *)
Definition team_create (team cwd : string) : M World string :=
  let* existing := gets (fun w => teams w !! team) in
  match existing with
  | Some _ => throw_Error ("Team " ++ team ++ " already exists")
  | None =>
      let* sid := randomUUID in
      let* t := gets now in
      modify (set_teams
        <[team := {| tc_name := team; tc_cwd := cwd; tc_sessionId := sid;
                     tc_createdAt := t;
                     tc_members := [controller_member team cwd t] |}]>) ;;;
      ret sid
  end.

(** Modelled from the spec: [TeamManager.getConfig]. "reads and
    deserializes the current membership snapshot; fails if the team
    namespace does not exist." *)
Definition team_getConfig (team : string) : M World TeamConfig :=
  let* c := gets (fun w => teams w !! team) in
  match c with
  | Some cfg => ret cfg
  | None => not_found ("Team " ++ team)
  end.

Definition with_members (f : list TeamMember -> list TeamMember)
    (c : TeamConfig) : TeamConfig :=
  {| tc_name := tc_name c; tc_cwd := tc_cwd c; tc_sessionId := tc_sessionId c;
     tc_createdAt := tc_createdAt c; tc_members := f (tc_members c) |}.

Definition named (name : string) (m : TeamMember) : bool :=
  String.eqb (tm_name m) name.

(** Modelled from the spec: [TeamManager.addMember] and [removeMember].
    "addMember/removeMember mutate the member list idempotently (removing
    a non-member is a no-op)"; member names are unique within a team. *)
Definition team_addMember (team : string) (m : TeamMember) : M World unit :=
  let* cfg := team_getConfig team in
  modify (set_teams
    <[team := with_members
        (fun ms => (List.filter (fun x => negb (named (tm_name m) x)) ms ++ [m])%list)
        cfg]>).

(** Modelled from the spec: [TeamManager.removeMember]. "removing a
    non-member is a no-op"; a team without namespace is a not-found error. *)
Definition team_removeMember (team name : string) : M World unit :=
  let* cfg := team_getConfig team in
  modify (set_teams
    <[team := with_members (List.filter (fun x => negb (named name x))) cfg]>).

(** Modelled from the spec: [TeamManager.destroy]. "destroy recursively
    deletes the team's on-disk namespace", which holds the mailboxes. *)
Definition team_destroy (team : string) : M World unit :=
  modify (fun w =>
    set_inboxes (filter (fun kv => fst (fst kv) ≠ team))
      (set_teams (delete team) w)).

(** *** task-manager.ts *)

Record TaskInput := {
  ti_subject : string;
  ti_description : string;
  ti_activeForm : option string;
  ti_owner : option string;
  ti_status : option TaskStatus;
  ti_blocks : option (list string);
  ti_blockedBy : option (list string);
  ti_metadata : option (list (string * Json.json))
}.

Record TaskPatch := {
  tp_subject : option string;
  tp_description : option string;
  tp_activeForm : option string;
  tp_owner : option string;
  tp_status : option TaskStatus;
  tp_blocks : option (list string);
  tp_blockedBy : option (list string);
  tp_metadata : option (list (string * Json.json))
}.

Definition empty_Ledger : Ledger := {| next_id := 1; records := [] |}.

Definition ledger (team : string) (w : World) : Ledger :=
  default empty_Ledger (ledgers w !! team).

(** Modelled from the spec: [TaskManager.init] of src/task-manager.ts,
    whose source is not part of the material: it creates the team's task
    directory when there is none. *)
Definition tasks_init (team : string) : M World unit :=
  modify (fun w =>
    match ledgers w !! team with
    | Some _ => w
    | None => set_ledgers <[team := empty_Ledger]> w
    end).

(** Modelled from the spec: [TaskManager.create]. A task has a "numeric
    string identifier (monotonically assigned within a team, starting at
    1)", "incrementing per creation"; "identifiers are unique and never
    reused within a team's lifetime"; "persisted as one record per task". *)
Definition tasks_create (team : string) (t : TaskInput) : M World string :=
  let* l := gets (ledger team) in
  let id := N_to_string (next_id l) in
  let file :=
    {| task_id := id; task_subject := ti_subject t;
       task_description := ti_description t;
       task_activeForm := ti_activeForm t;
       task_status := default pending (ti_status t);
       task_owner := ti_owner t;
       task_blocks := default [] (ti_blocks t);
       task_blockedBy := default [] (ti_blockedBy t);
       task_metadata := ti_metadata t |} in
  modify (set_ledgers
    <[team := {| next_id := N.succ (next_id l);
                 records := (records l ++ [file])%list |}]>) ;;;
  ret id.

Definition has_id (id : string) (t : TaskFile) : bool :=
  String.eqb (task_id t) id.

(** Modelled from the spec: [TaskManager.get]; an unknown task is a
    not-found error. *)
Definition tasks_get (team id : string) : M World TaskFile :=
  let* l := gets (ledger team) in
  match find (has_id id) (records l) with
  | Some t => ret t
  | None => not_found ("Task " ++ id)
  end.

Definition apply_patch (p : TaskPatch) (t : TaskFile) : TaskFile :=
  {| task_id := task_id t;
     task_subject := default (task_subject t) (tp_subject p);
     task_description := default (task_description t) (tp_description p);
     task_activeForm :=
       match tp_activeForm p with Some a => Some a | None => task_activeForm t end;
     task_status := default (task_status t) (tp_status p);
     task_owner :=
       match tp_owner p with Some o => Some o | None => task_owner t end;
     task_blocks := default (task_blocks t) (tp_blocks p);
     task_blockedBy := default (task_blockedBy t) (tp_blockedBy p);
     task_metadata :=
       match tp_metadata p with Some m => Some m | None => task_metadata t end |}.

(** Modelled from the spec: [TaskManager.update]. The fields given are
    replaced; the record keeps its identifier and its place. *)
Definition tasks_update (team id : string) (p : TaskPatch) : M World TaskFile :=
  let* t := tasks_get team id in
  let t' := apply_patch p t in
  let* l := gets (ledger team) in
  modify (set_ledgers
    <[team := {| next_id := next_id l;
                 records := map (fun x => if has_id id x then t' else x)
                                (records l) |}]>) ;;;
  ret t'.

(** Modelled from the spec: [TaskManager.delete]; an unknown task is a
    not-found error, the identifier counter is not touched. *)
Definition tasks_delete (team id : string) : M World unit :=
  let* _ := tasks_get team id in
  let* l := gets (ledger team) in
  modify (set_ledgers
    <[team := {| next_id := next_id l;
                 records := List.filter (fun x => negb (has_id id x)) (records l) |}]>).

(** Modelled from the spec: [TaskManager.list]. "listing enumerates all
    records in the team's task directory". *)
Definition tasks_list (team : string) : M World (list TaskFile) :=
  gets (fun w => records (ledger team w)).

(** *** process-manager.ts *)

Record SpawnSpec := {
  sp_teamName : string;
  sp_agentName : string;
  sp_agentId : string;
  sp_agentType : string;
  sp_model : option string;
  sp_cwd : string;
  sp_parentSessionId : string;
  sp_color : string;
  sp_claudeBinary : string;
  sp_permissions : option (list string);
  sp_permissionMode : option string;
  sp_env : option (gmap string string)
}.

Record AgentProcess := {
  proc_spec : SpawnSpec;
  proc_pid : option Z;
  proc_running : bool;
  proc_exitCode : option Z;
  (** the exit listener of [onExit] is armed *)
  proc_onExit : bool
}.

(** ** controller.ts *)

(** The events of the controller that have a listener in the tracker, with
    the arguments the listeners receive. *)
Inductive ControllerEvent :=
| agent_spawned (agent : string) (pid : Z)
| agent_exited (agent : string) (code : option Z)
| idle (agent : string)
| plan_approval_request (agent : string) (parsed : PlanApprovalRequestMessage)
| permission_request (agent : string) (parsed : PermissionRequestMessage)
| message (agent : string) (raw : InboxMessage).

Definition PROTOCOL_ONLY_TYPES : list string :=
  [ "shutdown_approved"; "plan_approval_response"; "permission_response" ].

Definition AGENT_COLORS : list string :=
  [ "#00FF00"; "#00BFFF"; "#FF6347"; "#FFD700";
    "#DA70D6"; "#40E0D0"; "#FF69B4"; "#7B68EE" ].

Record ControllerOptions := {
  co_teamName : option string;
  co_cwd : option string;
  co_claudeBinary : option string;
  co_env : option (gmap string string)
}.

Record ClaudeCodeController := {
  teamName : string;
  cwd : string;
  claudeBinary : string;
  defaultEnv : gmap string string;
  colorIndex : N;
  initialized : bool;
  (** [team.sessionId] *)
  sessionId : string;
  (** the ProcessManager's table, by agent name *)
  processes : JsMap.t AgentProcess;
  (** the InboxPoller is running *)
  polling : bool;
  (** the events emitted so far, oldest first *)
  emitted : list ControllerEvent
}.

(** The controller object and the world it acts on. *)
Record Sys := { ctrl : ClaudeCodeController; world : World }.

Definition onWorld {A} (m : M World A) : M Sys A :=
  fun s =>
    let (w', r) := m (world s) in ({| ctrl := ctrl s; world := w' |}, r).

Definition update_ctrl (f : ClaudeCodeController -> ClaudeCodeController)
    : M Sys unit :=
  modify (fun s => {| ctrl := f (ctrl s); world := world s |}).

Definition set_colorIndex (n : N) (c : ClaudeCodeController) :=
  {| teamName := teamName c; cwd := cwd c; claudeBinary := claudeBinary c;
     defaultEnv := defaultEnv c; colorIndex := n;
     initialized := initialized c; sessionId := sessionId c;
     processes := processes c; polling := polling c; emitted := emitted c |}.

Definition set_initialized (b : bool) (c : ClaudeCodeController) :=
  {| teamName := teamName c; cwd := cwd c; claudeBinary := claudeBinary c;
     defaultEnv := defaultEnv c; colorIndex := colorIndex c;
     initialized := b; sessionId := sessionId c;
     processes := processes c; polling := polling c; emitted := emitted c |}.

Definition set_sessionId (sid : string) (c : ClaudeCodeController) :=
  {| teamName := teamName c; cwd := cwd c; claudeBinary := claudeBinary c;
     defaultEnv := defaultEnv c; colorIndex := colorIndex c;
     initialized := initialized c; sessionId := sid;
     processes := processes c; polling := polling c; emitted := emitted c |}.

Definition set_processes (f : JsMap.t AgentProcess -> JsMap.t AgentProcess)
    (c : ClaudeCodeController) :=
  {| teamName := teamName c; cwd := cwd c; claudeBinary := claudeBinary c;
     defaultEnv := defaultEnv c; colorIndex := colorIndex c;
     initialized := initialized c; sessionId := sessionId c;
     processes := f (processes c); polling := polling c;
     emitted := emitted c |}.

Definition set_polling (b : bool) (c : ClaudeCodeController) :=
  {| teamName := teamName c; cwd := cwd c; claudeBinary := claudeBinary c;
     defaultEnv := defaultEnv c; colorIndex := colorIndex c;
     initialized := initialized c; sessionId := sessionId c;
     processes := processes c; polling := b; emitted := emitted c |}.

Definition emit (e : ControllerEvent) : M Sys unit :=
  update_ctrl (fun c =>
    {| teamName := teamName c; cwd := cwd c; claudeBinary := claudeBinary c;
       defaultEnv := defaultEnv c; colorIndex := colorIndex c;
       initialized := initialized c; sessionId := sessionId c;
       processes := processes c; polling := polling c;
       emitted := (emitted c ++ [e])%list |}).

(** The constructor. [uuid] is the [randomUUID()] it draws when no team
    name is given. *)
Definition new_ClaudeCodeController (opts : ControllerOptions) (uuid : string)
    (process_cwd : string) : ClaudeCodeController :=
  {| teamName := or_else (co_teamName opts)
                   ("ctrl-" ++ String.substring 0 8 uuid);
     cwd := or_else (co_cwd opts) process_cwd;
     claudeBinary := or_else (co_claudeBinary opts) "claude";
     defaultEnv := default ∅ (co_env opts);
     colorIndex := 0;
     initialized := false;
     sessionId := EmptyString;
     processes := JsMap.empty;
     polling := false;
     emitted := [] |}.

(** Modelled from the spec: [ProcessManager.isRunning] of
    src/process-manager.ts, whose source is not part of the material: the
    process of that name is tracked and has not exited. *)
Definition isRunning (name : string) (c : ClaudeCodeController) : bool :=
  match JsMap.get name (processes c) with
  | Some p => proc_running p
  | None => false
  end.

(** Modelled from the spec: [ProcessManager.spawn]. "spawn(spec) launches
    the external worker binary with a derived environment and working
    directory, returns a handle exposing pid"; "at most one live process
    per name at a time; spawning a second process under a name still
    running is rejected". The process id comes from the world. *)
Definition processes_spawn (spec : SpawnSpec) : M Sys AgentProcess :=
  let* running := gets (fun s => isRunning (sp_agentName spec) (ctrl s)) in
  if running : bool
  then throw_Error ("Agent " ++ sp_agentName spec ++ " is already running")
  else
    let* pid := gets (fun s => next_pid (world s)) in
    let proc := {| proc_spec := spec; proc_pid := Some pid;
                   proc_running := true; proc_exitCode := None;
                   proc_onExit := false |} in
    onWorld (modify (set_next_pid Z.succ)) ;;;
    update_ctrl (set_processes (JsMap.set (sp_agentName spec) proc)) ;;;
    ret proc.

(** Modelled from the spec: "onExit(name, cb) registers a one-shot (per
    spawn) callback invoked with the exit code when the process
    terminates, whether by the process's own volition or by kill". The one
    callback the controller registers emits [agent:exited]. *)
Definition processes_onExit (name : string) : M Sys unit :=
  update_ctrl (set_processes (fun ps =>
    match JsMap.get name ps with
    | Some p =>
        JsMap.set name
          {| proc_spec := proc_spec p; proc_pid := proc_pid p;
             proc_running := proc_running p; proc_exitCode := proc_exitCode p;
             proc_onExit := true |} ps
    | None => ps
    end)).

(** Modelled from the spec: the termination of the process [name] with
    [code], by its own volition or by [kill]: the process is no longer
    running and its exit listener, when armed, fires once. *)
Definition process_exit (name : string) (code : option Z) : M Sys unit :=
  let* p := gets (fun s => JsMap.get name (processes (ctrl s))) in
  match p with
  | Some p =>
      if proc_running p then
        update_ctrl (set_processes (JsMap.set name
          {| proc_spec := proc_spec p; proc_pid := proc_pid p;
             proc_running := false; proc_exitCode := code;
             proc_onExit := false |})) ;;;
        (if proc_onExit p then emit (agent_exited name code) else ret tt)
      else ret tt
  | None => ret tt
  end.

(** Modelled from the spec: "kill(name) sends a termination signal and
    resolves once the process has been confirmed gone (or immediately if
    already gone)"; a killed process has no exit code. *)
Definition processes_kill (name : string) : M Sys unit :=
  process_exit name None.

(** Modelled from the spec: [ProcessManager.runningAgents]. "lists
    currently-tracked live process names". *)
Definition runningAgents (c : ClaudeCodeController) : list string :=
  JsMap.keys (List.filter (fun kv => proc_running (snd kv)) (processes c)).

(** Modelled from the spec: [ProcessManager.killAll]. "terminates every
    tracked running process". *)
Definition processes_killAll : M Sys unit :=
  let* names := gets (fun s => runningAgents (ctrl s)) in
  forM names processes_kill.

Definition Date_now : M Sys Z := gets (fun s => now (world s)).

Definition ensureInitialized : M Sys unit :=
  let* ok := gets (fun s => initialized (ctrl s)) in
  if ok : bool then ret tt
  else throw_Error "Controller not initialized. Call init() first.".

(** [init()] *)
Definition init : M Sys ClaudeCodeController :=
  let* c := gets ctrl in
  if initialized c then ret c
  else
    let* sid := onWorld (team_create (teamName c) (cwd c)) in
    update_ctrl (set_sessionId sid) ;;;
    onWorld (tasks_init (teamName c)) ;;;
    update_ctrl (set_polling true) ;;;
    update_ctrl (set_initialized true) ;;;
    gets ctrl.

(** [send(agentName, message, summary?)] *)
Definition send (agentName message : string) (summary : option string)
    : M Sys unit :=
  ensureInitialized ;;;
  let* c := gets ctrl in
  let* t := Date_now in
  onWorld (modify (writeInbox (teamName c) agentName
    {| msg_from := "controller"; msg_text := message;
       msg_timestamp := toISOString t; msg_summary := summary |})).

(** [sendShutdownRequest(agentName)] *)
Definition sendShutdownRequest (agentName : string) : M Sys unit :=
  let* t := Date_now in
  let requestId := "shutdown-" ++ Z_to_string t ++ "@" ++ agentName in
  let msg := Json.stringify (Json.JObj
    [ ("type", Json.JStr "shutdown_request");
      ("requestId", Json.JStr requestId);
      ("from", Json.JStr "controller");
      ("reason", Json.JStr "Controller shutdown requested");
      ("timestamp", Json.JStr (toISOString t)) ]) in
  send agentName msg None.

(** [broadcast(message, summary?)] *)
Definition broadcast (message : string) (summary : option string) : M Sys unit :=
  ensureInitialized ;;;
  let* c := gets ctrl in
  let* config := onWorld (team_getConfig (teamName c)) in
  let agents :=
    List.filter (fun m => negb (named "controller" m)) (tc_members config) in
  forM agents (fun a => send (tm_name a) message summary).

Record SpawnAgentOptions := {
  so_name : string;
  so_type : option string;
  so_model : option string;
  so_cwd : option string;
  so_permissions : option (list string);
  so_permissionMode : option string;
  so_env : option (gmap string string)
}.

(** What [new AgentHandle(this, name, pid)] holds. *)
Record AgentHandle := { h_name : string; h_pid : option Z }.

(** The environment of the agent process:
    [Object.keys(this.defaultEnv).length > 0 || opts.env
       ? { ...this.defaultEnv, ...opts.env } : undefined]. *)
Definition merge_env (defaults : gmap string string)
    (overrides : option (gmap string string)) : option (gmap string string) :=
  if (0 <? size defaults)%nat || bool_decide (is_Some overrides)
  then Some (default ∅ overrides ∪ defaults)
  else None.

(** [spawnAgent(opts)] *)
Definition spawnAgent (opts : SpawnAgentOptions) : M Sys AgentHandle :=
  ensureInitialized ;;;
  let* c := gets ctrl in
  let agentId := so_name opts ++ "@" ++ teamName c in
  let color :=
    nth (N.to_nat (colorIndex c mod N.of_nat (length AGENT_COLORS)))
        AGENT_COLORS EmptyString in
  update_ctrl (set_colorIndex (N.succ (colorIndex c))) ;;;
  let cwd' := or_else (so_cwd opts) (cwd c) in
  let* t := Date_now in
  let member :=
    {| tm_agentId := agentId; tm_name := so_name opts;
       tm_agentType := or_else (so_type opts) "general-purpose";
       tm_model := so_model opts; tm_joinedAt := t;
       tm_tmuxPaneId := EmptyString; tm_cwd := cwd';
       tm_subscriptions := [] |} in
  onWorld (team_addMember (teamName c) member) ;;;
  let env := merge_env (defaultEnv c) (so_env opts) in
  let* proc := processes_spawn
    {| sp_teamName := teamName c; sp_agentName := so_name opts;
       sp_agentId := agentId;
       sp_agentType := or_else (so_type opts) "general-purpose";
       sp_model := so_model opts; sp_cwd := cwd';
       sp_parentSessionId := sessionId c; sp_color := color;
       sp_claudeBinary := claudeBinary c;
       sp_permissions := so_permissions opts;
       sp_permissionMode := so_permissionMode opts;
       sp_env := env |} in
  emit (agent_spawned (so_name opts) (default 0 (proc_pid proc))) ;;;
  processes_onExit (so_name opts) ;;;
  ret {| h_name := so_name opts; h_pid := proc_pid proc |}.

(** The numbers of the program are JavaScript numbers. An integer of the
    model stands for one when it is a safe integer
    ([Number.isSafeInteger]): such numbers are added and compared exactly
    as long as the results are safe, and a template literal prints them in
    decimal digits. A timeout that is not an integer, or not a safe one,
    is outside the model; the properties that give the text of a timeout
    error or compare the clock with a deadline assume [safe_integer]. *)
Definition safe_integer (z : Z) : Prop := - 2 ^ 53 < z < 2 ^ 53.

Record ReceiveOptions := {
  ro_timeout : option Z;
  ro_pollInterval : option Z;
  ro_all : option bool
}.


(** What can happen to the mailbox of the controller while the controller
    sleeps between two polls: another process appends a message, or the
    InboxPoller runs a poll cycle. The constructor sets the poller on the
    mailbox of ["controller"], and [init] starts it. *)
Inductive Activity :=
| Arrives (m : InboxMessage)
| PollerCycle.

(** One sleep: what happens to the mailbox, in order, and by how much the
    timer fires late. What happens while a read of the mailbox is pending
    counts to the sleep before it; the state a call starts in is the one
    its first read finds. *)
Record EnvStep := { activities : list Activity; overshoot : N }.

(** Modelled from the spec: a poll cycle of the InboxPoller of
    src/inbox-poller.ts, whose source is not part of the material. "While
    running, [...] it performs one atomic poll cycle: read unread mailbox
    entries addressed to the controller, classify each, and emit the full
    batch". Reading advances the cursor of the mailbox; the events of the
    batch are left out. *)
Definition poll_cycle (team : string) (running : bool) (w : World) : World :=
  if running then snd (readUnread team "controller" w) else w.

Definition activity (team : string) (running : bool) (a : Activity)
    (w : World) : World :=
  match a with
  | Arrives m => writeInbox team "controller" m w
  | PollerCycle => poll_cycle team running w
  end.

(** [await sleep(interval)] *)
Definition sleep (interval : Z) (e : EnvStep) : M Sys unit :=
  let* c := gets ctrl in
  onWorld (modify (fun w =>
    set_now (fun t => t + Z.max 0 interval + Z.of_N (overshoot e))
      (fold_left (fun w' a => activity (teamName c) (polling c) a w')
                 (activities e) w))).

(** A polling call ends with a value, or is still asleep when the script
    of the environment ends. *)
Inductive Waited (A : Type) := Got (a : A) | StillWaiting.
Arguments Got {A} a.
Arguments StillWaiting {A}.

Definition is_meaningful (m : InboxMessage) : bool :=
  let parsed := parseMessage m in
  negb (String.eqb (msg_type parsed) "idle_notification")
  && negb (has PROTOCOL_ONLY_TYPES (msg_type parsed)).

Definition is_idle (m : InboxMessage) : bool :=
  String.eqb (msg_type (parseMessage m)) "idle_notification".

Definition from_agent (agentName : string) (m : InboxMessage) : bool :=
  String.eqb (msg_from m) agentName.

(** The body of the loop of [receive] once a batch is read. *)
Definition receive_pick (agentName : string) (all : bool)
    (batch : list InboxMessage) : option (list InboxMessage) :=
  let fromAgent := List.filter (from_agent agentName) batch in
  match fromAgent with
  | [] => None
  | _ :: _ =>
      match List.filter is_meaningful fromAgent with
      | m0 :: more => Some (if all then m0 :: more else [m0])
      | [] =>
          match List.filter is_idle fromAgent with
          | i0 :: more => Some (if all then i0 :: more else [i0])
          | [] => None
          end
      end
  end.

Definition readUnread_controller : M Sys (list InboxMessage) :=
  fun s =>
    let (batch, w') := readUnread (teamName (ctrl s)) "controller" (world s) in
    ({| ctrl := ctrl s; world := w' |}, inr batch).

(** [`Timeout (${timeout}ms) waiting for message from "${agentName}"`],
    for a timeout that is a safe integer. *)
Definition receive_timeout_message (timeout : Z) (agentName : string) : string :=
  "Timeout (" ++ Z_to_string timeout ++ "ms) waiting for message from "
    ++ String dquote (agentName ++ String dquote EmptyString).

Fixpoint receive_loop (agentName : string) (all : bool)
    (timeout interval deadline : Z) (script : list EnvStep)
    : M Sys (Waited (list InboxMessage)) :=
  let* t := Date_now in
  if t <? deadline then
    let* batch := readUnread_controller in
    match receive_pick agentName all batch with
    | Some msgs => ret (Got msgs)
    | None =>
        match script with
        | [] => ret StillWaiting
        | e :: rest =>
            sleep interval e ;;;
            receive_loop agentName all timeout interval deadline rest
        end
    end
  else throw_Error (receive_timeout_message timeout agentName).

(** [receive(agentName, opts?)] *)
Definition receive (agentName : string) (opts : ReceiveOptions)
    (script : list EnvStep) : M Sys (Waited (list InboxMessage)) :=
  let timeout := default 60000 (ro_timeout opts) in
  let interval := default 500 (ro_pollInterval opts) in
  let* t := Date_now in
  let deadline := t + timeout in
  receive_loop agentName (default false (ro_all opts)) timeout interval
    deadline script.

Fixpoint receiveAny_loop (timeout interval deadline : Z) (script : list EnvStep)
    : M Sys (Waited InboxMessage) :=
  let* t := Date_now in
  if t <? deadline then
    let* batch := readUnread_controller in
    match List.filter is_meaningful batch with
    | m0 :: _ => ret (Got m0)
    | [] =>
        match script with
        | [] => ret StillWaiting
        | e :: rest =>
            sleep interval e ;;; receiveAny_loop timeout interval deadline rest
        end
    end
  else throw_Error ("Timeout (" ++ Z_to_string timeout
                      ++ "ms) waiting for any message").

(** [receiveAny(opts?)] *)
Definition receiveAny (opts : ReceiveOptions) (script : list EnvStep)
    : M Sys (Waited InboxMessage) :=
  let timeout := default 60000 (ro_timeout opts) in
  let interval := default 500 (ro_pollInterval opts) in
  let* t := Date_now in
  receiveAny_loop timeout interval (t + timeout) script.

Definition task_assignment_text (taskId subject description now_iso : string)
    : string :=
  Json.stringify (Json.JObj
    [ ("type", Json.JStr "task_assignment");
      ("taskId", Json.JStr taskId);
      ("subject", Json.JStr subject);
      ("description", Json.JStr description);
      ("assignedBy", Json.JStr "controller");
      ("timestamp", Json.JStr now_iso) ]).

(** [createTask(task)] *)
Definition createTask (task : TaskInput) : M Sys string :=
  ensureInitialized ;;;
  let* c := gets ctrl in
  let* taskId := onWorld (tasks_create (teamName c) task) in
  (if truthy (ti_owner task) then
     let* fullTask := onWorld (tasks_get (teamName c) taskId) in
     let* t := Date_now in
     send (default EmptyString (ti_owner task))
          (task_assignment_text taskId (task_subject fullTask)
             (task_description fullTask) (toISOString t))
          None
   else ret tt) ;;;
  ret taskId.

Definition owner_patch (agentName : string) : TaskPatch :=
  {| tp_subject := None; tp_description := None; tp_activeForm := None;
     tp_owner := Some agentName; tp_status := None; tp_blocks := None;
     tp_blockedBy := None; tp_metadata := None |}.

(** [assignTask(taskId, agentName)] *)
Definition assignTask (taskId agentName : string) : M Sys unit :=
  let* c := gets ctrl in
  let* task := onWorld (tasks_update (teamName c) taskId (owner_patch agentName)) in
  let* t := Date_now in
  send agentName
    (task_assignment_text taskId (task_subject task) (task_description task)
       (toISOString t))
    None.

Definition plan_approval_response_text (requestId : string) (approve : bool)
    (feedback : option string) (now_iso : string) : string :=
  Json.stringify (Json.JObj
    (Json.prop "type" (Json.JStr "plan_approval_response")
     ++ Json.prop "requestId" (Json.JStr requestId)
     ++ Json.prop "from" (Json.JStr "controller")
     ++ Json.prop "approved" (Json.JBool approve)
     ++ Json.opt_prop "feedback" feedback
     ++ Json.prop "timestamp" (Json.JStr now_iso))%list).

(** [sendPlanApproval(agentName, requestId, approve, feedback?)] *)
Definition sendPlanApproval (agentName requestId : string) (approve : bool)
    (feedback : option string) : M Sys unit :=
  let* t := Date_now in
  send agentName
    (plan_approval_response_text requestId approve feedback (toISOString t))
    None.

Definition permission_response_text (requestId : string) (approve : bool)
    (now_iso : string) : string :=
  Json.stringify (Json.JObj
    [ ("type", Json.JStr "permission_response");
      ("requestId", Json.JStr requestId);
      ("from", Json.JStr "controller");
      ("approved", Json.JBool approve);
      ("timestamp", Json.JStr now_iso) ]).

(** [sendPermissionResponse(agentName, requestId, approve)] *)
Definition sendPermissionResponse (agentName requestId : string)
    (approve : bool) : M Sys unit :=
  let* t := Date_now in
  send agentName (permission_response_text requestId approve (toISOString t))
    None.

Definition isAgentRunning (name : string) : M Sys bool :=
  gets (fun s => isRunning name (ctrl s)).

(** [killAgent(name)] *)
Definition killAgent (name : string) : M Sys unit :=
  processes_kill name ;;;
  let* c := gets ctrl in
  onWorld (team_removeMember (teamName c) name).

(** [shutdown()]. [exits] are the agents that leave on their own during the
    wait, with their exit codes; [waited] is the time the wait takes. *)
Definition shutdown (exits : list (string * option Z)) (waited : N)
    : M Sys unit :=
  let* running := gets (fun s => runningAgents (ctrl s)) in
  forM running (fun name =>
    try_catch (sendShutdownRequest name) (fun _ => ret tt)) ;;;
  forM exits (fun e => process_exit (fst e) (snd e)) ;;;
  onWorld (modify (set_now (fun t => t + Z.of_N waited))) ;;;
  processes_killAll ;;;
  update_ctrl (set_polling false) ;;;
  let* c := gets ctrl in
  onWorld (team_destroy (teamName c)) ;;;
  update_ctrl (set_initialized false).

(** ** src/api/routes.ts and src/api/index.ts *)

Definition safe_char (c : ascii) : bool :=
  let n := N_of_ascii c in
  ((97 <=? n) && (n <=? 122) || (65 <=? n) && (n <=? 90)
   || (48 <=? n) && (n <=? 57) || (n =? 95) || (n =? 45))%N.

(** [SAFE_NAME_RE.test(value)] with [/^[a-zA-Z0-9_-]{1,64}$/]. *)
Definition SAFE_NAME_RE_test (value : string) : bool :=
  (1 <=? String.length value)%nat && (String.length value <=? 64)%nat
  && forallb safe_char (list_ascii_of_string value).

Definition validateName {St} (value field : string) : M St unit :=
  if SAFE_NAME_RE_test value then ret tt
  else raise {| err_name := ValidationError;
                err_message := field ++
                  " must be 1-64 alphanumeric characters, hyphens, or underscores" |}.

Record ApiState := {
  controller : option ClaudeCodeController;
  tracker : ActionTracker;
  owned : bool;
  initLock : bool;
  startTime : Z
}.

(** The API object and the world. *)
Record Api := { state : ApiState; api_world : World }.

Definition set_tracker (f : ActionTracker -> ActionTracker) : M Api unit :=
  modify (fun a =>
    {| state := {| controller := controller (state a);
                   tracker := f (tracker (state a));
                   owned := owned (state a); initLock := initLock (state a);
                   startTime := startTime (state a) |};
       api_world := api_world a |}).

(** A listener of the tracker, run on one event of the controller. *)
Definition tracker_on (nowIso : string) (e : ControllerEvent)
    (t : ActionTracker) : ActionTracker :=
  match e with
  | plan_approval_request agent parsed => onPlan agent parsed t
  | permission_request agent parsed => onPermission agent parsed t
  | idle agent => onIdle nowIso agent t
  | message agent _ => onMessage agent t
  | agent_spawned agent _ => onSpawned agent t
  | agent_exited agent _ => onExited agent t
  end.

(** The tracker hears the events of the controller it is attached to. *)
Definition deliver (source : string) (nowIso : string)
    (events : list ControllerEvent) (t : ActionTracker) : ActionTracker :=
  match currentController t with
  | Some listened =>
      if String.eqb listened source
      then fold_left (fun t' e => tracker_on nowIso e t') events t
      else t
  | None => t
  end.

(** [getController(state)], then a call on the controller; the events the
    call emits reach the tracker. *)
Definition withController {A} (m : M Sys A) : M Api A :=
  fun a =>
    match controller (state a) with
    | None =>
        (a, inl {| err_name := Error;
                   err_message := "No active session. Call POST /session/init first." |})
    | Some c =>
        let (s', r) := m {| ctrl := c; world := api_world a |} in
        let fresh := drop (length (emitted c)) (emitted (ctrl s')) in
        ({| state := {| controller := Some (ctrl s');
                        tracker := deliver (teamName c)
                                     (toISOString (now (world s'))) fresh
                                     (tracker (state a));
                        owned := owned (state a);
                        initLock := initLock (state a);
                        startTime := startTime (state a) |};
            api_world := world s' |}, r)
    end.

Definition getController : M Api ClaudeCodeController :=
  withController (gets ctrl).

(** *** Request bodies (src/api/types.ts). A field the handler tests for
    presence is optional here even where the type declares it required. *)

Record InitSessionBody := {
  is_teamName : option string;
  is_cwd : option string;
  is_claudeBinary : option string;
  is_env : option (gmap string string)
}.

Record SpawnAgentBody := {
  sa_name : option string;
  sa_type : option string;
  sa_model : option string;
  sa_cwd : option string;
  sa_permissions : option (list string);
  sa_env : option (gmap string string)
}.

Record SendMessageBody := {
  sm_message : option string;
  sm_summary : option string
}.

Record ApprovePlanBody := {
  apl_requestId : option string;
  apl_approve : option bool;
  apl_feedback : option string
}.

Record ApprovePermissionBody := {
  ape_requestId : option string;
  ape_approve : option bool
}.

Record CreateTaskBody := {
  ct_subject : option string;
  ct_description : option string;
  ct_activeForm : option string;
  ct_owner : option string;
  ct_status : option TaskStatus;
  ct_blocks : option (list string);
  ct_blockedBy : option (list string);
  ct_metadata : option (list (string * Json.json))
}.

Record AssignTaskBody := { at_agent : option string }.

Record AgentInfo := {
  ai_name : string;
  ai_type : string;
  ai_model : option string;
  ai_running : bool
}.

Record UnassignedTask := {
  ut_id : string;
  ut_subject : string;
  ut_description : string;
  ut_status : TaskStatus;
  ut_action : string
}.

(** The request: method, route, decoded path parameters and parsed body.
    The last arguments of [POST_session_init] and [POST_session_shutdown]
    are what the environment contributes: the UUID drawn by the
    constructor, the working directory of the server, and the course of
    the shutdown of the previous session. *)
Inductive Request :=
| GET_health
| GET_session
| POST_session_init (body : InitSessionBody) (uuid process_cwd : string)
    (exits : list (string * option Z)) (waited : N)
| POST_session_shutdown (exits : list (string * option Z)) (waited : N)
| GET_actions
| GET_actions_approvals
| GET_actions_tasks
| GET_actions_idle_agents
| GET_agents
| POST_agents (body : SpawnAgentBody)
| GET_agent (name : string)
| POST_agent_messages (name : string) (body : SendMessageBody)
| POST_agent_kill (name : string)
| POST_agent_shutdown (name : string)
| POST_agent_approve_plan (name : string) (body : ApprovePlanBody)
| POST_agent_approve_permission (name : string) (body : ApprovePermissionBody)
| POST_broadcast (body : SendMessageBody)
| GET_tasks
| POST_tasks (body : CreateTaskBody)
| GET_task (id : string)
| PATCH_task (id : string) (body : TaskPatch)
| DELETE_task (id : string)
| POST_task_assign (id : string) (body : AssignTaskBody).

Inductive Body :=
| error_body (error : string)
| ok_body
| health_body (status : string) (uptime : Z) (session : bool)
| session_body (initialized : bool) (teamName : string)
| actions_body (pending : nat) (approvals : list PendingApproval)
    (unassignedTasks : list UnassignedTask) (idleAgents : list IdleAgent)
| approvals_body (approvals : list PendingApproval)
| unassigned_body (tasks : list UnassignedTask)
| idle_agents_body (agents : list IdleAgent)
| agents_body (agents : list AgentInfo)
| agent_body (agent : AgentInfo)
| spawned_body (name : string) (pid : option Z) (running : bool)
| tasks_body (tasks : list TaskFile)
| task_body (task : TaskFile).

Record Response := { status : Z; body : Body }.

(** [c.json(body, status)] *)
Definition c_json (b : Body) (code : Z) : M Api Response :=
  ret {| status := code; body := b |}.

Definition agent_info (c : ClaudeCodeController) (m : TeamMember) : AgentInfo :=
  {| ai_name := tm_name m; ai_type := tm_agentType m; ai_model := tm_model m;
     ai_running := isRunning (tm_name m) c |}.

Definition unassigned (tasks : list TaskFile) : list UnassignedTask :=
  map (fun t =>
         {| ut_id := task_id t; ut_subject := task_subject t;
            ut_description := task_description t; ut_status := task_status t;
            ut_action := "POST /tasks/" ++ task_id t ++ "/assign" |})
      (List.filter
         (fun t => negb (truthy (task_owner t))
                   && negb (match task_status t with completed => true | _ => false end))
         tasks).

Definition set_state (f : ApiState -> ApiState) : M Api unit :=
  modify (fun a => {| state := f (state a); api_world := api_world a |}).

Definition set_initLock (b : bool) (s : ApiState) : ApiState :=
  {| controller := controller s; tracker := tracker s; owned := owned s;
     initLock := b; startTime := startTime s |}.

Definition set_controller (c : option ClaudeCodeController) (s : ApiState)
    : ApiState :=
  {| controller := c; tracker := tracker s; owned := owned s;
     initLock := initLock s; startTime := startTime s |}.

Definition set_owned (b : bool) (s : ApiState) : ApiState :=
  {| controller := controller s; tracker := tracker s; owned := b;
     initLock := initLock s; startTime := startTime s |}.

(** A call on a controller that is not (or no longer) the one of the state:
    the tracker does not listen to it. *)
Definition detached {A} (c : ClaudeCodeController) (m : M Sys A) : M Api A :=
  fun a =>
    let (s', r) := m {| ctrl := c; world := api_world a |} in
    ({| state := state a; api_world := world s' |}, r).

(** [try { ... } finally { state.initLock = false }] *)
Definition finally_unlock {A} (m : M Api A) : M Api A :=
  fun a =>
    let (a', r) := m a in
    ({| state := set_initLock false (state a'); api_world := api_world a' |}, r).

Definition task_input (b : CreateTaskBody) : TaskInput :=
  {| ti_subject := default EmptyString (ct_subject b);
     ti_description := default EmptyString (ct_description b);
     ti_activeForm := ct_activeForm b; ti_owner := ct_owner b;
     ti_status := ct_status b; ti_blocks := ct_blocks b;
     ti_blockedBy := ct_blockedBy b; ti_metadata := ct_metadata b |}.

(** The handlers of [buildRoutes], in the order of the source. *)
Definition route (r : Request) : M Api Response :=
  match r with
  | GET_health =>
      let* t := gets (fun a => now (api_world a)) in
      let* st := gets state in
      c_json (health_body "ok" (t - startTime st)
                (match controller st with Some _ => true | None => false end))
        200
  | GET_session =>
      let* c := gets (fun a => controller (state a)) in
      match c with
      | None => c_json (session_body false EmptyString) 200
      | Some c => c_json (session_body true (teamName c)) 200
      end
  | POST_session_init body uuid process_cwd exits waited =>
      let* locked := gets (fun a => initLock (state a)) in
      if locked : bool
      then c_json (error_body "Session init already in progress") 409
      else
        set_state (set_initLock true) ;;;
        finally_unlock (
          (if truthy (is_teamName body)
           then validateName (default EmptyString (is_teamName body)) "teamName"
           else ret tt) ;;;
          let* old := gets (fun a => controller (state a)) in
          match old with
          | Some oldController =>
              set_tracker clear ;;;
              set_state (set_controller None) ;;;
              let* mine := gets (fun a => owned (state a)) in
              if mine : bool
              then detached oldController (shutdown exits waited)
              else ret tt
          | None => ret tt
          end ;;;
          let fresh := new_ClaudeCodeController
            {| co_teamName := is_teamName body; co_cwd := is_cwd body;
               co_claudeBinary := is_claudeBinary body;
               co_env := is_env body |} uuid process_cwd in
          let* started := fun a =>
            match init {| ctrl := fresh; world := api_world a |} with
            | (s', inr c') =>
                ({| state := state a; api_world := world s' |}, inr c')
            | (s', inl err) =>
                (* clean up the partially initialized controller *)
                let (s'', _) := shutdown [] 0 s' in
                ({| state := state a; api_world := world s'' |}, inl err)
            end in
          set_state (set_controller (Some started)) ;;;
          set_state (set_owned true) ;;;
          set_tracker (attach (teamName started)) ;;;
          c_json (session_body true (teamName started)) 201)
  | POST_session_shutdown exits waited =>
      let* locked := gets (fun a => initLock (state a)) in
      if locked : bool
      then c_json (error_body "Session init in progress") 409
      else
        let* c := getController in
        set_tracker clear ;;;
        set_state (set_controller None) ;;;
        let* mine := gets (fun a => owned (state a)) in
        (if mine : bool then detached c (shutdown exits waited) else ret tt) ;;;
        set_state (set_owned false) ;;;
        c_json ok_body 200
  | GET_actions =>
      let* c := getController in
      let* t := gets (fun a => tracker (state a)) in
      let* tasks := withController (onWorld (tasks_list (teamName c))) in
      let unassignedTasks := unassigned tasks in
      let pending :=
        (length (getPendingApprovals t) + length unassignedTasks
         + length (getIdleAgents t))%nat in
      c_json (actions_body pending (getPendingApprovals t) unassignedTasks
                (getIdleAgents t)) 200
  | GET_actions_approvals =>
      let* _ := getController in
      let* t := gets (fun a => tracker (state a)) in
      c_json (approvals_body (getPendingApprovals t)) 200
  | GET_actions_tasks =>
      let* c := getController in
      let* tasks := withController (onWorld (tasks_list (teamName c))) in
      c_json (unassigned_body (unassigned tasks)) 200
  | GET_actions_idle_agents =>
      let* _ := getController in
      let* t := gets (fun a => tracker (state a)) in
      c_json (idle_agents_body (getIdleAgents t)) 200
  | GET_agents =>
      let* c := getController in
      let* config := withController (onWorld (team_getConfig (teamName c))) in
      c_json (agents_body
        (map (agent_info c)
           (List.filter (fun m => negb (named "controller" m))
              (tc_members config)))) 200
  | POST_agents body =>
      let* _ := getController in
      if negb (truthy (sa_name body))
      then c_json (error_body "name is required") 400
      else
        let name := default EmptyString (sa_name body) in
        validateName name "name" ;;;
        let agentType := or_else (sa_type body) "general-purpose" in
        set_tracker (registerAgentType name agentType) ;;;
        let* handle := withController (spawnAgent
          {| so_name := name; so_type := sa_type body;
             so_model := sa_model body; so_cwd := sa_cwd body;
             so_permissions := sa_permissions body;
             so_permissionMode := None; so_env := sa_env body |}) in
        let* running := withController (isAgentRunning (h_name handle)) in
        c_json (spawned_body (h_name handle) (h_pid handle) running) 201
  | GET_agent name =>
      let* c := getController in
      let* config := withController (onWorld (team_getConfig (teamName c))) in
      match find (named name) (tc_members config) with
      | None =>
          c_json (error_body ("Agent " ++ String dquote name
                                ++ String dquote " not found")) 404
      | Some member => c_json (agent_body (agent_info c member)) 200
      end
  | POST_agent_messages name body =>
      let* _ := getController in
      if negb (truthy (sm_message body))
      then c_json (error_body "message is required") 400
      else
        withController
          (send name (default EmptyString (sm_message body)) (sm_summary body)) ;;;
        c_json ok_body 200
  | POST_agent_kill name =>
      let* _ := getController in
      withController (killAgent name) ;;;
      c_json ok_body 200
  | POST_agent_shutdown name =>
      let* _ := getController in
      withController (sendShutdownRequest name) ;;;
      c_json ok_body 200
  | POST_agent_approve_plan name body =>
      let* _ := getController in
      if negb (truthy (apl_requestId body))
      then c_json (error_body "requestId is required") 400
      else
        let requestId := default EmptyString (apl_requestId body) in
        withController
          (sendPlanApproval name requestId (default true (apl_approve body))
             (apl_feedback body)) ;;;
        set_tracker (resolveApproval requestId) ;;;
        c_json ok_body 200
  | POST_agent_approve_permission name body =>
      let* _ := getController in
      if negb (truthy (ape_requestId body))
      then c_json (error_body "requestId is required") 400
      else
        let requestId := default EmptyString (ape_requestId body) in
        withController
          (sendPermissionResponse name requestId
             (default true (ape_approve body))) ;;;
        set_tracker (resolveApproval requestId) ;;;
        c_json ok_body 200
  | POST_broadcast body =>
      let* _ := getController in
      if negb (truthy (sm_message body))
      then c_json (error_body "message is required") 400
      else
        withController
          (broadcast (default EmptyString (sm_message body)) (sm_summary body)) ;;;
        c_json ok_body 200
  | GET_tasks =>
      let* c := getController in
      let* tasks := withController (onWorld (tasks_list (teamName c))) in
      c_json (tasks_body tasks) 200
  | POST_tasks body =>
      let* c := getController in
      if negb (truthy (ct_subject body)) || negb (truthy (ct_description body))
      then c_json (error_body "subject and description are required") 400
      else
        let* taskId := withController (createTask (task_input body)) in
        let* task := withController (onWorld (tasks_get (teamName c) taskId)) in
        c_json (task_body task) 201
  | GET_task id =>
      let* c := getController in
      let* task := catch_null
        (withController (onWorld (tasks_get (teamName c) id))) in
      match task with
      | None =>
          c_json (error_body ("Task " ++ String dquote id
                                ++ String dquote " not found")) 404
      | Some task => c_json (task_body task) 200
      end
  | PATCH_task id body =>
      let* c := getController in
      let* task := catch_null
        (withController (onWorld (tasks_update (teamName c) id body))) in
      match task with
      | None =>
          c_json (error_body ("Task " ++ String dquote id
                                ++ String dquote " not found")) 404
      | Some task => c_json (task_body task) 200
      end
  | DELETE_task id =>
      let* c := getController in
      let* exists_ := catch_null
        (withController (onWorld (tasks_get (teamName c) id))) in
      match exists_ with
      | None =>
          c_json (error_body ("Task " ++ String dquote id
                                ++ String dquote " not found")) 404
      | Some _ =>
          withController (onWorld (tasks_delete (teamName c) id)) ;;;
          c_json ok_body 200
      end
  | POST_task_assign id body =>
      let* c := getController in
      if negb (truthy (at_agent body))
      then c_json (error_body "agent is required") 400
      else
        let* exists_ := catch_null
          (withController (onWorld (tasks_get (teamName c) id))) in
        match exists_ with
        | None =>
            c_json (error_body ("Task " ++ String dquote id
                                  ++ String dquote " not found")) 404
        | Some _ =>
            withController
              (assignTask id (default EmptyString (at_agent body))) ;;;
            c_json ok_body 200
        end
  end.

(** The application of [createApi]: a route, and the global error handler
    ("returns 400 for validation errors, 500 for the rest"). *)
Definition handle (r : Request) (a : Api) : Api * Response :=
  match route r a with
  | (a', inr response) => (a', response)
  | (a', inl err) =>
      (a', {| status := match err_name err with
                        | ValidationError => 400
                        | Error => 500
                        end;
              body := error_body (err_message err) |})
  end.

(** [createApi(controller)] *)
Definition createApi (c : option ClaudeCodeController) (start : Z) : ApiState :=
  {| controller := c;
     tracker := match c with
                | Some c => attach (teamName c) new_ActionTracker
                | None => new_ActionTracker
                end;
     owned := false; initLock := false; startTime := start |}.

(** ** Vocabulary of the properties *)



Definition controller_unread (s : Sys) : list InboxMessage :=
  unread (teamName (ctrl s)) "controller" (world s).

(** One fruitless iteration of the loop of [receive]: the mailbox is read,
    then the controller sleeps through [e]. *)
Definition quiet_iteration (interval : Z) (e : EnvStep) (s : Sys) : Sys :=
  fst (sleep interval e (fst (readUnread_controller s))).


(** The calls a client may interleave on an initialized controller. *)
Inductive Op :=
| op_createTask (task : TaskInput)
| op_deleteTask (id : string)
| op_updateTask (id : string) (patch : TaskPatch)
| op_assignTask (id agent : string)
| op_send (agent message : string) (summary : option string)
| op_broadcast (message : string) (summary : option string)
| op_spawnAgent (opts : SpawnAgentOptions)
| op_killAgent (name : string)
| op_receive (name : string) (opts : ReceiveOptions) (script : list EnvStep).

Definition is_create (o : Op) : bool :=
  match o with op_createTask _ => true | _ => false end.

Definition is_delete (o : Op) : bool :=
  match o with op_deleteTask _ => true | _ => false end.

(** One call: the state after it (also when it throws), and the task
    identifier it returned when it is a successful [createTask]. *)
Definition run_op (o : Op) (s : Sys) : Sys * list string :=
  match o with
  | op_createTask task =>
      match createTask task s with
      | (s', inr id) => (s', [id])
      | (s', inl _) => (s', [])
      end
  | op_deleteTask id =>
      (fst (onWorld (tasks_delete (teamName (ctrl s)) id) s), [])
  | op_updateTask id patch =>
      (fst (onWorld (tasks_update (teamName (ctrl s)) id patch) s), [])
  | op_assignTask id agent => (fst (assignTask id agent s), [])
  | op_send agent msg summary => (fst (send agent msg summary s), [])
  | op_broadcast msg summary => (fst (broadcast msg summary s), [])
  | op_spawnAgent opts => (fst (spawnAgent opts s), [])
  | op_killAgent name => (fst (killAgent name s), [])
  | op_receive name opts script => (fst (receive name opts script s), [])
  end.

Fixpoint run_ops (ops : list Op) (s : Sys) : Sys * list string :=
  match ops with
  | [] => (s, [])
  | o :: rest =>
      let (s1, ids1) := run_op o s in
      let (s2, ids2) := run_ops rest s1 in
      (s2, (ids1 ++ ids2)%list)
  end.

(** The identifiers ["first"], ["first+1"], ... ([count] of them). *)
Fixpoint ids_from (first : N) (count : nat) : list string :=
  match count with
  | O => []
  | S k => N_to_string first :: ids_from (N.succ first) k
  end.

(** The environment the agent process sees for a variable. *)
Definition env_lookup (env : option (gmap string string)) (k : string)
    : option string :=
  match env with
  | Some m => m !! k
  | None => None
  end.

(** ** Sample data *)

Definition sample_plan_request : PlanApprovalRequestMessage :=
  {| plan_requestId := "plan-stale";
     plan_timestamp := "2026-01-01T00:00:00.000Z";
     plan_planContent := Some "Will never complete" |}.

Definition sample_permission_request : PermissionRequestMessage :=
  {| perm_requestId := "perm-live";
     perm_timestamp := "2026-01-01T00:00:01.000Z";
     perm_toolName := "Bash"; perm_description := "Run ls" |}.

(** A tracker with one pending approval of "deadagent", one of "worker1". *)
Definition sample_tracker : ActionTracker :=
  onPermission "worker1" sample_permission_request
    (onPlan "deadagent" sample_plan_request new_ActionTracker).

(** A value without structure: a string or a boolean. *)
Definition flat (v : Json.json) : Prop :=
  match v with
  | Json.JStr _ | Json.JBool _ => True
  | _ => False
  end.

(** The piece [JSON.parse] reads for the escape [JSON.stringify] writes
    for one character. *)
Definition piece_of (c : ascii) : Json.piece :=
  if (N_of_ascii c <? 32)%N
     && negb (Ascii.eqb c "008" || Ascii.eqb c "012" || Ascii.eqb c "010"
              || Ascii.eqb c "013" || Ascii.eqb c "009")
  then Json.PUnit (N_of_ascii c)
  else Json.PByte c.

(** The text of one member of an object, as [Json.stringify] writes it. *)
Definition member_text (kv : string * Json.json) : string :=
  let '(k, v) := kv in Json.quote k ++ ":" ++ Json.stringify v.

Definition not_initialized_error : JsError :=
  {| err_name := Error;
     err_message := "Controller not initialized. Call init() first." |}.

(** A controller for team "t1" that was never initialized, in an empty
    world, and the same after [init()]. *)
Definition sample_options : ControllerOptions :=
  {| co_teamName := Some "t1"; co_cwd := Some "/work";
     co_claudeBinary := None;
     co_env := Some {[ "API_KEY" := "default-key"; "REGION" := "eu" ]} |}.

Definition sample_fresh : Sys :=
  {| ctrl := new_ClaudeCodeController sample_options EmptyString "/srv";
     world := empty_World |}.

Definition sample_ready : Sys := fst (init sample_fresh).

(** A computation that never throws. *)
Definition never_throws {St A} (m : M St A) : Prop :=
  forall s, exists s' a, m s = (s', inr a).

(** A computation that returns with the controller marked uninitialized. *)
Definition ends_uninitialized (m : M Sys unit) : Prop :=
  forall s, exists s', m s = (s', inr tt) /\ initialized (ctrl s') = false.

(** The invariant of a task ledger: every record carries an identifier
    that was handed out before. *)
Definition ledger_wf (l : Ledger) : Prop :=
  Forall (fun t => exists n, task_id t = N_to_string n /\ (n < next_id l)%N)
         (records l).

Definition sample_spawn : SpawnAgentOptions :=
  {| so_name := "w1"; so_type := None; so_model := None; so_cwd := None;
     so_permissions := None; so_permissionMode := None;
     so_env := Some {[ "API_KEY" := "per-agent-key" ]} |}.

Definition sample_task : TaskInput :=
  {| ti_subject := "Build feature";
     ti_description := "Build the new feature";
     ti_activeForm := None; ti_owner := Some "worker1"; ti_status := None;
     ti_blocks := None; ti_blockedBy := None; ti_metadata := None |}.

(** The API state after a route has written [m] to the mailbox of
    [agent] and the tracker has become [f] of what it was. *)
Definition api_after (a : Api) (team agent : string) (m : InboxMessage)
    (f : ActionTracker -> ActionTracker) : Api :=
  {| state := {| controller := controller (state a);
                 tracker := f (tracker (state a));
                 owned := owned (state a); initLock := initLock (state a);
                 startTime := startTime (state a) |};
     api_world := writeInbox team agent m (api_world a) |}.

Definition controller_envelope (text : string) (summary : option string)
    (w : World) : InboxMessage :=
  {| msg_from := "controller"; msg_text := text;
     msg_timestamp := toISOString (now w); msg_summary := summary |}.

(** An initialized controller behind the REST API. *)
Definition sample_api : Api :=
  {| state := createApi (Some (ctrl sample_ready)) 0;
     api_world := world sample_ready |}.

(** What the approval routes achieve on [request]: a 200 answer, one
    envelope of the given [type] appended to the mailbox of the agent,
    carrying [approved = true] and the request id, and no approval left
    under the request id in the tracker. *)
Definition approves_and_resolves (a : Api) (team name requestId type : string)
    (request : Request) : Prop :=
  exists a' envelope members,
    handle request a = (a', {| status := 200; body := ok_body |})
    /\ readInbox team name (api_world a')
       = (readInbox team name (api_world a) ++ [envelope])%list
    /\ parseMessage envelope = Protocol type members
    /\ Json.field "approved" members = Some (Json.JBool true)
    /\ Json.field "requestId" members = Some (Json.JStr requestId)
    /\ approvals (tracker (state a'))
       = JsMap.delete requestId (approvals (tracker (state a)))
    /\ JsMap.get requestId (approvals (tracker (state a'))) = None.

Definition timeout_error (timeout : Z) (agentName : string) : JsError :=
  {| err_name := Error;
     err_message := receive_timeout_message timeout agentName |}.

(** The state once the controller has read its mailbox. *)
Definition after_read (s : Sys) : Sys := fst (readUnread_controller s).

(** A message of agent "w1" that says only that its turn has ended, one
    that answers a plan request, and a plain reply. *)
Definition sample_idle : InboxMessage :=
  {| msg_from := "w1";
     msg_text := Json.stringify (Json.JObj
       [ ("type", Json.JStr "idle_notification"); ("from", Json.JStr "w1");
         ("timestamp", Json.JStr "2026-01-01T00:00:00.000Z");
         ("idleReason", Json.JStr "turn_ended") ]);
     msg_timestamp := "2026-01-01T00:00:00.000Z"; msg_summary := None |}.

Definition sample_protocol_reply : InboxMessage :=
  {| msg_from := "w1";
     msg_text := Json.stringify (Json.JObj
       [ ("type", Json.JStr "shutdown_approved");
         ("requestId", Json.JStr "shutdown-1@w1"); ("from", Json.JStr "w1") ]);
     msg_timestamp := "2026-01-01T00:00:01.000Z"; msg_summary := None |}.

Definition sample_reply : InboxMessage :=
  {| msg_from := "w1"; msg_text := "done, see the branch";
     msg_timestamp := "2026-01-01T00:00:02.000Z"; msg_summary := None |}.

(** The initialized controller with the protocol reply and the idle
    notification of "w1" unread in its mailbox. *)
Definition sample_idle_only : Sys :=
  {| ctrl := ctrl sample_ready;
     world := writeInbox "t1" "controller" sample_idle
                (writeInbox "t1" "controller" sample_protocol_reply
                   (world sample_ready)) |}.

(** [receive] with a timeout of one second, polling every 400 ms. *)
Definition sample_receive_options : ReceiveOptions :=
  {| ro_timeout := Some 1000; ro_pollInterval := Some 400; ro_all := None |}.

(** Nothing arrives during the first sleep, the reply during the second. *)
Definition sample_script_reply : list EnvStep :=
  [ {| activities := []; overshoot := 3 |};
    {| activities := [Arrives sample_reply]; overshoot := 1 |} ].




(** Two states with the same lifecycle flag, team and task ledgers. *)
Definition same_ledgers (s s' : Sys) : Prop :=
  initialized (ctrl s') = initialized (ctrl s)
  /\ teamName (ctrl s') = teamName (ctrl s)
  /\ ledgers (world s') = ledgers (world s).

(** A computation that leaves them alone, whether it returns or throws. *)
Definition keeps_ledgers {A} (m : M Sys A) : Prop :=
  forall s, same_ledgers s (fst (m s)).

Definition keeps_ledgers_w {A} (m : M World A) : Prop :=
  forall w, ledgers (fst (m w)) = ledgers w.

Definition team_ledger (s : Sys) : Ledger :=
  ledger (teamName (ctrl s)) (world s).

(** Three tasks are created; the first one is deleted before the third is
    created, and messages are sent in between. *)
Definition sample_ops : list Op :=
  [ op_createTask sample_task;
    op_send "worker1" "start with the first task" None;
    op_createTask sample_task;
    op_deleteTask "1";
    op_broadcast "status?" None;
    op_createTask sample_task ].

(** ** The listeners of the tracker (src/api/action-tracker.ts, node:events) *)

(** The six listeners [attach] creates. *)
Inductive ListenerKind :=
| on_plan | on_permission | on_idle | on_message | on_spawned | on_exited.

(** A function value. Two listeners are the same function ([===]) when
    they are the same closure: the one that the [call]-th run of [attach]
    made for one of its six listeners, or a function of another part of
    the program. *)
Inductive Fn :=
| closure (call : nat) (kind : ListenerKind)
| foreign (id : nat).

(** [type BoundListener = { event: string; fn }] *)
Record BoundListener := { bl_event : string; bl_fn : Fn }.

#[global] Instance ListenerKind_eq_dec : EqDecision ListenerKind.
Proof. solve_decision. Defined.

#[global] Instance Fn_eq_dec : EqDecision Fn.
Proof. solve_decision. Defined.

#[global] Instance BoundListener_eq_dec : EqDecision BoundListener.
Proof. solve_decision. Defined.

Definition same_listener (l l' : BoundListener) : bool := bool_decide (l = l').

(** An [EventEmitter]: its registrations, in the order they were made. *)
Definition Emitter : Type := list BoundListener.

(** [emitter.on(event, fn)] *)
Definition emitter_on (l : BoundListener) (em : Emitter) : Emitter :=
  (em ++ [l])%list.

Fixpoint remove_first (l : BoundListener) (em : Emitter) : Emitter :=
  match em with
  | [] => []
  | l' :: rest =>
      if same_listener l l' then rest else l' :: remove_first l rest
  end.

(** [emitter.removeListener(event, fn)]: it "will remove, at most, one
    instance of a listener from the listener array", the one added last. *)
Definition removeListener (l : BoundListener) (em : Emitter) : Emitter :=
  rev (remove_first l (rev em)).

(** The functions [emitter.emit(event, ...)] calls, in order. *)
Definition listeners_for (event : string) (em : Emitter) : list Fn :=
  map bl_fn (List.filter (fun l => String.eqb (bl_event l) event) em).

(** The emitters of the controllers are kept by controller, a controller
    being named as in [currentController]; a controller that nobody
    listens to has the empty emitter. *)
Definition emitter_of (c : string) (ems : gmap string Emitter) : Emitter :=
  default [] (ems !! c).

(** The tracker with its [listeners] array; [tracked] holds the other
    fields. [attach_calls] counts the runs of [attach], which tells the
    closures of one run from those of another. *)
Record Listening := {
  tracked : ActionTracker;
  listeners : list BoundListener;
  attach_calls : nat
}.

Definition new_Listening : Listening :=
  {| tracked := new_ActionTracker; listeners := []; attach_calls := 0 |}.

Definition kinds : list ListenerKind :=
  [on_plan; on_permission; on_idle; on_message; on_spawned; on_exited].

Definition event_of (k : ListenerKind) : string :=
  match k with
  | on_plan => "plan:approval_request"
  | on_permission => "permission:request"
  | on_idle => "idle"
  | on_message => "message"
  | on_spawned => "agent:spawned"
  | on_exited => "agent:exited"
  end.

Definition bound (call : nat) (k : ListenerKind) : BoundListener :=
  {| bl_event := event_of k; bl_fn := closure call k |}.

(** [detach()] *)
Definition detach_listeners (x : Listening) (ems : gmap string Emitter)
    : Listening * gmap string Emitter :=
  ({| tracked := detach (tracked x); listeners := [];
      attach_calls := attach_calls x |},
   match currentController (tracked x) with
   | Some c =>
       <[c := fold_left (fun em l => removeListener l em) (listeners x)
                (emitter_of c ems)]> ems
   | None => ems
   end).

(** [attach(controller)] *)
Definition attach_listeners (c : string) (x : Listening) (ems : gmap string Emitter)
    : Listening * gmap string Emitter :=
  let (x1, ems1) := detach_listeners x ems in
  let made := map (bound (attach_calls x1)) kinds in
  ({| tracked := attach c (tracked x1); listeners := made;
      attach_calls := S (attach_calls x1) |},
   <[c := fold_left (fun em l => emitter_on l em) made (emitter_of c ems1)]>
     ems1).

(** [clear()] *)
Definition clear_listeners (x : Listening) (ems : gmap string Emitter)
    : Listening * gmap string Emitter :=
  let (x1, ems1) := detach_listeners x ems in
  ({| tracked := clear (tracked x1); listeners := listeners x1;
      attach_calls := attach_calls x1 |}, ems1).

Definition event_name (e : ControllerEvent) : string :=
  match e with
  | agent_spawned _ _ => "agent:spawned"
  | agent_exited _ _ => "agent:exited"
  | idle _ => "idle"
  | plan_approval_request _ _ => "plan:approval_request"
  | permission_request _ _ => "permission:request"
  | message _ _ => "message"
  end.

(** The first argument of every event is the agent. *)
Definition event_agent (e : ControllerEvent) : string :=
  match e with
  | agent_spawned a _ | agent_exited a _ | idle a
  | plan_approval_request a _ | permission_request a _ | message a _ => a
  end.

(** The call of a closure of the tracker with the arguments of an event.
    The last four listeners read the agent only; [onPlan] and
    [onPermission] read the parsed request, which only their own event
    carries ([attach] registers them for no other). *)
Definition handler (k : ListenerKind) (nowIso : string) (e : ControllerEvent)
    (t : ActionTracker) : ActionTracker :=
  match k with
  | on_plan =>
      match e with
      | plan_approval_request agent parsed => onPlan agent parsed t
      | _ => t
      end
  | on_permission =>
      match e with
      | permission_request agent parsed => onPermission agent parsed t
      | _ => t
      end
  | on_idle => onIdle nowIso (event_agent e) t
  | on_message => onMessage (event_agent e) t
  | on_spawned => onSpawned (event_agent e) t
  | on_exited => onExited (event_agent e) t
  end.

(** A closure of the tracker works on the tracker it was made by; the
    functions of others do not touch it. *)
Definition call_listener (nowIso : string) (e : ControllerEvent) (f : Fn)
    (t : ActionTracker) : ActionTracker :=
  match f with
  | closure _ k => handler k nowIso e t
  | foreign _ => t
  end.

(** [controller.emit(event, ...)], as far as the tracker is concerned. *)
Definition emit_event (c nowIso : string) (e : ControllerEvent)
    (x : Listening) (ems : gmap string Emitter) : Listening :=
  {| tracked := fold_left (fun t f => call_listener nowIso e f t)
                  (listeners_for (event_name e) (emitter_of c ems))
                  (tracked x);
     listeners := listeners x; attach_calls := attach_calls x |}.

(** What happens to a tracker and the emitters: its methods are called,
    controllers emit events, and other parts of the program register
    listeners of their own. *)
Inductive ListeningOp :=
| l_attach (controller : string)
| l_detach
| l_clear
| l_emit (controller : string) (nowIso : string) (e : ControllerEvent)
| l_other_on (controller : string) (event : string) (id : nat).

Definition listening_step (st : Listening * gmap string Emitter) (o : ListeningOp)
    : Listening * gmap string Emitter :=
  match o with
  | l_attach c => attach_listeners c (fst st) (snd st)
  | l_detach => detach_listeners (fst st) (snd st)
  | l_clear => clear_listeners (fst st) (snd st)
  | l_emit c nowIso e => (emit_event c nowIso e (fst st) (snd st), snd st)
  | l_other_on c event id =>
      (fst st,
       <[c := emitter_on {| bl_event := event; bl_fn := foreign id |}
                (emitter_of c (snd st))]> (snd st))
  end.

(** The same on the tracker without its listeners: an event reaches it
    through [deliver]. *)
Definition tracked_step (t : ActionTracker) (o : ListeningOp) : ActionTracker :=
  match o with
  | l_attach c => attach c t
  | l_detach => detach t
  | l_clear => clear t
  | l_emit c nowIso e => deliver c nowIso [e] t
  | l_other_on _ _ _ => t
  end.

Definition is_closure (l : BoundListener) : bool :=
  match bl_fn l with closure _ _ => true | foreign _ => false end.

(** The listeners of the tracker on a controller, and those of others. *)
Definition closures (c : string) (ems : gmap string Emitter) : Emitter :=
  List.filter is_closure (emitter_of c ems).

Definition foreigns (c : string) (ems : gmap string Emitter) : Emitter :=
  List.filter (fun l => negb (is_closure l)) (emitter_of c ems).

(** What others register on a controller in the course of a run. *)
Definition others_on (c : string) (ops : list ListeningOp) : Emitter :=
  flat_map (fun o =>
    match o with
    | l_other_on c' event id =>
        if String.eqb c' c
        then [{| bl_event := event; bl_fn := foreign id |}] else []
    | _ => []
    end) ops.

(** No listener of the tracker is left behind: the closures registered on
    a controller are the [listeners] of the tracker when it is attached to
    that controller, and none otherwise. *)
Definition no_leak (x : Listening) (ems : gmap string Emitter) : Prop :=
  forall c,
    closures c ems
    = if bool_decide (currentController (tracked x) = Some c)
      then listeners x else [].

(** The [listeners] array holds the six closures of the last [attach], or
    nothing when the tracker is detached. *)
Definition well_bound (x : Listening) : Prop :=
  match currentController (tracked x) with
  | Some _ => listeners x = map (bound (Nat.pred (attach_calls x))) kinds
  | None => listeners x = []
  end.

(** A run: another part of the program listens on two controllers, the
    tracker is attached to the first and hears an agent go idle, is
    attached to the second, and the first controller emits again. *)
Definition sample_listening : list ListeningOp :=
  [ l_other_on "t1" "idle" 7;
    l_attach "t1";
    l_emit "t1" "2026-01-01T00:00:00.000Z" (idle "w1");
    l_other_on "t2" "message" 8;
    l_attach "t2";
    l_emit "t1" "2026-01-01T00:00:01.000Z" (idle "w2") ].

Definition sample_listened : Listening * gmap string Emitter :=
  fold_left listening_step sample_listening (new_Listening, ∅).

(** ** Vocabulary of the further properties *)

(** What a client does to the tracker: an event of the controller reaches
    it, or one of its methods is called. *)
Inductive TrackerOp :=
| t_event (nowIso : string) (e : ControllerEvent)
| t_resolveApproval (requestId : string)
| t_registerAgentType (name type : string)
| t_attach (controller : string)
| t_detach
| t_clear.

Definition tracker_step (t : ActionTracker) (o : TrackerOp) : ActionTracker :=
  match o with
  | t_event nowIso e => tracker_on nowIso e t
  | t_resolveApproval requestId => resolveApproval requestId t
  | t_registerAgentType name type => registerAgentType name type t
  | t_attach c => attach c t
  | t_detach => detach t
  | t_clear => clear t
  end.

(** Every pending approval is filed under its own request id. *)
Definition filed_by_requestId (m : JsMap.t PendingApproval) : Prop :=
  Forall (fun kv => pa_requestId (snd kv) = fst kv) m.

Definition plan_approval (agent : string) (parsed : PlanApprovalRequestMessage)
    : PendingApproval :=
  {| pa_type := ApPlan; pa_agent := agent;
     pa_requestId := plan_requestId parsed;
     pa_timestamp := plan_timestamp parsed;
     pa_action := "POST /agents/" ++ agent ++ "/approve-plan";
     pa_planContent := plan_planContent parsed;
     pa_toolName := None; pa_description := None |}.

Definition permission_approval (agent : string)
    (parsed : PermissionRequestMessage) : PendingApproval :=
  {| pa_type := ApPermission; pa_agent := agent;
     pa_requestId := perm_requestId parsed;
     pa_timestamp := perm_timestamp parsed;
     pa_action := "POST /agents/" ++ agent ++ "/approve-permission";
     pa_planContent := None;
     pa_toolName := Some (perm_toolName parsed);
     pa_description := Some (perm_description parsed) |}.

(** The events that say the agent is active again, or gone. *)
Definition ends_idleness (agent : string) (e : ControllerEvent) : Prop :=
  match e with
  | message a _ | agent_spawned a _ | agent_exited a _ => a = agent
  | _ => False
  end.

Definition idle_entry (agent type nowIso : string) : IdleAgent :=
  {| ia_name := agent; ia_type := type; ia_idleSince := nowIso;
     ia_action := "POST /agents/" ++ agent ++ "/messages" |}.

(** What filing [approval] under [id] does to a tracker [t], giving [t']. *)
Definition files_approval (t t' : ActionTracker) (id : string)
    (approval : PendingApproval) : Prop :=
  JsMap.get id (approvals t') = Some approval
  /\ (forall other, other <> id ->
        JsMap.get other (approvals t') = JsMap.get other (approvals t))
  /\ length (getPendingApprovals t')
     = match JsMap.get id (approvals t) with
       | Some _ => length (getPendingApprovals t)
       | None => S (length (getPendingApprovals t))
       end
  /\ idles t' = idles t.

(** The answers of the error paths. *)
Definition no_session : Response :=
  {| status := 500;
     body := error_body "No active session. Call POST /session/init first." |}.

Definition bad_request (error : string) : Response :=
  {| status := 400; body := error_body error |}.

Definition conflict (error : string) : Response :=
  {| status := 409; body := error_body error |}.

(** The routes that start with [getController(state)]. *)
Definition needs_session (r : Request) : bool :=
  match r with
  | GET_health | GET_session | POST_session_init _ _ _ _ _ => false
  | _ => true
  end.

Definition invalid_name (field : string) : string :=
  field ++ " must be 1-64 alphanumeric characters, hyphens, or underscores".

(** The requests of a client, handled one after the other. *)
Definition serve (a : Api) (rs : list Request) : Api :=
  fold_left (fun a' r => fst (handle r a')) rs a.

Definition keeps_initLock {A} (m : M Api A) : Prop :=
  forall a, initLock (state (fst (m a))) = initLock (state a).

(** [AGENT_COLORS[k % AGENT_COLORS.length]] *)
Definition color_of (k : N) : string :=
  nth (N.to_nat (k mod N.of_nat (length AGENT_COLORS))) AGENT_COLORS EmptyString.

(** The members of the team of the controller, and those of one name. *)
Definition team_members (s : Sys) : list TeamMember :=
  match teams (world s) !! teamName (ctrl s) with
  | Some cfg => tc_members cfg
  | None => []
  end.

Definition members_named (name : string) (s : Sys) : list TeamMember :=
  List.filter (named name) (team_members s).

(** The process of that name is alive and its exit listener is armed. *)
Definition armed (name : string) (c : ClaudeCodeController) : bool :=
  match JsMap.get name (processes c) with
  | Some p => proc_running p && proc_onExit p
  | None => false
  end.

(** [opts?.all ? l : [l[0]]] *)
Definition all_or_first (all : bool) (l : list InboxMessage)
    : list InboxMessage :=
  if all then l else take 1 l.

Definition any_timeout_error (timeout : Z) : JsError :=
  {| err_name := Error;
     err_message := "Timeout (" ++ Z_to_string timeout
                      ++ "ms) waiting for any message" |}.

Definition sample_other_reply : InboxMessage :=
  {| msg_from := "w2"; msg_text := "w2 is done as well";
     msg_timestamp := "2026-01-01T00:00:01.500Z"; msg_summary := None |}.

Definition sample_two_senders : Sys :=
  {| ctrl := ctrl sample_ready;
     world := writeInbox "t1" "controller" sample_reply
                (writeInbox "t1" "controller" sample_other_reply
                   (world sample_ready)) |}.

(** A controller that is not initialised, and a task file of its team. *)
Definition sample_with_task : Sys :=
  {| ctrl := ctrl sample_fresh;
     world := fst (tasks_create "t1" sample_task empty_World) |}.

(** The sample controller with one agent spawned. *)
Definition sample_team : Sys := fst (spawnAgent sample_spawn sample_ready).

Definition task_not_found (id : string) : Response :=
  {| status := 404;
     body := error_body ("Task " ++ String dquote id
                           ++ String dquote " not found") |}.

(** The API over another state of the files. *)
Definition with_world (a : Api) (w : World) : Api :=
  {| state := state a; api_world := w |}.

Definition server_error (e : JsError) : Response :=
  {| status := 500; body := error_body (err_message e) |}.

Definition agent_not_found (name : string) : Response :=
  {| status := 404;
     body := error_body ("Agent " ++ String dquote name
                           ++ String dquote " not found") |}.

(** The sample session, started by the API itself. *)
Definition sample_owned_api : Api :=
  {| state := set_owned true (createApi (Some (ctrl sample_ready)) 0);
     api_world := world sample_ready |}.

(** * Properties *)

#[local] Arguments toISOString : simpl never.
#[local] Arguments Json.stringify : simpl never.
#[local] Arguments Json.parse : simpl never.
#[local] Arguments parseMessage : simpl never.
#[local] Arguments plan_approval_response_text : simpl never.
#[local] Arguments permission_response_text : simpl never.
#[local] Arguments task_assignment_text : simpl never.

(** ** JavaScript Map *)

Lemma JsMap_get_delete_eq {V} (k : string) (m : JsMap.t V) :
  JsMap.get k (JsMap.delete k m) = None.
Proof.
  induction m as [|[k' v] m IH]; simpl; [reflexivity|].
  destruct (String.eqb k k') eqn:E; simpl; [exact IH|].
  rewrite E. exact IH.
Qed.

Lemma JsMap_get_delete_ne {V} (k k' : string) (m : JsMap.t V) :
  k <> k' -> JsMap.get k' (JsMap.delete k m) = JsMap.get k' m.
Proof.
  intros Hne. induction m as [|[k0 v] m IH]; simpl; [reflexivity|].
  destruct (String.eqb_spec k k0) as [->|Hk]; simpl.
  - destruct (String.eqb_spec k' k0) as [->|_]; [congruence|exact IH].
  - destruct (String.eqb k' k0); [reflexivity|exact IH].
Qed.

Lemma JsMap_delete_keys {V} (k : string) (m : JsMap.t V) :
  JsMap.keys (JsMap.delete k m)
  = List.filter (fun k' => negb (String.eqb k k')) (JsMap.keys m).
Proof.
  induction m as [|[k' v] m IH]; simpl; [reflexivity|].
  destruct (String.eqb k k'); simpl; [exact IH|]. f_equal. exact IH.
Qed.

Lemma elem_of_List_filter {A} (f : A -> bool) (x : A) (l : list A) :
  x ∈ List.filter f l <-> x ∈ l /\ f x = true.
Proof. rewrite !list_elem_of_In. apply List.filter_In. Qed.

Lemma NoDup_List_filter {A} (f : A -> bool) (l : list A) :
  NoDup l -> NoDup (List.filter f l).
Proof.
  induction 1 as [|x l Hx Hl IH]; simpl; [constructor|].
  destruct (f x); [|exact IH].
  constructor; [|exact IH].
  rewrite elem_of_List_filter. tauto.
Qed.

Lemma JsMap_wf_delete {V} (k : string) (m : JsMap.t V) :
  JsMap.wf m -> JsMap.wf (JsMap.delete k m).
Proof.
  unfold JsMap.wf. rewrite JsMap_delete_keys. apply NoDup_List_filter.
Qed.

Lemma JsMap_set_keys {V} (k : string) (v : V) (m : JsMap.t V) :
  JsMap.keys (JsMap.set k v m)
  = if existsb (String.eqb k) (JsMap.keys m) then JsMap.keys m
    else (JsMap.keys m ++ [k])%list.
Proof.
  induction m as [|[k' v'] m IH]; simpl; [reflexivity|].
  destruct (String.eqb k k'); simpl; [reflexivity|].
  rewrite IH. destruct (existsb (String.eqb k) (JsMap.keys m)); reflexivity.
Qed.

Lemma JsMap_wf_set {V} (k : string) (v : V) (m : JsMap.t V) :
  JsMap.wf m -> JsMap.wf (JsMap.set k v m).
Proof.
  unfold JsMap.wf. rewrite JsMap_set_keys. intros Hm.
  destruct (existsb (String.eqb k) (JsMap.keys m)) eqn:E; [exact Hm|].
  apply NoDup_app. split_and!.
  - exact Hm.
  - intros x Hx Hk. apply list_elem_of_singleton in Hk. subst x.
    apply list_elem_of_In in Hx.
    assert (existsb (String.eqb k) (JsMap.keys m) = true) as Habs.
    { apply existsb_exists. exists k. split; [exact Hx|apply String.eqb_refl]. }
    congruence.
  - apply NoDup_singleton.
Qed.

Lemma JsMap_get_set_eq {V} (k : string) (v : V) (m : JsMap.t V) :
  JsMap.get k (JsMap.set k v m) = Some v.
Proof.
  induction m as [|[k' v'] m IH]; simpl.
  - by rewrite String.eqb_refl.
  - destruct (String.eqb k k') eqn:E; simpl; rewrite E; [reflexivity|exact IH].
Qed.

Lemma JsMap_get_filter {V} (f : string * V -> bool) (k : string) (v : V)
    (m : JsMap.t V) :
  JsMap.get k m = Some v -> f (k, v) = true ->
  JsMap.get k (List.filter f m) = Some v.
Proof.
  induction m as [|[k' v'] m IH]; simpl; [discriminate|].
  destruct (String.eqb_spec k k') as [->|Hne]; intros Hget Hf.
  - injection Hget as ->. rewrite Hf. simpl. by rewrite String.eqb_refl.
  - destruct (f (k', v')); simpl; [|by apply IH].
    destruct (String.eqb_spec k k'); [congruence|by apply IH].
Qed.

Lemma JsMap_wf_entry_unique {V} (m : JsMap.t V) (e1 e2 : string * V) :
  JsMap.wf m -> In e1 m -> In e2 m -> fst e1 = fst e2 -> e1 = e2.
Proof.
  unfold JsMap.wf. induction m as [|e m IH]; simpl; [tauto|].
  intros Hnd H1 H2 Hk. apply NoDup_cons in Hnd as [Hnotin Hnd].
  assert (forall x, In x m -> fst x = fst e -> False) as Hfresh.
  { intros x Hx Hfx. apply Hnotin. rewrite <- Hfx.
    apply list_elem_of_In. by apply in_map. }
  destruct H1 as [<-|H1], H2 as [<-|H2]; auto.
  - exfalso. by eapply Hfresh.
  - exfalso. by eapply Hfresh.
Qed.

Lemma JsMap_wf_filter {V} (f : string * V -> bool) (m : JsMap.t V) :
  JsMap.wf m -> JsMap.wf (List.filter f m).
Proof.
  unfold JsMap.wf. induction m as [|e m IH]; simpl; [auto|].
  intros Hnd. apply NoDup_cons in Hnd as [Hnotin Hnd].
  destruct (f e); simpl; [|by apply IH].
  apply NoDup_cons. split; [|by apply IH].
  intros Hin. apply Hnotin. apply list_elem_of_In in Hin.
  apply in_map_iff in Hin as (x & Hx & Hxin).
  apply List.filter_In in Hxin as [Hxin _].
  apply list_elem_of_In. rewrite <- Hx. by apply in_map.
Qed.

(** ** Action tracker *)

Lemma purge_fold (agent : string) (l acc : JsMap.t PendingApproval) :
  fold_left
    (fun acc entry =>
       if String.eqb (pa_agent (snd entry)) agent
       then JsMap.delete (fst entry) acc
       else acc)
    l acc
  = List.filter
      (fun kv => negb (existsb
         (fun e => String.eqb (pa_agent (snd e)) agent
                   && String.eqb (fst e) (fst kv)) l))
      acc.
Proof.
  revert acc. induction l as [|e l IH]; intros acc; simpl.
  - induction acc as [|x acc IHacc]; simpl; [reflexivity|]. by f_equal.
  - rewrite IH. destruct (String.eqb (pa_agent (snd e)) agent); simpl.
    + unfold JsMap.delete.
      induction acc as [|x acc IHacc]; simpl; [reflexivity|].
      destruct (String.eqb (fst e) (fst x)); simpl; [exact IHacc|].
      destruct (existsb _ l); simpl; [exact IHacc|by f_equal].
    + reflexivity.
Qed.

Lemma purge_agent_filter (agent : string) (m : JsMap.t PendingApproval) :
  JsMap.wf m ->
  purge_agent agent m
  = List.filter (fun kv => negb (String.eqb (pa_agent (snd kv)) agent)) m.
Proof.
  intros Hwf. unfold purge_agent. rewrite purge_fold.
  apply List.filter_ext_in. intros kv Hkv. f_equal.
  destruct (String.eqb (pa_agent (snd kv)) agent) eqn:E.
  - apply existsb_exists. exists kv. by rewrite E, String.eqb_refl.
  - apply not_true_is_false. intros Hex.
    apply existsb_exists in Hex as (e & He & Hmatch).
    apply andb_true_iff in Hmatch as [Ha Hk].
    apply String.eqb_eq in Hk.
    assert (e = kv) as -> by (by eapply JsMap_wf_entry_unique).
    congruence.
Qed.

Lemma tracker_on_wf (nowIso : string) (e : ControllerEvent) (t : ActionTracker) :
  JsMap.wf (approvals t) -> JsMap.wf (approvals (tracker_on nowIso e t)).
Proof.
  intros Hwf. destruct e; simpl; auto using JsMap_wf_set.
  unfold purge_agent. rewrite purge_fold. by apply JsMap_wf_filter.
Qed.

(** C6. When the controller emits [agent:exited] for an agent [A], the
    tracker drops every pending approval whose agent is [A] and the idle
    entry of [A]; the pending approvals of every other agent stay as they
    were, in the same order and under the same request ids. *)
Theorem C6_agent_exited_purges_only_its_approvals
    (t : ActionTracker) (A nowIso : string) (code : option Z) :
  JsMap.wf (approvals t) ->
  let t' := tracker_on nowIso (agent_exited A code) t in
  getPendingApprovals t'
    = List.filter (fun p => negb (String.eqb (pa_agent p) A))
        (getPendingApprovals t)
  /\ (forall p, In p (getPendingApprovals t') -> pa_agent p <> A)
  /\ (forall id p, JsMap.get id (approvals t) = Some p -> pa_agent p <> A ->
        JsMap.get id (approvals t') = Some p)
  /\ JsMap.get A (idles t') = None.
Proof.
  intros Hwf t'.
  assert (approvals t'
          = List.filter (fun kv => negb (String.eqb (pa_agent (snd kv)) A))
              (approvals t)) as Happ.
  { subst t'. simpl. by rewrite purge_agent_filter. }
  assert (getPendingApprovals t'
          = List.filter (fun p => negb (String.eqb (pa_agent p) A))
              (getPendingApprovals t)) as Hsnap.
  { unfold getPendingApprovals, JsMap.values. rewrite Happ.
    generalize (approvals t) as m. induction m as [|kv m IH]; simpl; [done|].
    destruct (String.eqb (pa_agent (snd kv)) A); simpl; by f_equal. }
  split_and!.
  - exact Hsnap.
  - intros p Hp. rewrite Hsnap in Hp. apply List.filter_In in Hp as [_ Hp].
    apply negb_true_iff in Hp. by apply String.eqb_neq.
  - intros id p Hget Hne. rewrite Happ. apply JsMap_get_filter; [done|].
    simpl. apply negb_true_iff. by apply String.eqb_neq.
  - subst t'. simpl. apply JsMap_get_delete_eq.
Qed.

Lemma C6_witness :
  JsMap.wf (approvals sample_tracker)
  /\ getPendingApprovals
       (tracker_on EmptyString (agent_exited "deadagent" (Some 1)) sample_tracker)
     = List.filter (fun p => negb (String.eqb (pa_agent p) "deadagent"))
         (getPendingApprovals sample_tracker).
Proof.
  assert (JsMap.wf (approvals sample_tracker)) as Hwf.
  { apply (bool_decide_unpack _). vm_compute. exact I. }
  split; [exact Hwf|].
  exact (proj1 (C6_agent_exited_purges_only_its_approvals
                  sample_tracker "deadagent" EmptyString (Some 1) Hwf)).
Defined.

(** ** JSON: what [JSON.stringify] writes, [JSON.parse] reads back *)

Lemma append_assoc (a b c : string) : ((a ++ b) ++ c = a ++ (b ++ c))%string.
Proof. induction a as [|x a IH]; simpl; [reflexivity|]. by rewrite IH. Qed.

Lemma length_append (a b : string) :
  String.length (a ++ b) = (String.length a + String.length b)%nat.
Proof. induction a as [|x a IH]; simpl; [reflexivity|]. by rewrite IH. Qed.

Lemma substring_all (s : string) : String.substring 0 (String.length s) s = s.
Proof. induction s as [|x s IH]; simpl; [reflexivity|]. by rewrite IH. Qed.

Lemma parse_chars_escape_char (c : ascii) (tail : string) :
  Json.parse_chars (Json.escape_char c ++ tail)
  = Json.push (piece_of c) (Json.parse_chars tail).
Proof. destruct c as [[] [] [] [] [] [] [] []]; reflexivity. Qed.

Lemma parse_chars_escape (s rest : string) :
  Json.parse_chars (Json.escape s ++ String dquote rest)
  = Some (map piece_of (list_ascii_of_string s), rest).
Proof.
  induction s as [|c s IH]; [reflexivity|].
  cbn [Json.escape list_ascii_of_string map].
  by rewrite append_assoc, parse_chars_escape_char, IH.
Qed.

Lemma decode_piece_of (c : ascii) (ps : list Json.piece) :
  Json.decode_pieces (piece_of c :: ps) = String c (Json.decode_pieces ps).
Proof.
  destruct c as [[] [] [] [] [] [] [] []];
    try reflexivity; destruct ps as [|[] ps]; reflexivity.
Qed.

Lemma decode_pieces_of (l : list ascii) :
  Json.decode_pieces (map piece_of l) = string_of_list_ascii l.
Proof.
  induction l as [|c l IH]; [reflexivity|].
  cbn [map string_of_list_ascii]. by rewrite decode_piece_of, IH.
Qed.

Lemma parse_string_quote (s rest : string) :
  Json.parse_string (Json.escape s ++ String dquote rest) = Some (s, rest).
Proof.
  unfold Json.parse_string. rewrite parse_chars_escape, decode_pieces_of.
  by rewrite string_of_list_ascii_of_string.
Qed.

Lemma prefix_nil_substring (rest : string) :
  (if String.prefix EmptyString rest
   then Some (String.substring 0 (String.length rest - 0) rest)
   else None) = Some rest.
Proof.
  rewrite Nat.sub_0_r, substring_all. by destruct rest.
Qed.

Lemma parse_value_flat (f : nat) (v : Json.json) (rest : string) :
  flat v ->
  Json.parse_value (S f) (Json.stringify v ++ rest) = Some (v, rest).
Proof.
  destruct v as [ |[]| |s| | ]; simpl; try tauto; intros _.
  - unfold Json.strip_prefix. simpl. by rewrite prefix_nil_substring.
  - unfold Json.strip_prefix. simpl. by rewrite prefix_nil_substring.
  - rewrite append_assoc. simpl. by rewrite parse_string_quote.
Qed.

Lemma parse_members_key (f : nat) (k r1 : string) :
  Json.parse_members (S f) (Json.quote k ++ String ":" r1)
  = match Json.parse_value f r1 with
    | Some (v, r3) =>
        match Json.skip_ws r3 with
        | String "," r4 =>
            match Json.parse_members f r4 with
            | Some (ms, r5) => Some ((k, v) :: ms, r5)
            | None => None
            end
        | String "}" r4 => Some ([(k, v)], r4)
        | _ => None
        end
    | None => None
    end.
Proof.
  unfold Json.quote. simpl. rewrite append_assoc. simpl.
  by rewrite parse_string_quote.
Qed.

Lemma member_text_append (k : string) (v : Json.json) (tail : string) :
  member_text (k, v) ++ tail
  = Json.quote k ++ String ":" (Json.stringify v ++ tail).
Proof. unfold member_text. by rewrite !append_assoc. Qed.

(** The members of an object of strings and booleans are read back, up to
    the closing brace. *)
Lemma parse_members_flat (ms : list (string * Json.json)) :
  forall (f : nat) (rest : string),
    ms <> [] -> Forall (fun kv => flat (snd kv)) ms -> (length ms <= f)%nat ->
    Json.parse_members (S f)
      (String.concat "," (map member_text ms) ++ String "}" rest)
    = Some (ms, rest).
Proof.
  induction ms as [|[k v] ms IH]; intros f rest Hne Hflat Hlen; [done|].
  apply Forall_cons in Hflat as [Hv Hflat]. simpl in Hv, Hlen.
  destruct f as [|f]; [lia|].
  destruct ms as [|kv' ms].
  - cbn [map String.concat]. rewrite member_text_append, parse_members_key.
    by rewrite parse_value_flat.
  - cbn [map String.concat] in *.
    rewrite append_assoc, member_text_append, parse_members_key.
    rewrite parse_value_flat by done. rewrite append_assoc. simpl Json.skip_ws.
    cbv iota beta.
    rewrite IH; [done|done|done|simpl in *; lia].
Qed.

Lemma stringify_object (ms : list (string * Json.json)) :
  Json.stringify (Json.JObj ms)
  = String "{" (String.concat "," (map member_text ms) ++ "}").
Proof. reflexivity. Qed.

Lemma members_text_head (ms : list (string * Json.json)) (tail : string) :
  ms <> [] ->
  exists r, String.concat "," (map member_text ms) ++ tail = String dquote r.
Proof.
  destruct ms as [|[k v] [|kv' ms]]; [done| |]; intros _;
    cbn [map String.concat]; unfold member_text at 1, Json.quote; simpl; eauto.
Qed.

Lemma members_text_length (ms : list (string * Json.json)) :
  (length ms <= String.length (String.concat "," (map member_text ms)))%nat.
Proof.
  induction ms as [|[k v] ms IH]; [simpl; lia|].
  destruct ms as [|kv' ms].
  - cbn [map String.concat]. unfold member_text, Json.quote. simpl. lia.
  - cbn [map String.concat] in *. rewrite !length_append.
    unfold member_text at 1, Json.quote. simpl in *. lia.
Qed.

(** [JSON.parse(JSON.stringify(o)) = o] for an object [o] of strings and
    booleans. *)
Lemma parse_value_object (f : nat) (r : string) :
  Json.parse_value (S f) (String "{" (String dquote r))
  = match Json.parse_members f (String dquote r) with
    | Some (ms, r') => Some (Json.JObj ms, r')
    | None => None
    end.
Proof. reflexivity. Qed.

(** [JSON.parse(JSON.stringify(o)) = o] for an object [o] of strings and
    booleans. *)
Lemma parse_stringify_flat (ms : list (string * Json.json)) :
  ms <> [] -> Forall (fun kv => flat (snd kv)) ms ->
  Json.parse (Json.stringify (Json.JObj ms)) = Some (Json.JObj ms).
Proof.
  intros Hne Hflat. rewrite stringify_object. unfold Json.parse.
  cbn [String.length].
  set (body := String.concat "," (map member_text ms)).
  assert (Json.parse_value (S (S (String.length (body ++ "}"))))
            (String "{" (body ++ "}")) = Some (Json.JObj ms, EmptyString)) as ->.
  { pose proof (members_text_length ms) as Hlen. fold body in Hlen.
    assert (length ms <= String.length (body ++ "}"))%nat as Hfuel
      by (rewrite length_append; lia).
    destruct (members_text_head ms "}" Hne) as [r Hr]. fold body in Hr.
    remember (String.length (body ++ "}")) as fuel eqn:Hf. clear Hf.
    rewrite Hr, parse_value_object, <- Hr. subst body.
    by rewrite parse_members_flat. }
  reflexivity.
Qed.

(** ** The controller: lifecycle *)

Lemma ensureInitialized_false (s : Sys) :
  initialized (ctrl s) = false ->
  ensureInitialized s = (s, inl not_initialized_error).
Proof. intros H. unfold ensureInitialized, bind, gets. by rewrite H. Qed.

Lemma ensureInitialized_true (s : Sys) :
  initialized (ctrl s) = true -> ensureInitialized s = (s, inr tt).
Proof. intros H. unfold ensureInitialized, bind, gets. by rewrite H. Qed.

Lemma init_noop (s : Sys) :
  initialized (ctrl s) = true -> init s = (s, inr (ctrl s)).
Proof. intros H. unfold init, bind, gets. by rewrite H. Qed.

Lemma init_sets_flag (s s1 : Sys) (c1 : ClaudeCodeController) :
  init s = (s1, inr c1) -> initialized (ctrl s1) = true /\ c1 = ctrl s1.
Proof.
  destruct (initialized (ctrl s)) eqn:E.
  - rewrite init_noop by done. intros [= <- <-]. done.
  - unfold init, bind, gets, onWorld, team_create, bind, gets. rewrite E.
    destruct (teams (world s) !! teamName (ctrl s)); simpl; [discriminate|].
    intros [= <- <-]. done.
Qed.

(** C7. [init()] is idempotent: once a call has succeeded, a second call
    changes nothing (no team namespace is created, the task ledger and the
    poller are left alone) and returns the same controller instance. *)
Theorem C7_init_twice_is_noop (s s1 : Sys) (c1 : ClaudeCodeController) :
  init s = (s1, inr c1) ->
  init s1 = (s1, inr c1).
Proof.
  intros H. apply init_sets_flag in H as [Hflag ->]. by apply init_noop.
Qed.

Lemma C7_witness :
  init sample_fresh = (sample_ready, inr (ctrl sample_ready))
  /\ init sample_ready = (sample_ready, inr (ctrl sample_ready)).
Proof.
  assert (init sample_fresh = (sample_ready, inr (ctrl sample_ready))) as H
    by (vm_compute; reflexivity).
  split; [exact H|].
  exact (C7_init_twice_is_noop sample_fresh sample_ready (ctrl sample_ready) H).
Defined.

Lemma never_throws_bind {St A B} (m : M St A) (k : A -> M St B) :
  never_throws m -> (forall a, never_throws (k a)) -> never_throws (bind m k).
Proof.
  intros Hm Hk s. destruct (Hm s) as (s1 & a & E).
  destruct (Hk a s1) as (s2 & b & E2).
  exists s2, b. unfold bind. by rewrite E, E2.
Qed.

Lemma never_throws_forM {St A} (l : list A) (f : A -> M St unit) :
  (forall x, never_throws (f x)) -> never_throws (forM l f).
Proof.
  intros Hf. induction l as [|x l IH]; simpl.
  - intros s. by exists s, tt.
  - apply never_throws_bind; [apply Hf|]. intros _. exact IH.
Qed.

Lemma never_throws_try_catch {St A} (m : M St A) (a : A) :
  never_throws (try_catch m (fun _ => ret a)).
Proof.
  intros s. unfold try_catch. destruct (m s) as [s' [e|x]]; eauto.
Qed.

Lemma never_throws_gets {St A} (f : St -> A) : never_throws (gets f).
Proof. intros s. by exists s, (f s). Qed.

Lemma never_throws_modify {St} (f : St -> St) : never_throws (modify f).
Proof. intros s. by exists (f s), tt. Qed.

Lemma never_throws_onWorld {A} (m : M World A) :
  never_throws m -> never_throws (onWorld m).
Proof.
  intros Hm s. destruct (Hm (world s)) as (w' & a & E).
  exists {| ctrl := ctrl s; world := w' |}, a. unfold onWorld. by rewrite E.
Qed.

Lemma never_throws_process_exit (name : string) (code : option Z) :
  never_throws (process_exit name code).
Proof.
  intros s. unfold process_exit, bind, gets, update_ctrl, modify, emit, ret.
  destruct (JsMap.get name (processes (ctrl s))) as [p|]; [|eauto].
  destruct (proc_running p); [|eauto].
  destruct (proc_onExit p); eauto.
Qed.

Lemma ends_uninitialized_bind {A} (m : M Sys A) (k : A -> M Sys unit) :
  never_throws m -> (forall a, ends_uninitialized (k a)) ->
  ends_uninitialized (bind m k).
Proof.
  intros Hm Hk s. destruct (Hm s) as (s1 & a & E).
  destruct (Hk a s1) as (s2 & E2 & Hflag).
  exists s2. unfold bind. by rewrite E, E2.
Qed.

Lemma shutdown_clears_flag (exits : list (string * option Z)) (waited : N) :
  ends_uninitialized (shutdown exits waited).
Proof.
  unfold shutdown.
  apply ends_uninitialized_bind; [apply never_throws_gets|]. intros running.
  apply ends_uninitialized_bind.
  { apply never_throws_forM. intros x. apply never_throws_try_catch. }
  intros _. apply ends_uninitialized_bind.
  { apply never_throws_forM. intros x. apply never_throws_process_exit. }
  intros _. apply ends_uninitialized_bind.
  { apply never_throws_onWorld, never_throws_modify. }
  intros _. apply ends_uninitialized_bind.
  { unfold processes_killAll. apply never_throws_bind; [apply never_throws_gets|].
    intros names. apply never_throws_forM. intros x.
    apply never_throws_process_exit. }
  intros _. apply ends_uninitialized_bind; [apply never_throws_modify|].
  intros _. apply ends_uninitialized_bind; [apply never_throws_gets|].
  intros c. apply ends_uninitialized_bind.
  { apply never_throws_onWorld, never_throws_modify. }
  intros _ s. eexists. split; reflexivity.
Qed.

(** C9. On a controller that is not initialized, [spawnAgent], [send],
    [broadcast] and [createTask] throw "Controller not initialized. Call
    init() first." and leave the controller and the world (registry,
    mailboxes, ledger) as they were. A controller is in that state when it
    was just constructed and when [shutdown()] has returned. *)
Theorem C9_calls_before_init_throw (s : Sys) :
  initialized (ctrl s) = false ->
  (forall opts, spawnAgent opts s = (s, inl not_initialized_error))
  /\ (forall agent msg summary,
        send agent msg summary s = (s, inl not_initialized_error))
  /\ (forall msg summary, broadcast msg summary s = (s, inl not_initialized_error))
  /\ (forall task, createTask task s = (s, inl not_initialized_error))
  /\ (forall opts uuid process_cwd,
        initialized (new_ClaudeCodeController opts uuid process_cwd) = false)
  /\ (forall exits waited s0, exists s',
        shutdown exits waited s0 = (s', inr tt)
        /\ initialized (ctrl s') = false).
Proof.
  intros H. split_and!.
  - intros opts. unfold spawnAgent, bind.
    by rewrite ensureInitialized_false.
  - intros agent msg summary. unfold send, bind.
    by rewrite ensureInitialized_false.
  - intros msg summary. unfold broadcast, bind.
    by rewrite ensureInitialized_false.
  - intros task. unfold createTask, bind.
    by rewrite ensureInitialized_false.
  - reflexivity.
  - intros exits waited s0. apply shutdown_clears_flag.
Qed.

Lemma C9_witness :
  initialized (ctrl sample_fresh) = false
  /\ createTask
       {| ti_subject := "Fix bug"; ti_description := "Fix the login bug";
          ti_activeForm := None; ti_owner := Some "w1"; ti_status := None;
          ti_blocks := None; ti_blockedBy := None; ti_metadata := None |}
       sample_fresh
     = (sample_fresh, inl not_initialized_error).
Proof.
  split; [reflexivity|].
  apply (C9_calls_before_init_throw sample_fresh eq_refl).
Defined.

(** ** The controller: spawning *)

Lemma merge_env_lookup (defaults : gmap string string)
    (overrides : option (gmap string string)) (k : string) :
  env_lookup (merge_env defaults overrides) k
  = match default ∅ overrides !! k with
    | Some v => Some v
    | None => defaults !! k
    end.
Proof.
  unfold merge_env.
  destruct ((0 <? size defaults)%nat || bool_decide (is_Some overrides)) eqn:E;
    simpl.
  - rewrite lookup_union.
    destruct (default ∅ overrides !! k), (defaults !! k); reflexivity.
  - apply orb_false_iff in E as [Hsize Hnone].
    apply Nat.ltb_ge in Hsize.
    assert (defaults = ∅) as -> by (apply map_size_empty_iff; lia).
    apply bool_decide_eq_false in Hnone.
    destruct overrides as [o|]; [exfalso; apply Hnone; eauto|].
    simpl. by rewrite !lookup_empty.
Qed.

Lemma spawnAgent_launches (opts : SpawnAgentOptions) (s : Sys) :
  initialized (ctrl s) = true ->
  is_Some (teams (world s) !! teamName (ctrl s)) ->
  isRunning (so_name opts) (ctrl s) = false ->
  exists s' h p,
    spawnAgent opts s = (s', inr h)
    /\ JsMap.get (so_name opts) (processes (ctrl s')) = Some p
    /\ proc_running p = true
    /\ sp_env (proc_spec p) = merge_env (defaultEnv (ctrl s)) (so_env opts).
Proof.
  intros Hinit [cfg Hcfg] Hrun.
  unfold spawnAgent, bind. rewrite ensureInitialized_true by done.
  unfold gets, update_ctrl, modify, Date_now, onWorld, team_addMember,
    team_getConfig, bind, gets, modify, ret. simpl. rewrite Hcfg. simpl.
  unfold processes_spawn, bind, gets, isRunning. simpl.
  unfold isRunning in Hrun. 
  destruct (JsMap.get (so_name opts) (processes (ctrl s))) as [p0|] eqn:Hget.
  - rewrite Hrun. simpl. unfold processes_onExit, update_ctrl, modify. simpl.
    do 3 eexists. split; [reflexivity|]. unfold set_processes. simpl.
    rewrite JsMap_get_set_eq. rewrite JsMap_get_set_eq. done.
  - simpl. unfold processes_onExit, update_ctrl, modify. simpl.
    do 3 eexists. split; [reflexivity|]. unfold set_processes. simpl.
    rewrite JsMap_get_set_eq. rewrite JsMap_get_set_eq. done.
Qed.

(** C8. [spawnAgent] launches the agent process with the environment that
    merges the controller-wide defaults with the per-spawn variables: a
    variable given per spawn has the per-spawn value, also when the
    defaults name it too; a variable only the defaults name keeps its
    default value; and the environment holds nothing else. *)
Theorem C8_spawn_environment_merges_defaults_and_overrides
    (opts : SpawnAgentOptions) (s : Sys) :
  initialized (ctrl s) = true ->
  is_Some (teams (world s) !! teamName (ctrl s)) ->
  isRunning (so_name opts) (ctrl s) = false ->
  exists s' h p,
    spawnAgent opts s = (s', inr h)
    /\ JsMap.get (so_name opts) (processes (ctrl s')) = Some p
    /\ proc_running p = true
    /\ (forall k v, default ∅ (so_env opts) !! k = Some v ->
          env_lookup (sp_env (proc_spec p)) k = Some v)
    /\ (forall k v, defaultEnv (ctrl s) !! k = Some v ->
          default ∅ (so_env opts) !! k = None ->
          env_lookup (sp_env (proc_spec p)) k = Some v)
    /\ (forall k v, env_lookup (sp_env (proc_spec p)) k = Some v ->
          default ∅ (so_env opts) !! k = Some v
          \/ defaultEnv (ctrl s) !! k = Some v).
Proof.
  intros Hinit Hteam Hrun.
  destruct (spawnAgent_launches opts s Hinit Hteam Hrun)
    as (s' & h & p & Hspawn & Hget & Hlive & Henv).
  exists s', h, p. rewrite Henv. split_and!; try done.
  - intros k v Hk. by rewrite merge_env_lookup, Hk.
  - intros k v Hd Hk. by rewrite merge_env_lookup, Hk.
  - intros k v. rewrite merge_env_lookup.
    destruct (default ∅ (so_env opts) !! k); auto.
Qed.

Lemma C8_witness :
  initialized (ctrl sample_ready) = true
  /\ is_Some (teams (world sample_ready) !! teamName (ctrl sample_ready))
  /\ isRunning (so_name sample_spawn) (ctrl sample_ready) = false
  /\ exists s' h p,
       spawnAgent sample_spawn sample_ready = (s', inr h)
       /\ JsMap.get "w1" (processes (ctrl s')) = Some p
       /\ env_lookup (sp_env (proc_spec p)) "API_KEY" = Some "per-agent-key"
       /\ env_lookup (sp_env (proc_spec p)) "REGION" = Some "eu".
Proof.
  assert (initialized (ctrl sample_ready) = true) as H1 by reflexivity.
  assert (is_Some (teams (world sample_ready) !! teamName (ctrl sample_ready)))
    as H2 by (eexists; vm_compute; reflexivity).
  assert (isRunning (so_name sample_spawn) (ctrl sample_ready) = false)
    as H3 by reflexivity.
  split_and!; [exact H1|exact H2|exact H3|].
  destruct (C8_spawn_environment_merges_defaults_and_overrides
              sample_spawn sample_ready H1 H2 H3)
    as (s' & h & p & Hspawn & Hget & _ & Hover & Hdef & _).
  exists s', h, p. split_and!; [exact Hspawn|exact Hget| |].
  - apply Hover. vm_compute. reflexivity.
  - apply Hdef; vm_compute; reflexivity.
Defined.

(** ** Mailboxes *)

Lemma readInbox_writeInbox_eq (team agent : string) (m : InboxMessage)
    (w : World) :
  readInbox team agent (writeInbox team agent m w)
  = (readInbox team agent w ++ [m])%list.
Proof.
  unfold readInbox, writeInbox, mailbox. simpl. by rewrite lookup_insert_eq.
Qed.

Lemma readInbox_writeInbox_ne (team agent team' agent' : string)
    (m : InboxMessage) (w : World) :
  (team, agent) <> (team', agent') ->
  readInbox team' agent' (writeInbox team agent m w) = readInbox team' agent' w.
Proof.
  intros Hne. unfold readInbox, writeInbox, mailbox. simpl.
  by rewrite lookup_insert_ne.
Qed.

Lemma send_initialized (agent msg : string) (summary : option string) (s : Sys) :
  initialized (ctrl s) = true ->
  send agent msg summary s
  = ({| ctrl := ctrl s;
        world := writeInbox (teamName (ctrl s)) agent
                   {| msg_from := "controller"; msg_text := msg;
                      msg_timestamp := toISOString (now (world s));
                      msg_summary := summary |} (world s) |}, inr tt).
Proof.
  intros H. unfold send, bind. by rewrite ensureInitialized_true.
Qed.

(** ** Decimal identifiers *)

Lemma N_to_string_inj (n m : N) : N_to_string n = N_to_string m -> n = m.
Proof.
  unfold N_to_string. intros H. apply DecimalN.Unsigned.to_uint_inj.
  assert (Some (N.to_uint n) = Some (N.to_uint m)) as [=]; [|done].
  by rewrite <- !NilEmpty.usu, H.
Qed.

(** ** The controller: tasks *)

Lemma find_fresh_record (id : string) (file : TaskFile) (rs : list TaskFile) :
  Forall (fun t => task_id t <> id) rs -> task_id file = id ->
  find (has_id id) (rs ++ [file])%list = Some file.
Proof.
  intros Hrs Hfile. induction Hrs as [|t rs Ht _ IH]; simpl.
  - unfold has_id. rewrite Hfile. by rewrite String.eqb_refl.
  - unfold has_id at 1. by destruct (String.eqb_spec (task_id t) id).
Qed.

Lemma ledger_wf_fresh (l : Ledger) :
  ledger_wf l ->
  Forall (fun t => task_id t <> N_to_string (next_id l)) (records l).
Proof.
  unfold ledger_wf. intros H. eapply Forall_impl; [exact H|].
  intros t (n & Hid & Hlt) Heq. rewrite Hid in Heq.
  apply N_to_string_inj in Heq. lia.
Qed.

Lemma parseMessage_task_assignment (sender id subject description iso ts : string)
    (summary : option string) :
  parseMessage
    {| msg_from := sender;
       msg_text := task_assignment_text id subject description iso;
       msg_timestamp := ts; msg_summary := summary |}
  = Protocol "task_assignment"
      [ ("type", Json.JStr "task_assignment");
        ("taskId", Json.JStr id);
        ("subject", Json.JStr subject);
        ("description", Json.JStr description);
        ("assignedBy", Json.JStr "controller");
        ("timestamp", Json.JStr iso) ].
Proof.
  unfold parseMessage, task_assignment_text. cbn [msg_text].
  rewrite parse_stringify_flat; [reflexivity|discriminate|].
  repeat constructor.
Qed.

Lemma createTask_initialized (task : TaskInput) (s : Sys) :
  initialized (ctrl s) = true ->
  ledger_wf (ledger (teamName (ctrl s)) (world s)) ->
  let team := teamName (ctrl s) in
  let l := ledger team (world s) in
  let id := N_to_string (next_id l) in
  let file :=
    {| task_id := id; task_subject := ti_subject task;
       task_description := ti_description task;
       task_activeForm := ti_activeForm task;
       task_status := default pending (ti_status task);
       task_owner := ti_owner task;
       task_blocks := default [] (ti_blocks task);
       task_blockedBy := default [] (ti_blockedBy task);
       task_metadata := ti_metadata task |} in
  let w1 := set_ledgers
              <[team := {| next_id := N.succ (next_id l);
                           records := (records l ++ [file])%list |}]>
              (world s) in
  createTask task s
  = ({| ctrl := ctrl s;
        world :=
          if truthy (ti_owner task)
          then writeInbox team (default EmptyString (ti_owner task))
                 {| msg_from := "controller";
                    msg_text := task_assignment_text id (ti_subject task)
                                  (ti_description task)
                                  (toISOString (now (world s)));
                    msg_timestamp := toISOString (now (world s));
                    msg_summary := None |} w1
          else w1 |}, inr id).
Proof.
  intros Hinit Hwf team l id file w1.
  unfold createTask, bind. rewrite ensureInitialized_true by done.
  unfold gets, onWorld, tasks_create, bind, gets, modify, ret. simpl.
  fold team l id file w1.
  destruct (truthy (ti_owner task)); [|reflexivity].
  unfold tasks_get, bind, gets, ledger. simpl. rewrite lookup_insert_eq. simpl.
  rewrite (find_fresh_record id file); [|by apply ledger_wf_fresh|done].
  unfold ret, Date_now, gets. simpl.
  rewrite send_initialized by done. reflexivity.
Qed.

(** C5. [createTask] with an owner appends exactly one envelope to the
    mailbox of that owner and changes no other mailbox; the text of the
    envelope parses back as a [task_assignment] message that carries the
    identifier of the created task and its subject. Without an owner no
    mailbox changes. *)
Theorem C5_createTask_sends_one_assignment_to_the_owner
    (task : TaskInput) (s : Sys) :
  initialized (ctrl s) = true ->
  ledger_wf (ledger (teamName (ctrl s)) (world s)) ->
  exists s' id,
    createTask task s = (s', inr id)
    /\ (forall owner, ti_owner task = Some owner -> owner <> EmptyString ->
          exists envelope members,
            readInbox (teamName (ctrl s)) owner (world s')
            = (readInbox (teamName (ctrl s)) owner (world s) ++ [envelope])%list
            /\ (forall key, key <> (teamName (ctrl s), owner) ->
                  inboxes (world s') !! key = inboxes (world s) !! key)
            /\ parseMessage envelope = Protocol "task_assignment" members
            /\ Json.field "taskId" members = Some (Json.JStr id)
            /\ Json.field "subject" members = Some (Json.JStr (ti_subject task)))
    /\ (truthy (ti_owner task) = false ->
          inboxes (world s') = inboxes (world s)).
Proof.
  intros Hinit Hwf. do 2 eexists. split; [by apply createTask_initialized|].
  cbn [world]. split.
  - intros owner Howner Hne. rewrite Howner. cbn [truthy default].
    destruct (String.eqb_spec owner EmptyString) as [|_]; [done|].
    cbn [negb]. do 2 eexists. split_and!.
    + rewrite readInbox_writeInbox_eq. reflexivity.
    + intros key Hkey. unfold writeInbox. simpl. by rewrite lookup_insert_ne.
    + apply parseMessage_task_assignment.
    + reflexivity.
    + reflexivity.
  - intros ->. reflexivity.
Qed.

Lemma C5_witness :
  initialized (ctrl sample_ready) = true
  /\ ledger_wf (ledger (teamName (ctrl sample_ready)) (world sample_ready))
  /\ exists s' id,
       createTask sample_task sample_ready = (s', inr id)
       /\ exists envelope members,
            readInbox "t1" "worker1" (world s') = [envelope]
            /\ parseMessage envelope = Protocol "task_assignment" members
            /\ Json.field "taskId" members = Some (Json.JStr id)
            /\ Json.field "subject" members = Some (Json.JStr "Build feature").
Proof.
  assert (initialized (ctrl sample_ready) = true) as H1 by reflexivity.
  assert (ledger_wf (ledger (teamName (ctrl sample_ready)) (world sample_ready)))
    as H2 by (vm_compute; constructor).
  split_and!; [exact H1|exact H2|].
  destruct (C5_createTask_sends_one_assignment_to_the_owner
              sample_task sample_ready H1 H2)
    as (s' & id & Hcreate & Howner & _).
  exists s', id. split; [exact Hcreate|].
  destruct (Howner "worker1" eq_refl) as (envelope & members & Hbox & _ & Hrest);
    [discriminate|].
  exists envelope, members. split; [exact Hbox|exact Hrest].
Defined.

(** ** The REST routes *)

Lemma parseMessage_plan_approval (sender requestId iso ts : string)
    (approve : bool) (feedback summary : option string) :
  exists members,
    parseMessage
      {| msg_from := sender;
         msg_text := plan_approval_response_text requestId approve feedback iso;
         msg_timestamp := ts; msg_summary := summary |}
    = Protocol "plan_approval_response" members
    /\ Json.field "requestId" members = Some (Json.JStr requestId)
    /\ Json.field "approved" members = Some (Json.JBool approve).
Proof.
  unfold parseMessage, plan_approval_response_text. cbn [msg_text].
  rewrite parse_stringify_flat.
  - destruct feedback; eexists; split_and!; reflexivity.
  - discriminate.
  - destruct feedback; repeat constructor.
Qed.

Lemma parseMessage_permission_response (sender requestId iso ts : string)
    (approve : bool) (summary : option string) :
  exists members,
    parseMessage
      {| msg_from := sender;
         msg_text := permission_response_text requestId approve iso;
         msg_timestamp := ts; msg_summary := summary |}
    = Protocol "permission_response" members
    /\ Json.field "requestId" members = Some (Json.JStr requestId)
    /\ Json.field "approved" members = Some (Json.JBool approve).
Proof.
  unfold parseMessage, permission_response_text. cbn [msg_text].
  rewrite parse_stringify_flat.
  - eexists; split_and!; reflexivity.
  - discriminate.
  - repeat constructor.
Qed.

Lemma deliver_nil (source nowIso : string) (t : ActionTracker) :
  deliver source nowIso [] t = t.
Proof.
  unfold deliver. destruct (currentController t); [|done].
  by destruct (String.eqb _ _).
Qed.

Lemma truthy_Some (x : string) : x <> EmptyString -> truthy (Some x) = true.
Proof. intros H. simpl. by destruct (String.eqb_spec x EmptyString). Qed.

Lemma approve_plan_route (a : Api) (c : ClaudeCodeController)
    (name requestId : string) (approve : option bool) (feedback : option string) :
  controller (state a) = Some c -> initialized c = true ->
  requestId <> EmptyString ->
  handle (POST_agent_approve_plan name
            {| apl_requestId := Some requestId; apl_approve := approve;
               apl_feedback := feedback |}) a
  = (api_after a (teamName c) name
       (controller_envelope
          (plan_approval_response_text requestId (default true approve)
             feedback (toISOString (now (api_world a))))
          None (api_world a))
       (resolveApproval requestId),
     {| status := 200; body := ok_body |}).
Proof.
  intros Hc Hinit Hne.
  destruct a as [[ctl trk own lock start] w]. simpl in Hc. subst ctl.
  unfold handle, route, bind, getController, withController.
  cbn [state controller api_world gets ctrl world].
  rewrite drop_all, deliver_nil.
  cbn [apl_requestId apl_approve apl_feedback].
  rewrite truthy_Some by done. cbn [negb state controller api_world].
  unfold sendPlanApproval, bind, Date_now, gets.
  rewrite send_initialized by done.
  cbn [ctrl world]. rewrite drop_all, deliver_nil. reflexivity.
Qed.

Lemma approve_permission_route (a : Api) (c : ClaudeCodeController)
    (name requestId : string) (approve : option bool) :
  controller (state a) = Some c -> initialized c = true ->
  requestId <> EmptyString ->
  handle (POST_agent_approve_permission name
            {| ape_requestId := Some requestId; ape_approve := approve |}) a
  = (api_after a (teamName c) name
       (controller_envelope
          (permission_response_text requestId (default true approve)
             (toISOString (now (api_world a))))
          None (api_world a))
       (resolveApproval requestId),
     {| status := 200; body := ok_body |}).
Proof.
  intros Hc Hinit Hne.
  destruct a as [[ctl trk own lock start] w]. simpl in Hc. subst ctl.
  unfold handle, route, bind, getController, withController.
  cbn [state controller api_world gets ctrl world].
  rewrite drop_all, deliver_nil.
  cbn [ape_requestId ape_approve].
  rewrite truthy_Some by done. cbn [negb state controller api_world].
  unfold sendPermissionResponse, bind, Date_now, gets.
  rewrite send_initialized by done.
  cbn [ctrl world]. rewrite drop_all, deliver_nil. reflexivity.
Qed.

(** C10. The approve-plan and approve-permission routes read a missing
    [approve] field as [true]: for a body with a request id and no
    [approve], the route answers 200, the one envelope it appends to the
    mailbox of the agent parses back with [approved = true] and that
    request id, and afterwards the tracker holds no approval under the
    request id, whatever it held before (also when it held none). *)
Theorem C10_missing_approve_is_approval
    (a : Api) (c : ClaudeCodeController) (name requestId : string)
    (feedback : option string) :
  controller (state a) = Some c -> initialized c = true ->
  requestId <> EmptyString ->
  approves_and_resolves a (teamName c) name requestId "plan_approval_response"
    (POST_agent_approve_plan name
       {| apl_requestId := Some requestId; apl_approve := None;
          apl_feedback := feedback |})
  /\ approves_and_resolves a (teamName c) name requestId "permission_response"
       (POST_agent_approve_permission name
          {| ape_requestId := Some requestId; ape_approve := None |}).
Proof.
  intros Hc Hinit Hne. unfold approves_and_resolves. split.
  - rewrite (approve_plan_route a c) by done.
    destruct (parseMessage_plan_approval "controller" requestId
                (toISOString (now (api_world a)))
                (toISOString (now (api_world a))) true feedback None)
      as (members & Hparse & Hid & Happroved).
    do 3 eexists. split; [reflexivity|]. split_and!.
    + apply readInbox_writeInbox_eq.
    + exact Hparse.
    + exact Happroved.
    + exact Hid.
    + reflexivity.
    + apply JsMap_get_delete_eq.
  - rewrite (approve_permission_route a c) by done.
    destruct (parseMessage_permission_response "controller" requestId
                (toISOString (now (api_world a)))
                (toISOString (now (api_world a))) true None)
      as (members & Hparse & Hid & Happroved).
    do 3 eexists. split; [reflexivity|]. split_and!.
    + apply readInbox_writeInbox_eq.
    + exact Hparse.
    + exact Happroved.
    + exact Hid.
    + reflexivity.
    + apply JsMap_get_delete_eq.
Qed.

Lemma C10_witness :
  controller (state sample_api) = Some (ctrl sample_ready)
  /\ initialized (ctrl sample_ready) = true
  /\ "plan-xyz" <> EmptyString
  /\ JsMap.get "plan-xyz" (approvals (tracker (state sample_api))) = None
  /\ approves_and_resolves sample_api "t1" "coder" "plan-xyz"
       "plan_approval_response"
       (POST_agent_approve_plan "coder"
          {| apl_requestId := Some "plan-xyz"; apl_approve := None;
             apl_feedback := None |}).
Proof.
  assert ("plan-xyz" <> EmptyString) as Hne by discriminate.
  split_and!; [reflexivity|reflexivity|exact Hne|reflexivity|].
  exact (proj1 (C10_missing_approve_is_approval sample_api (ctrl sample_ready)
                  "coder" "plan-xyz" None eq_refl eq_refl Hne)).
Defined.

(** C1 (the code departs from the claim). The handler of
    [POST /agents/:name/messages] does not validate the agent name: for the
    names "../evil" and "a.b", which the safe-name pattern rejects, it
    answers 200 and appends the message to a mailbox file named by that
    name. The handler of [GET /tasks/:id] looks an unsafe id up in the
    ledger and answers 404 instead of a validation error. The handler of
    [POST /agents] does validate: it answers 400 and changes nothing. *)
Theorem C1_unsafe_names_reach_the_file_layers :
  SAFE_NAME_RE_test "../evil" = false
  /\ (exists a',
        handle (POST_agent_messages "../evil"
                  {| sm_message := Some "hi"; sm_summary := None |}) sample_api
        = (a', {| status := 200; body := ok_body |})
        /\ readInbox "t1" "../evil" (api_world sample_api) = []
        /\ readInbox "t1" "../evil" (api_world a')
           = [ {| msg_from := "controller"; msg_text := "hi";
                  msg_timestamp := "1970-01-01T00:00:00.000Z";
                  msg_summary := None |} ])
  /\ SAFE_NAME_RE_test "a.b" = false
  /\ status (snd (handle (POST_agent_messages "a.b"
                            {| sm_message := Some "hi"; sm_summary := None |})
                         sample_api)) = 200
  /\ SAFE_NAME_RE_test "../../etc/passwd" = false
  /\ status (snd (handle (GET_task "../../etc/passwd") sample_api)) = 404
  /\ handle (POST_agents
               {| sa_name := Some "../evil"; sa_type := None; sa_model := None;
                  sa_cwd := None; sa_permissions := None; sa_env := None |})
            sample_api
     = (sample_api,
        {| status := 400;
           body := error_body
             "name must be 1-64 alphanumeric characters, hyphens, or underscores" |}).
Proof.
  split_and!.
  - reflexivity.
  - eexists. split_and!; [vm_compute; reflexivity| |]; vm_compute; reflexivity.
  - reflexivity.
  - vm_compute. reflexivity.
  - reflexivity.
  - vm_compute. reflexivity.
  - vm_compute. reflexivity.
Qed.

(** For every agent name, safe or not, the messages route writes to the
    mailbox of that name. *)
Lemma messages_route_skips_validation (a : Api) (c : ClaudeCodeController)
    (name text : string) (summary : option string) :
  controller (state a) = Some c -> initialized c = true ->
  text <> EmptyString ->
  handle (POST_agent_messages name
            {| sm_message := Some text; sm_summary := summary |}) a
  = (api_after a (teamName c) name
       (controller_envelope text summary (api_world a)) (fun t => t),
     {| status := 200; body := ok_body |}).
Proof.
  intros Hc Hinit Hne.
  destruct a as [[ctl trk own lock start] w]. simpl in Hc. subst ctl.
  unfold handle, route, bind, getController, withController.
  cbn [state controller api_world gets ctrl world].
  rewrite drop_all, deliver_nil. cbn [sm_message sm_summary].
  rewrite truthy_Some by done. cbn [negb state controller api_world default].
  rewrite send_initialized by done.
  cbn [ctrl world]. rewrite drop_all, deliver_nil. reflexivity.
Qed.

(** ** The controller: receiving *)

Lemma readUnread_controller_eq (s : Sys) :
  readUnread_controller s = (after_read s, inr (controller_unread s)).
Proof.
  unfold after_read, readUnread_controller, controller_unread, readUnread,
    unread, mailbox.
  by destruct (inboxes (world s) !! (teamName (ctrl s), "controller")).
Qed.

Lemma receive_loop_unfold (name : string) (all : bool)
    (timeout interval deadline : Z) (script : list EnvStep) (s : Sys) :
  receive_loop name all timeout interval deadline script s
  = if now (world s) <? deadline then
      match receive_pick name all (controller_unread s) with
      | Some msgs => (after_read s, inr (Got msgs))
      | None =>
          match script with
          | [] => (after_read s, inr StillWaiting)
          | e :: rest =>
              receive_loop name all timeout interval deadline rest
                (quiet_iteration interval e s)
          end
      end
    else (s, inl (timeout_error timeout name)).
Proof.
  destruct script as [|e rest]; cbn [receive_loop];
    unfold bind, Date_now, gets; destruct (now (world s) <? deadline);
    try reflexivity; rewrite readUnread_controller_eq;
    destruct (receive_pick name all (controller_unread s)); try reflexivity.
Qed.

Lemma receiveAny_loop_unfold (timeout interval deadline : Z)
    (script : list EnvStep) (s : Sys) :
  receiveAny_loop timeout interval deadline script s
  = if now (world s) <? deadline then
      match List.filter is_meaningful (controller_unread s) with
      | m0 :: _ => (after_read s, inr (Got m0))
      | [] =>
          match script with
          | [] => (after_read s, inr StillWaiting)
          | e :: rest =>
              receiveAny_loop timeout interval deadline rest
                (quiet_iteration interval e s)
          end
      end
    else (s, inl {| err_name := Error;
                    err_message := "Timeout (" ++ Z_to_string timeout
                                     ++ "ms) waiting for any message" |}).
Proof.
  destruct script as [|e rest]; cbn [receiveAny_loop];
    unfold bind, Date_now, gets; destruct (now (world s) <? deadline);
    try reflexivity; rewrite readUnread_controller_eq;
    destruct (List.filter is_meaningful (controller_unread s)); try reflexivity.
Qed.









(** [receiveAny] does not take an idle notification for an answer: on a
    batch without plain content it goes on polling. *)
Lemma receiveAny_skips_idle (opts : ReceiveOptions) (s : Sys) :
  0 < default 60000 (ro_timeout opts) ->
  List.filter is_meaningful (controller_unread s) = [] ->
  receiveAny opts [] s = (after_read s, inr StillWaiting).
Proof.
  intros Hpos Hnone. unfold receiveAny, bind, Date_now, gets.
  rewrite receiveAny_loop_unfold, Hnone.
  destruct (Z.ltb_spec (now (world s))
              (now (world s) + default 60000 (ro_timeout opts))); [done|lia].
Qed.






Lemma filter_nil_iff {A} (f : A -> bool) (l : list A) :
  List.filter f l = [] <-> (forall x, In x l -> f x = false).
Proof.
  induction l as [|x l IH]; simpl; [tauto|].
  destruct (f x) eqn:E; split.
  - discriminate.
  - intros H. specialize (H x (or_introl eq_refl)). congruence.
  - intros H y [<-|Hy]; [done|]. by apply IH.
  - intros H. apply IH. auto.
Qed.






(** ** Task identifiers *)

Lemma same_ledgers_refl (s : Sys) : same_ledgers s s.
Proof. by split_and!. Qed.

Lemma same_ledgers_trans (s1 s2 s3 : Sys) :
  same_ledgers s1 s2 -> same_ledgers s2 s3 -> same_ledgers s1 s3.
Proof. intros (?&?&?) (?&?&?). split_and!; congruence. Qed.

Lemma keeps_bind {A B} (m : M Sys A) (k : A -> M Sys B) :
  keeps_ledgers m -> (forall a, keeps_ledgers (k a)) -> keeps_ledgers (bind m k).
Proof.
  intros Hm Hk s. unfold bind. specialize (Hm s).
  destruct (m s) as [s1 [e|a]]; [exact Hm|].
  eapply same_ledgers_trans; [exact Hm|apply Hk].
Qed.

Lemma keeps_ret {A} (a : A) : keeps_ledgers (ret a).
Proof. intros s. apply same_ledgers_refl. Qed.

Lemma keeps_raise {A} (e : JsError) : keeps_ledgers (@raise Sys A e).
Proof. intros s. apply same_ledgers_refl. Qed.

Lemma keeps_gets {A} (f : Sys -> A) : keeps_ledgers (gets f).
Proof. intros s. apply same_ledgers_refl. Qed.

Lemma keeps_forM {A} (l : list A) (f : A -> M Sys unit) :
  (forall x, keeps_ledgers (f x)) -> keeps_ledgers (forM l f).
Proof.
  intros Hf. induction l as [|x l IH]; simpl; [apply keeps_ret|].
  apply keeps_bind; [apply Hf|]. intros _. exact IH.
Qed.

Lemma keeps_update_ctrl (f : ClaudeCodeController -> ClaudeCodeController) :
  (forall c, initialized (f c) = initialized c /\ teamName (f c) = teamName c) ->
  keeps_ledgers (update_ctrl f).
Proof. intros Hf s. destruct (Hf (ctrl s)). by split_and!. Qed.

Lemma keeps_onWorld {A} (m : M World A) :
  keeps_ledgers_w m -> keeps_ledgers (onWorld m).
Proof.
  intros Hm s. unfold onWorld. specialize (Hm (world s)).
  destruct (m (world s)) as [w' r]. by split_and!.
Qed.

Lemma keeps_w_bind {A B} (m : M World A) (k : A -> M World B) :
  keeps_ledgers_w m -> (forall a, keeps_ledgers_w (k a)) ->
  keeps_ledgers_w (bind m k).
Proof.
  intros Hm Hk w. unfold bind. specialize (Hm w).
  destruct (m w) as [w1 [e|a]]; [exact Hm|].
  rewrite <- Hm. apply Hk.
Qed.

Lemma keeps_w_gets {A} (f : World -> A) : keeps_ledgers_w (gets f).
Proof. by intros w. Qed.

Lemma keeps_w_modify (f : World -> World) :
  (forall w, ledgers (f w) = ledgers w) -> keeps_ledgers_w (modify f).
Proof. intros Hf w. apply Hf. Qed.

Lemma keeps_w_team_getConfig (team : string) :
  keeps_ledgers_w (team_getConfig team).
Proof.
  intros w. unfold team_getConfig, bind, gets.
  by destruct (teams w !! team).
Qed.

Lemma ledgers_fold_writeInbox (team agent : string) (ms : list InboxMessage)
    (w : World) :
  ledgers (fold_left (fun w' m => writeInbox team agent m w') ms w) = ledgers w
  /\ now (fold_left (fun w' m => writeInbox team agent m w') ms w) = now w.
Proof.
  revert w. induction ms as [|m ms IH]; intros w; simpl; [done|].
  destruct (IH (writeInbox team agent m w)) as [-> ->]. done.
Qed.

Create HintDb keeps.
#[local] Hint Resolve keeps_ret keeps_raise keeps_gets keeps_w_gets
  keeps_w_team_getConfig : keeps.

Ltac keeps :=
  repeat first
    [ progress auto with keeps
    | apply keeps_bind; [|intros ?]
    | apply keeps_w_bind; [|intros ?]
    | apply keeps_forM; intros ?
    | apply keeps_onWorld
    | apply keeps_update_ctrl; intros ?; by split
    | apply keeps_w_modify; intros ?; reflexivity
    | match goal with
      | |- keeps_ledgers (if ?b then _ else _) => destruct b
      | |- keeps_ledgers (match ?o with Some _ => _ | None => _ end) => destruct o
      | |- keeps_ledgers_w (match ?o with Some _ => _ | None => _ end) => destruct o
      end ].

Lemma keeps_ensureInitialized : keeps_ledgers ensureInitialized.
Proof. unfold ensureInitialized, throw_Error. keeps. Qed.

Lemma keeps_send (agent msg : string) (summary : option string) :
  keeps_ledgers (send agent msg summary).
Proof.
  unfold send, Date_now. pose proof keeps_ensureInitialized. keeps.
Qed.

Lemma keeps_broadcast (msg : string) (summary : option string) :
  keeps_ledgers (broadcast msg summary).
Proof.
  unfold broadcast. pose proof keeps_ensureInitialized.
  pose proof keeps_send. keeps.
Qed.

Lemma keeps_emit (e : ControllerEvent) : keeps_ledgers (emit e).
Proof. unfold emit. keeps. Qed.

Lemma keeps_process_exit (name : string) (code : option Z) :
  keeps_ledgers (process_exit name code).
Proof. unfold process_exit. pose proof keeps_emit. keeps. Qed.

Lemma keeps_spawnAgent (opts : SpawnAgentOptions) :
  keeps_ledgers (spawnAgent opts).
Proof.
  unfold spawnAgent, Date_now, team_addMember, processes_spawn,
    processes_onExit, throw_Error.
  pose proof keeps_ensureInitialized. pose proof keeps_emit. keeps.
Qed.

Lemma keeps_killAgent (name : string) : keeps_ledgers (killAgent name).
Proof.
  unfold killAgent, processes_kill, team_removeMember.
  pose proof keeps_process_exit. keeps.
Qed.

Lemma keeps_readUnread_controller : keeps_ledgers readUnread_controller.
Proof.
  intros s. unfold readUnread_controller, readUnread.
  destruct (inboxes (world s) !! (teamName (ctrl s), "controller"));
    by split_and!.
Qed.

Lemma fold_activity_frame (team : string) (running : bool)
    (acts : list Activity) (w : World) :
  ledgers (fold_left (fun w' a => activity team running a w') acts w)
  = ledgers w
  /\ now (fold_left (fun w' a => activity team running a w') acts w) = now w.
Proof.
  revert w. induction acts as [|a acts IH]; intros w; simpl; [done|].
  destruct (IH (activity team running a w)) as [-> ->].
  destruct a as [m|]; simpl; [done|]. unfold poll_cycle, readUnread.
  destruct running; [|done].
  by destruct (inboxes w !! (team, "controller")).
Qed.

Lemma keeps_sleep (interval : Z) (e : EnvStep) : keeps_ledgers (sleep interval e).
Proof.
  unfold sleep. apply keeps_bind; [apply keeps_gets|]. intros c.
  apply keeps_onWorld, keeps_w_modify. intros w. simpl.
  apply fold_activity_frame.
Qed.

Lemma keeps_receive (name : string) (opts : ReceiveOptions)
    (script : list EnvStep) :
  keeps_ledgers (receive name opts script).
Proof.
  unfold receive, Date_now. apply keeps_bind; [apply keeps_gets|]. intros t.
  generalize (t + default 60000 (ro_timeout opts)) as deadline.
  intros deadline. induction script as [|e rest IH]; cbn [receive_loop];
    unfold Date_now, throw_Error; pose proof keeps_readUnread_controller;
    pose proof keeps_sleep; keeps.
Qed.

Lemma same_ledgers_team_ledger (s s' : Sys) :
  same_ledgers s s' -> team_ledger s' = team_ledger s.
Proof. intros (_ & Hteam & Hl). unfold team_ledger, ledger. by rewrite Hteam, Hl. Qed.

Lemma ledger_insert (team : string) (l : Ledger) (w : World) :
  ledger team (set_ledgers <[team := l]> w) = l.
Proof. unfold ledger. simpl. by rewrite lookup_insert_eq. Qed.

Lemma ledger_writeInbox (team team' agent : string) (m : InboxMessage)
    (w : World) :
  ledger team (writeInbox team' agent m w) = ledger team w.
Proof. reflexivity. Qed.

Lemma tasks_update_step (id : string) (p : TaskPatch) (s : Sys) :
  let s' := fst (onWorld (tasks_update (teamName (ctrl s)) id p) s) in
  ctrl s' = ctrl s
  /\ next_id (team_ledger s') = next_id (team_ledger s)
  /\ length (records (team_ledger s')) = length (records (team_ledger s)).
Proof.
  unfold onWorld, tasks_update, tasks_get, bind, gets, not_found, throw_Error,
    raise, team_ledger. simpl.
  destruct (find (has_id id) (records (ledger (teamName (ctrl s)) (world s))));
    simpl; [|done].
  rewrite !ledger_insert. simpl. by rewrite length_map.
Qed.

Lemma tasks_delete_step (id : string) (s : Sys) :
  let s' := fst (onWorld (tasks_delete (teamName (ctrl s)) id) s) in
  ctrl s' = ctrl s
  /\ next_id (team_ledger s') = next_id (team_ledger s).
Proof.
  unfold onWorld, tasks_delete, tasks_get, bind, gets, not_found, throw_Error,
    raise, team_ledger. simpl.
  destruct (find (has_id id) (records (ledger (teamName (ctrl s)) (world s))));
    simpl; [|done].
  by rewrite !ledger_insert.
Qed.

Lemma assignTask_eq (id agent : string) (s : Sys) :
  assignTask id agent s
  = match onWorld (tasks_update (teamName (ctrl s)) id (owner_patch agent)) s with
    | (s1, inl e) => (s1, inl e)
    | (s1, inr task) =>
        (let* t := Date_now in
         send agent
           (task_assignment_text id (task_subject task) (task_description task)
              (toISOString t)) None) s1
    end.
Proof. reflexivity. Qed.

Lemma assignTask_step (id agent : string) (s : Sys) :
  let s' := fst (assignTask id agent s) in
  initialized (ctrl s') = initialized (ctrl s)
  /\ teamName (ctrl s') = teamName (ctrl s)
  /\ next_id (team_ledger s') = next_id (team_ledger s)
  /\ length (records (team_ledger s')) = length (records (team_ledger s)).
Proof.
  rewrite assignTask_eq.
  pose proof (tasks_update_step id (owner_patch agent) s) as (Hc & Hn & Hl).
  destruct (onWorld (tasks_update (teamName (ctrl s)) id (owner_patch agent)) s)
    as [s1 [e|t]] eqn:E; simpl in Hc, Hn, Hl; cbv zeta.
  - cbn [fst]. by rewrite Hc.
  - match goal with |- context [bind ?m ?k s1] =>
      pose proof (keeps_bind m k) as Hk end.
    unfold Date_now in *.
    specialize (Hk ltac:(apply keeps_gets) ltac:(intros; apply keeps_send) s1).
    pose proof (same_ledgers_team_ledger _ _ Hk) as Hsame.
    destruct Hk as (Hi & Ht & _). rewrite Hsame, Hi, Ht, Hc. done.
Qed.
Lemma find_last_present (id : string) (file : TaskFile) (rs : list TaskFile) :
  task_id file = id -> exists t, find (has_id id) (rs ++ [file])%list = Some t.
Proof.
  intros Hid. induction rs as [|r rs IH]; simpl.
  - unfold has_id. rewrite Hid, String.eqb_refl. eauto.
  - destruct (has_id id r); eauto.
Qed.

Lemma createTask_step (task : TaskInput) (s : Sys) :
  initialized (ctrl s) = true ->
  exists s',
    createTask task s = (s', inr (N_to_string (next_id (team_ledger s))))
    /\ initialized (ctrl s') = true
    /\ teamName (ctrl s') = teamName (ctrl s)
    /\ next_id (team_ledger s') = N.succ (next_id (team_ledger s))
    /\ length (records (team_ledger s')) = S (length (records (team_ledger s))).
Proof.
  intros Hinit. unfold createTask, bind.
  rewrite ensureInitialized_true by done.
  unfold gets, onWorld, tasks_create, bind, gets, modify, ret. simpl.
  set (l := ledger (teamName (ctrl s)) (world s)).
  set (id := N_to_string (next_id l)).
  match goal with |- context [(records l ++ [?f])%list] =>
    set (file := f) end.
  destruct (truthy (ti_owner task)).
  - unfold tasks_get, bind, gets. simpl. rewrite ledger_insert. simpl.
    destruct (find_last_present id file (records l) eq_refl) as [t ->].
    unfold ret, Date_now, gets. simpl.
    rewrite send_initialized by done. simpl.
    eexists. split; [reflexivity|]. unfold team_ledger. simpl.
    rewrite ledger_writeInbox, ledger_insert. simpl.
    rewrite length_app. simpl. subst l. split_and!; try done. lia.
  - eexists. split; [reflexivity|]. unfold team_ledger. simpl.
    rewrite ledger_insert. simpl.
    rewrite length_app. simpl. subst l. split_and!; try done. lia.
Qed.
Lemma run_op_step (o : Op) (s : Sys) :
  initialized (ctrl s) = true ->
  initialized (ctrl (fst (run_op o s))) = true
  /\ teamName (ctrl (fst (run_op o s))) = teamName (ctrl s)
  /\ snd (run_op o s)
     = (if is_create o then [N_to_string (next_id (team_ledger s))] else [])
  /\ next_id (team_ledger (fst (run_op o s)))
     = (if is_create o then N.succ (next_id (team_ledger s))
        else next_id (team_ledger s))
  /\ (is_delete o = false ->
      length (records (team_ledger (fst (run_op o s))))
      = if is_create o then S (length (records (team_ledger s)))
        else length (records (team_ledger s))).
Proof.
  intros Hinit.
  assert (forall (A : Type) (m : M Sys A),
            keeps_ledgers m ->
            initialized (ctrl (fst (m s))) = true
            /\ teamName (ctrl (fst (m s))) = teamName (ctrl s)
            /\ @nil string = []
            /\ next_id (team_ledger (fst (m s))) = next_id (team_ledger s)
            /\ (false = false ->
                length (records (team_ledger (fst (m s))))
                = length (records (team_ledger s)))) as Hkeeps.
  { intros A m Hm. specialize (Hm s).
    rewrite (same_ledgers_team_ledger _ _ Hm).
    destruct Hm as (Hi & Ht & _). rewrite Hi, Ht. done. }
  destruct o; cbn [run_op is_create is_delete].
  - destruct (createTask_step task s Hinit) as (s' & -> & H1 & H2 & H3 & H4).
    cbn [fst snd]. done.
  - destruct (tasks_delete_step id s) as (Hc & Hn). cbn [fst snd].
    rewrite Hc. done.
  - destruct (tasks_update_step id patch s) as (Hc & Hn & Hl). cbn [fst snd].
    rewrite Hc. done.
  - destruct (assignTask_step id agent s) as (Hi & Ht & Hn & Hl). cbn [fst snd].
    rewrite Hi. done.
  - apply Hkeeps, keeps_send.
  - apply Hkeeps, keeps_broadcast.
  - apply Hkeeps, keeps_spawnAgent.
  - apply Hkeeps, keeps_killAgent.
  - apply Hkeeps, keeps_receive.
Qed.

Lemma run_ops_counts (ops : list Op) :
  forall s : Sys,
    initialized (ctrl s) = true ->
    snd (run_ops ops s)
    = ids_from (next_id (team_ledger s)) (length (List.filter is_create ops))
    /\ teamName (ctrl (fst (run_ops ops s))) = teamName (ctrl s)
    /\ (forallb (fun o => negb (is_delete o)) ops = true ->
        length (records (team_ledger (fst (run_ops ops s))))
        = (length (records (team_ledger s))
           + length (List.filter is_create ops))%nat).
Proof.
  induction ops as [|o rest IH]; intros s Hinit.
  - simpl. split_and!; [done|done|lia].
  - cbn [run_ops].
    destruct (run_op_step o s Hinit) as (Hi & Ht & Hids & Hn & Hl).
    destruct (run_op o s) as [s1 ids1]. cbn [fst snd] in *.
    destruct (IH s1 Hi) as (IHids & IHt & IHl).
    destruct (run_ops rest s1) as [s2 ids2]. cbn [fst snd] in *.
    subst ids1 ids2. rewrite Hn. split_and!.
    + cbn [List.filter]. by destruct (is_create o).
    + congruence.
    + cbn [forallb List.filter]. intros Hnd.
      apply andb_true_iff in Hnd as [Hd Hnd]. apply negb_true_iff in Hd.
      rewrite (IHl Hnd), (Hl Hd). destruct (is_create o); simpl; lia.
Qed.

Lemma ids_from_bound (a : N) (n : nat) (x : string) :
  In x (ids_from a n) -> exists k, (a <= k)%N /\ x = N_to_string k.
Proof.
  revert a. induction n as [|n IH]; intros a; simpl; [done|].
  intros [<-|Hin]; [exists a; split; [lia|done]|].
  destruct (IH _ Hin) as (k & Hk & ->). exists k. split; [lia|done].
Qed.

Lemma NoDup_ids_from (a : N) (n : nat) : NoDup (ids_from a n).
Proof.
  revert a. induction n as [|n IH]; intros a; simpl; [constructor|].
  constructor; [|apply IH].
  intros Hin. apply list_elem_of_In, ids_from_bound in Hin as (k & Hk & Heq).
  apply N_to_string_inj in Heq. lia.
Qed.

Lemma init_fresh_ledger (s s0 : Sys) (c : ClaudeCodeController) :
  initialized (ctrl s) = false ->
  ledgers (world s) !! teamName (ctrl s) = None ->
  init s = (s0, inr c) ->
  initialized (ctrl s0) = true /\ team_ledger s0 = empty_Ledger.
Proof.
  intros Hflag Hfresh.
  unfold init, bind, gets, onWorld, team_create, bind, gets. rewrite Hflag.
  destruct (teams (world s) !! teamName (ctrl s)); simpl; [discriminate|].
  rewrite Hfresh. intros [= <- <-]. split; [done|].
  unfold team_ledger. simpl. apply ledger_insert.
Qed.

(** C2. In a new team the identifiers that successive [createTask] calls
    return are the decimal strings "1", "2", ... in this order, whatever
    other calls (deleting, updating and assigning tasks, sending,
    broadcasting, receiving, spawning and killing agents) come in
    between; no identifier is returned twice, also after a task was
    deleted; and when no task was deleted, [tasks.list()] returns as many
    records as tasks were created. *)
Theorem C2_task_identifiers_count_up_from_one
    (s s0 : Sys) (c : ClaudeCodeController) (ops : list Op) :
  initialized (ctrl s) = false ->
  ledgers (world s) !! teamName (ctrl s) = None ->
  init s = (s0, inr c) ->
  snd (run_ops ops s0) = ids_from 1 (length (List.filter is_create ops))
  /\ NoDup (snd (run_ops ops s0))
  /\ (forallb (fun o => negb (is_delete o)) ops = true ->
      exists listed,
        tasks_list (teamName (ctrl (fst (run_ops ops s0))))
          (world (fst (run_ops ops s0)))
        = (world (fst (run_ops ops s0)), inr listed)
        /\ length listed = length (List.filter is_create ops)).
Proof.
  intros Hflag Hfresh Hinit.
  destruct (init_fresh_ledger s s0 c Hflag Hfresh Hinit) as [Hready Hledger].
  destruct (run_ops_counts ops s0 Hready) as (Hids & Hteam & Hlen).
  rewrite Hledger in Hids, Hlen. simpl in Hids, Hlen.
  split_and!.
  - exact Hids.
  - rewrite Hids. apply NoDup_ids_from.
  - intros Hnd. eexists. split; [reflexivity|]. by apply Hlen.
Qed.

Lemma C2_witness :
  initialized (ctrl sample_fresh) = false
  /\ ledgers (world sample_fresh) !! teamName (ctrl sample_fresh) = None
  /\ init sample_fresh = (sample_ready, inr (ctrl sample_ready))
  /\ snd (run_ops sample_ops sample_ready) = ["1"; "2"; "3"].
Proof.
  assert (ledgers (world sample_fresh) !! teamName (ctrl sample_fresh) = None)
    as H2 by (vm_compute; reflexivity).
  assert (init sample_fresh = (sample_ready, inr (ctrl sample_ready)))
    as H3 by (vm_compute; reflexivity).
  split_and!; [reflexivity|exact H2|exact H3|].
  exact (proj1 (C2_task_identifiers_count_up_from_one
                  sample_fresh sample_ready (ctrl sample_ready) sample_ops
                  eq_refl H2 H3)).
Defined.

(** ** [receive] does not wait beyond its deadline *)

Lemma now_quiet_iteration (interval : Z) (e : EnvStep) (s : Sys) :
  now (world (quiet_iteration interval e s))
  = now (world s) + Z.max 0 interval + Z.of_N (overshoot e).
Proof.
  unfold quiet_iteration, sleep, bind, gets, onWorld, modify,
    readUnread_controller, readUnread. simpl.
  destruct (inboxes (world s) !! (teamName (ctrl s), "controller")); simpl;
    by rewrite (proj2 (fold_activity_frame _ _ _ _)).
Qed.

(** With a positive polling interval and a script that covers the timeout,
    [receive] has returned messages or thrown the timeout error. *)
Lemma receive_loop_decides (name : string) (all : bool)
    (timeout interval deadline : Z) (script : list EnvStep) :
  0 < interval ->
  forall s : Sys,
    deadline - now (world s) <= Z.of_nat (length script) * interval ->
    snd (receive_loop name all timeout interval deadline script s)
    <> inr StillWaiting.
Proof.
  intros Hpos. induction script as [|e rest IH]; intros s Hcover;
    rewrite receive_loop_unfold;
    destruct (Z.ltb_spec (now (world s)) deadline); try done;
    destruct (receive_pick name all (controller_unread s)); try done.
  - simpl in Hcover. lia.
  - apply IH. rewrite now_quiet_iteration.
    rewrite length_cons, Nat2Z.inj_succ in Hcover. lia.
Qed.

(** ** The ledger invariant holds in every reachable state *)

Lemma ledger_wf_empty : ledger_wf empty_Ledger.
Proof. constructor. Qed.

Lemma ledger_wf_create (l : Ledger) (file : TaskFile) :
  ledger_wf l -> task_id file = N_to_string (next_id l) ->
  ledger_wf {| next_id := N.succ (next_id l);
               records := (records l ++ [file])%list |}.
Proof.
  unfold ledger_wf. simpl. intros Hwf Hid. apply Forall_app. split.
  - eapply Forall_impl; [exact Hwf|]. intros t (n & Hn & Hlt).
    exists n. split; [done|lia].
  - constructor; [|constructor]. exists (next_id l). split; [done|lia].
Qed.

Lemma ledger_wf_update (l : Ledger) (id : string) (p : TaskPatch) (t : TaskFile) :
  ledger_wf l -> find (has_id id) (records l) = Some t ->
  ledger_wf {| next_id := next_id l;
               records := map (fun x => if has_id id x then apply_patch p t else x)
                              (records l) |}.
Proof.
  unfold ledger_wf. simpl. intros Hwf Hfind.
  apply find_some in Hfind as [Hin Hid].
  assert (exists n, task_id t = N_to_string n /\ (n < next_id l)%N) as Ht.
  { rewrite List.Forall_forall in Hwf. by apply Hwf. }
  apply Forall_map. eapply Forall_impl; [exact Hwf|]. intros x Hx. simpl.
  by destruct (has_id id x).
Qed.

Lemma ledger_wf_delete (l : Ledger) (f : TaskFile -> bool) :
  ledger_wf l ->
  ledger_wf {| next_id := next_id l; records := List.filter f (records l) |}.
Proof.
  unfold ledger_wf. simpl. intros Hwf. apply List.Forall_forall.
  intros x Hx. apply List.filter_In in Hx as [Hx _].
  rewrite List.Forall_forall in Hwf. by apply Hwf.
Qed.

Lemma run_op_ledger_wf (o : Op) (s : Sys) :
  initialized (ctrl s) = true ->
  ledger_wf (team_ledger s) -> ledger_wf (team_ledger (fst (run_op o s))).
Proof.
  intros Hinit Hwf.
  assert (forall (A : Type) (m : M Sys A),
            keeps_ledgers m -> ledger_wf (team_ledger (fst (m s)))) as Hkeeps.
  { intros A m Hm. by rewrite (same_ledgers_team_ledger _ _ (Hm s)). }
  assert (forall id p,
            ledger_wf (team_ledger
              (fst (onWorld (tasks_update (teamName (ctrl s)) id p) s))))
    as Hupdate.
  { intros id p.
    unfold onWorld, tasks_update, tasks_get, bind, gets, not_found,
      throw_Error, raise, team_ledger. simpl.
    destruct (find (has_id id) (records (ledger (teamName (ctrl s)) (world s))))
      eqn:Hfind; simpl; [|done].
    rewrite !ledger_insert. by apply ledger_wf_update. }
  destruct o; cbn [run_op fst].
  - rewrite createTask_initialized by done. cbn [fst]. unfold team_ledger.
    cbn [ctrl world].
    destruct (truthy (ti_owner task));
      rewrite ?ledger_writeInbox, ledger_insert; by apply ledger_wf_create.
  - unfold onWorld, tasks_delete, tasks_get, bind, gets, not_found,
      throw_Error, raise, team_ledger. simpl.
    destruct (find (has_id id) (records (ledger (teamName (ctrl s)) (world s))));
      simpl; [|done].
    rewrite !ledger_insert. by apply ledger_wf_delete.
  - apply Hupdate.
  - rewrite assignTask_eq. specialize (Hupdate id (owner_patch agent)).
    pose proof (tasks_update_step id (owner_patch agent) s) as (Hc & _).
    destruct (onWorld (tasks_update (teamName (ctrl s)) id (owner_patch agent)) s)
      as [s1 [e|t]]; cbn [fst] in *; [done|].
    match goal with |- context [bind ?m ?k s1] =>
      pose proof (keeps_bind m k) as Hk end.
    unfold Date_now in *.
    specialize (Hk ltac:(apply keeps_gets) ltac:(intros; apply keeps_send) s1).
    by rewrite (same_ledgers_team_ledger _ _ Hk).
  - apply Hkeeps, keeps_send.
  - apply Hkeeps, keeps_broadcast.
  - apply Hkeeps, keeps_spawnAgent.
  - apply Hkeeps, keeps_killAgent.
  - apply Hkeeps, keeps_receive.
Qed.

(** After [init()] on a new team and any calls, the ledger of the team is
    well formed: the hypothesis of the property of [createTask] holds. *)
Lemma run_ops_ledger_wf (ops : list Op) :
  forall s : Sys,
    initialized (ctrl s) = true -> ledger_wf (team_ledger s) ->
    ledger_wf (team_ledger (fst (run_ops ops s))).
Proof.
  induction ops as [|o rest IH]; intros s Hinit Hwf; [done|].
  cbn [run_ops].
  pose proof (run_op_ledger_wf o s Hinit Hwf) as Hwf1.
  destruct (run_op_step o s Hinit) as (Hi & _).
  destruct (run_op o s) as [s1 ids1]. cbn [fst] in *.
  specialize (IH s1 Hi Hwf1).
  destruct (run_ops rest s1) as [s2 ids2]. done.
Qed.

(** * Further properties *)

(** ** JavaScript Map, continued *)

Lemma JsMap_get_set_ne {V} (k k' : string) (v : V) (m : JsMap.t V) :
  k <> k' -> JsMap.get k' (JsMap.set k v m) = JsMap.get k' m.
Proof.
  intros Hne. induction m as [|[k0 v0] m IH]; simpl.
  - destruct (String.eqb_spec k' k); [congruence|done].
  - destruct (String.eqb_spec k k0) as [->|Hk]; simpl.
    + destruct (String.eqb_spec k' k0); [congruence|done].
    + destruct (String.eqb k' k0); [done|exact IH].
Qed.

Lemma JsMap_get_In {V} (k : string) (v : V) (m : JsMap.t V) :
  JsMap.get k m = Some v -> In (k, v) m.
Proof.
  induction m as [|[k0 v0] m IH]; simpl; [done|].
  destruct (String.eqb_spec k k0) as [->|_]; [intros [= ->]; by left|].
  intros H. right. by apply IH.
Qed.

Lemma JsMap_In_get {V} (k : string) (v : V) (m : JsMap.t V) :
  JsMap.wf m -> In (k, v) m -> JsMap.get k m = Some v.
Proof.
  unfold JsMap.wf. induction m as [|[k0 v0] m IH]; simpl; [done|].
  intros Hnd [Heq|Hin].
  - injection Heq as -> ->. by rewrite String.eqb_refl.
  - apply NoDup_cons in Hnd as [Hfresh Hnd].
    destruct (String.eqb_spec k k0) as [->|_]; [|by apply IH].
    exfalso. apply Hfresh. apply list_elem_of_In.
    change k0 with (fst (k0, v)). by apply in_map.
Qed.

Lemma JsMap_set_length {V} (k : string) (v : V) (m : JsMap.t V) :
  length (JsMap.set k v m)
  = match JsMap.get k m with
    | Some _ => length m
    | None => S (length m)
    end.
Proof.
  induction m as [|[k0 v0] m IH]; simpl; [done|].
  destruct (String.eqb k k0); simpl; [done|].
  rewrite IH. by destruct (JsMap.get k m).
Qed.

Lemma JsMap_delete_absent {V} (k : string) (m : JsMap.t V) :
  JsMap.get k m = None -> JsMap.delete k m = m.
Proof.
  induction m as [|[k0 v0] m IH]; simpl; [done|].
  destruct (String.eqb k k0); simpl; [done|]. intros H. f_equal. by apply IH.
Qed.

Lemma JsMap_delete_delete {V} (k : string) (m : JsMap.t V) :
  JsMap.delete k (JsMap.delete k m) = JsMap.delete k m.
Proof. apply JsMap_delete_absent, JsMap_get_delete_eq. Qed.

(** ** Action tracker, continued *)

Lemma filed_set (k : string) (v : PendingApproval) (m : JsMap.t PendingApproval) :
  filed_by_requestId m -> pa_requestId v = k ->
  filed_by_requestId (JsMap.set k v m).
Proof.
  unfold filed_by_requestId. intros Hm Hv.
  induction Hm as [|[k0 v0] m H0 Hm IH]; simpl.
  - by repeat constructor.
  - destruct (String.eqb_spec k k0) as [->|_]; constructor; auto.
Qed.

Lemma filed_filter (f : string * PendingApproval -> bool)
    (m : JsMap.t PendingApproval) :
  filed_by_requestId m -> filed_by_requestId (List.filter f m).
Proof.
  unfold filed_by_requestId. intros Hm. apply List.Forall_forall.
  intros x Hx. apply List.filter_In in Hx as [Hx _].
  rewrite List.Forall_forall in Hm. by apply Hm.
Qed.

Lemma tracker_step_keeps_filing (t : ActionTracker) (o : TrackerOp) :
  JsMap.wf (approvals t) /\ filed_by_requestId (approvals t) ->
  JsMap.wf (approvals (tracker_step t o))
  /\ filed_by_requestId (approvals (tracker_step t o)).
Proof.
  intros [Hwf Hfiled]. destruct o as [iso e| | | | |]; simpl; try done.
  - split; [by apply tracker_on_wf|].
    destruct e; simpl; try done.
    + unfold purge_agent. rewrite purge_fold. by apply filed_filter.
    + by apply filed_set.
    + by apply filed_set.
  - split; [by apply JsMap_wf_delete|by apply filed_filter].
  - split; constructor.
Qed.

Lemma tracker_steps_keep_filing (ops : list TrackerOp) :
  forall t : ActionTracker,
    JsMap.wf (approvals t) /\ filed_by_requestId (approvals t) ->
    JsMap.wf (approvals (fold_left tracker_step ops t))
    /\ filed_by_requestId (approvals (fold_left tracker_step ops t)).
Proof.
  induction ops as [|o ops IH]; intros t H; simpl; [done|].
  apply IH. by apply tracker_step_keeps_filing.
Qed.

(** X1. Whatever events reach the tracker and whatever methods are called
    on it, its snapshot never lists two pending approvals with one request
    id, and every approval it lists is the one found (and resolved) under
    its own request id. *)
Theorem X1_pending_approvals_have_distinct_request_ids (ops : list TrackerOp) :
  let t := fold_left tracker_step ops new_ActionTracker in
  NoDup (map pa_requestId (getPendingApprovals t))
  /\ (forall p, In p (getPendingApprovals t) ->
        JsMap.get (pa_requestId p) (approvals t) = Some p
        /\ ~ In p (getPendingApprovals (resolveApproval (pa_requestId p) t))).
Proof.
  intros t.
  assert (JsMap.wf (approvals t) /\ filed_by_requestId (approvals t))
    as [Hwf Hfiled].
  { subst t. apply tracker_steps_keep_filing. split; constructor. }
  assert (map pa_requestId (getPendingApprovals t) = JsMap.keys (approvals t))
    as Hkeys.
  { unfold getPendingApprovals, JsMap.values, JsMap.keys. rewrite map_map.
    apply map_ext_in. intros kv Hkv.
    unfold filed_by_requestId in Hfiled. rewrite List.Forall_forall in Hfiled.
    by apply Hfiled. }
  split; [by rewrite Hkeys|].
  intros p Hp. unfold getPendingApprovals, JsMap.values in Hp.
  apply in_map_iff in Hp as ([k v] & <- & Hin). simpl.
  assert (pa_requestId v = k) as ->.
  { unfold filed_by_requestId in Hfiled. rewrite List.Forall_forall in Hfiled.
    by apply (Hfiled (k, v)). }
  split; [by apply JsMap_In_get|].
  unfold getPendingApprovals, JsMap.values, resolveApproval. simpl.
  intros Habs. apply in_map_iff in Habs as ([k' v'] & Hv & Hin').
  simpl in Hv. subst v'.
  apply List.filter_In in Hin' as [Hin' Hk]. simpl in Hk.
  apply negb_true_iff, String.eqb_neq in Hk.
  pose proof (JsMap_wf_entry_unique _ (k, v) (k', v) Hwf Hin Hin') as Huniq.
  unfold filed_by_requestId in Hfiled. rewrite List.Forall_forall in Hfiled.
  pose proof (Hfiled _ Hin) as H1. pose proof (Hfiled _ Hin') as H2.
  simpl in H1, H2. congruence.
Qed.

(** X2. A plan or permission request event files the approval under its
    request id, with the requesting agent and the route that answers it,
    and leaves every other pending approval and the idle agents as they
    were; a request whose id is already pending replaces the entry, so
    the number of pending approvals grows only for a new id. *)
Theorem X2_request_events_file_one_approval
    (t : ActionTracker) (nowIso agent : string)
    (plan : PlanApprovalRequestMessage) (perm : PermissionRequestMessage) :
  files_approval t (tracker_on nowIso (plan_approval_request agent plan) t)
    (plan_requestId plan) (plan_approval agent plan)
  /\ files_approval t (tracker_on nowIso (permission_request agent perm) t)
       (perm_requestId perm) (permission_approval agent perm).
Proof.
  split; unfold files_approval; simpl; split_and!;
    try apply JsMap_get_set_eq; try reflexivity;
    try (intros other Hne; by apply JsMap_get_set_ne);
    unfold getPendingApprovals, JsMap.values; simpl;
    rewrite !length_map, JsMap_set_length; by destruct (JsMap.get _ _).
Qed.

(** X3. [resolveApproval] removes the approval filed under the request id
    and nothing else: every other approval and the idle agents stay;
    resolving an id that is not pending changes nothing, and resolving
    twice is resolving once. *)
Theorem X3_resolveApproval_removes_exactly_one (t : ActionTracker)
    (requestId : string) :
  JsMap.get requestId (approvals (resolveApproval requestId t)) = None
  /\ (forall other, other <> requestId ->
        JsMap.get other (approvals (resolveApproval requestId t))
        = JsMap.get other (approvals t))
  /\ idles (resolveApproval requestId t) = idles t
  /\ (JsMap.get requestId (approvals t) = None -> resolveApproval requestId t = t)
  /\ resolveApproval requestId (resolveApproval requestId t)
     = resolveApproval requestId t.
Proof.
  split_and!.
  - apply JsMap_get_delete_eq.
  - intros other Hne. simpl. apply JsMap_get_delete_ne. congruence.
  - reflexivity.
  - intros Hnone. destruct t. unfold resolveApproval, with_approvals. simpl in *.
    by rewrite JsMap_delete_absent.
  - unfold resolveApproval, with_approvals. simpl.
    by rewrite JsMap_delete_delete.
Qed.

(** X4. An [idle] event lists the agent as idle, with the type registered
    for it ("unknown" when none was registered) and the time of the event;
    a later [message], [agent:spawned] or [agent:exited] event of that
    agent takes it off the list; the idle entries of other agents are not
    touched by either, and none of [idle], [message], [agent:spawned]
    changes the pending approvals. *)
Theorem X4_idle_agents_follow_the_events
    (t : ActionTracker) (agent nowIso later : string) (e : ControllerEvent) :
  ends_idleness agent e ->
  let t1 := tracker_on nowIso (idle agent) t in
  let t2 := tracker_on later e t1 in
  JsMap.get agent (idles t1)
    = Some (idle_entry agent
              (default "unknown" (JsMap.get agent (agentTypes t))) nowIso)
  /\ JsMap.get agent (idles t2) = None
  /\ (forall other, other <> agent ->
        JsMap.get other (idles t1) = JsMap.get other (idles t)
        /\ JsMap.get other (idles t2) = JsMap.get other (idles t))
  /\ approvals t1 = approvals t
  /\ (forall type,
        JsMap.get agent
          (idles (tracker_on nowIso (idle agent)
                    (registerAgentType agent type t)))
        = Some (idle_entry agent type nowIso)).
Proof.
  intros He t1 t2. split_and!.
  - subst t1. simpl. rewrite JsMap_get_set_eq. unfold idle_entry.
    by destruct (JsMap.get agent (agentTypes t)).
  - subst t2. destruct e; simpl in He; try done; subst; simpl;
      apply JsMap_get_delete_eq.
  - intros other Hne.
    assert (JsMap.get other (idles t1) = JsMap.get other (idles t)) as H1.
    { subst t1. simpl. apply JsMap_get_set_ne. congruence. }
    split; [exact H1|]. rewrite <- H1. subst t2.
    destruct e; simpl in He; try done; subst; simpl;
      apply JsMap_get_delete_ne; congruence.
  - reflexivity.
  - intros type. simpl. rewrite !JsMap_get_set_eq. reflexivity.
Qed.

Lemma X4_witness :
  ends_idleness "worker1" (message "worker1" sample_reply)
  /\ JsMap.get "worker1"
       (idles (tracker_on "2026-01-01T00:00:05.000Z"
                 (message "worker1" sample_reply)
                 (tracker_on "2026-01-01T00:00:00.000Z" (idle "worker1")
                    sample_tracker))) = None.
Proof.
  split; [reflexivity|].
  exact (proj1 (proj2 (X4_idle_agents_follow_the_events sample_tracker
                         "worker1" "2026-01-01T00:00:00.000Z"
                         "2026-01-01T00:00:05.000Z"
                         (message "worker1" sample_reply) eq_refl))).
Defined.

(** ** The routes, continued *)

Lemma getController_Some (a : Api) (c : ClaudeCodeController) :
  controller (state a) = Some c -> getController a = (a, inr c).
Proof.
  intros Hc. unfold getController, withController. rewrite Hc. simpl.
  rewrite drop_all, deliver_nil.
  destruct a as [[] ?]. simpl in *. by subst.
Qed.

Lemma getController_None (a : Api) :
  controller (state a) = None ->
  getController a = (a, inl {| err_name := Error;
                               err_message := "No active session. Call POST /session/init first." |}).
Proof. intros Hc. unfold getController, withController. by rewrite Hc. Qed.

(** X6. Without a session, every route but [GET /health], [GET /session]
    and [POST /session/init] answers 500 "No active session. Call POST
    /session/init first."; [GET /health] answers 200 with the uptime and
    [session: false], and [GET /session] answers 200 with
    [initialized: false]. None of them changes anything: neither the state
    of the API nor the files. *)
Theorem X6_routes_need_a_session (r : Request) (a : Api) :
  controller (state a) = None ->
  (needs_session r = true ->
   match r with
   | POST_session_shutdown _ _ => initLock (state a) = false
   | _ => True
   end ->
   handle r a = (a, no_session))
  /\ handle GET_health a
     = (a, {| status := 200;
              body := health_body "ok"
                        (now (api_world a) - startTime (state a)) false |})
  /\ handle GET_session a
     = (a, {| status := 200; body := session_body false EmptyString |}).
Proof.
  intros Hc. split_and!.
  - intros Hr Hlock. unfold handle.
    destruct r; try discriminate Hr; unfold route, bind;
      try (rewrite (getController_None a Hc); reflexivity).
    simpl. rewrite Hlock. by rewrite (getController_None a Hc).
  - unfold handle, route, bind, gets, c_json, ret. by rewrite Hc.
  - unfold handle, route, bind, gets. by rewrite Hc.
Qed.

Lemma X6_witness :
  handle (POST_agent_kill "w1")
    {| state := createApi None 0; api_world := empty_World |}
  = ({| state := createApi None 0; api_world := empty_World |}, no_session).
Proof.
  apply (proj1 (X6_routes_need_a_session (POST_agent_kill "w1")
                  {| state := createApi None 0; api_world := empty_World |}
                  eq_refl));
    reflexivity.
Defined.

(** X7. A request that lacks a required field of its body (absent, or the
    empty string) is answered 400 with the name of the field, before
    anything is done: no message is written, no task is created or
    assigned, no approval is resolved. [POST /tasks/:id/assign] checks the
    agent before it looks the task up. *)
Theorem X7_missing_field_is_refused_unchanged (a : Api)
    (c : ClaudeCodeController) :
  controller (state a) = Some c ->
  (forall body, truthy (sa_name body) = false ->
     handle (POST_agents body) a = (a, bad_request "name is required"))
  /\ (forall name body, truthy (sm_message body) = false ->
        handle (POST_agent_messages name body) a
        = (a, bad_request "message is required"))
  /\ (forall name body, truthy (apl_requestId body) = false ->
        handle (POST_agent_approve_plan name body) a
        = (a, bad_request "requestId is required"))
  /\ (forall name body, truthy (ape_requestId body) = false ->
        handle (POST_agent_approve_permission name body) a
        = (a, bad_request "requestId is required"))
  /\ (forall body, truthy (sm_message body) = false ->
        handle (POST_broadcast body) a
        = (a, bad_request "message is required"))
  /\ (forall body,
        truthy (ct_subject body) = false
        \/ truthy (ct_description body) = false ->
        handle (POST_tasks body) a
        = (a, bad_request "subject and description are required"))
  /\ (forall id body, truthy (at_agent body) = false ->
        handle (POST_task_assign id body) a
        = (a, bad_request "agent is required")).
Proof.
  intros Hc. split_and!; intros;
    unfold handle, route, bind; rewrite (getController_Some a c Hc);
    try match goal with H : _ \/ _ |- _ => destruct H as [H | H] end;
    try match goal with H : truthy _ = false |- _ => rewrite H end;
    simpl; rewrite ?orb_true_r; reflexivity.
Qed.

Lemma X7_witness :
  handle (POST_task_assign "999" {| at_agent := Some EmptyString |}) sample_api
  = (sample_api, bad_request "agent is required").
Proof.
  assert (controller (state sample_api) = Some (ctrl sample_ready)) as H
    by reflexivity.
  apply (proj2 (proj2 (proj2 (proj2 (proj2 (proj2
           (X7_missing_field_is_refused_unchanged sample_api _ H))))))).
  reflexivity.
Defined.

(** X8. [POST /agents] refuses a name that is not 1-64 letters, digits,
    hyphens or underscores with 400 and the validation message, before it
    registers the agent type or spawns anything. *)
Theorem X8_spawn_route_refuses_unsafe_names (a : Api)
    (c : ClaudeCodeController) (body : SpawnAgentBody) (name : string) :
  controller (state a) = Some c ->
  sa_name body = Some name ->
  name <> EmptyString ->
  SAFE_NAME_RE_test name = false ->
  handle (POST_agents body) a = (a, bad_request (invalid_name "name")).
Proof.
  intros Hc Hname Hne Hbad.
  unfold handle, route, bind. rewrite (getController_Some a c Hc).
  rewrite Hname, (truthy_Some name Hne). simpl.
  unfold validateName. rewrite Hbad. reflexivity.
Qed.

Lemma X8_witness :
  handle (POST_agents
            {| sa_name := Some "../../etc"; sa_type := None; sa_model := None;
               sa_cwd := None; sa_permissions := None; sa_env := None |})
         sample_api
  = (sample_api, bad_request (invalid_name "name")).
Proof.
  apply (X8_spawn_route_refuses_unsafe_names sample_api (ctrl sample_ready)
           _ "../../etc"); [reflexivity | reflexivity | discriminate | reflexivity].
Defined.

(** X9. [POST /session/init] with a team name that is not safe answers 400
    and leaves the API as it was: the session in place is neither shut
    down nor replaced, the tracker keeps its entries, and the lock taken
    for the initialisation is released. *)
Theorem X9_init_with_unsafe_team_name_keeps_the_session (a : Api)
    (body : InitSessionBody) (name uuid process_cwd : string)
    (exits : list (string * option Z)) (waited : N) :
  initLock (state a) = false ->
  is_teamName body = Some name ->
  name <> EmptyString ->
  SAFE_NAME_RE_test name = false ->
  handle (POST_session_init body uuid process_cwd exits waited) a
  = (a, bad_request (invalid_name "teamName")).
Proof.
  intros Hlock Hname Hne Hbad.
  unfold handle, route, bind. simpl. rewrite Hlock. simpl.
  unfold finally_unlock, bind. rewrite Hname, (truthy_Some name Hne). simpl.
  unfold validateName. rewrite Hbad. simpl.
  destruct a as [[] ?]. simpl in *. by subst.
Qed.

Lemma X9_witness :
  handle (POST_session_init
            {| is_teamName := Some "a/b"; is_cwd := None;
               is_claudeBinary := None; is_env := None |}
            EmptyString "/srv" [] 0) sample_api
  = (sample_api, bad_request (invalid_name "teamName")).
Proof.
  apply (X9_init_with_unsafe_team_name_keeps_the_session sample_api _ "a/b");
    [reflexivity | reflexivity | discriminate | reflexivity].
Defined.

(** *** The lock of the session routes *)

Lemma keeps_initLock_bind {A B} (m : M Api A) (k : A -> M Api B) :
  keeps_initLock m -> (forall x, keeps_initLock (k x)) ->
  keeps_initLock (bind m k).
Proof.
  intros Hm Hk a. unfold bind. specialize (Hm a).
  destruct (m a) as [a' [e | x]]; simpl in *; [done|].
  by rewrite (Hk x a').
Qed.

Lemma keeps_initLock_ret {A} (x : A) : keeps_initLock (ret x).
Proof. by intros a. Qed.

Lemma keeps_initLock_raise {A} (e : JsError) : keeps_initLock (@raise Api A e).
Proof. by intros a. Qed.

Lemma keeps_initLock_gets {A} (f : Api -> A) : keeps_initLock (gets f).
Proof. by intros a. Qed.

Lemma keeps_initLock_c_json (b : Body) (code : Z) : keeps_initLock (c_json b code).
Proof. by intros a. Qed.

Lemma keeps_initLock_validateName (value field : string) :
  keeps_initLock (validateName value field).
Proof. intros a. unfold validateName. by destruct (SAFE_NAME_RE_test value). Qed.

Lemma keeps_initLock_withController {A} (m : M Sys A) :
  keeps_initLock (withController m).
Proof.
  intros a. unfold withController.
  destruct (controller (state a)); [|done]. by destruct (m _).
Qed.

Lemma keeps_initLock_detached {A} (c : ClaudeCodeController) (m : M Sys A) :
  keeps_initLock (detached c m).
Proof. intros a. unfold detached. by destruct (m _). Qed.

Lemma keeps_initLock_catch_null {A} (m : M Api A) :
  keeps_initLock m -> keeps_initLock (catch_null m).
Proof.
  intros Hm a. unfold catch_null. specialize (Hm a).
  by destruct (m a) as [a' [e | x]].
Qed.

Lemma keeps_initLock_set_tracker (f : ActionTracker -> ActionTracker) :
  keeps_initLock (set_tracker f).
Proof. by intros a. Qed.

Lemma keeps_initLock_set_controller (c : option ClaudeCodeController) :
  keeps_initLock (set_state (set_controller c)).
Proof. by intros a. Qed.

Lemma keeps_initLock_set_owned (b : bool) :
  keeps_initLock (set_state (set_owned b)).
Proof. by intros a. Qed.

Create HintDb lock.

#[local] Hint Resolve keeps_initLock_ret keeps_initLock_raise
  keeps_initLock_gets keeps_initLock_c_json keeps_initLock_validateName
  keeps_initLock_withController keeps_initLock_detached
  keeps_initLock_set_tracker keeps_initLock_set_controller
  keeps_initLock_set_owned : lock.

Ltac keeps_lock :=
  repeat first
    [ progress (eauto 2 with lock)
    | apply keeps_initLock_bind; [|intros]
    | apply keeps_initLock_catch_null
    | match goal with
      | |- keeps_initLock (if ?b then _ else _) => destruct b
      | |- keeps_initLock (match ?x with _ => _ end) => destruct x
      end ].

Lemma route_keeps_initLock (r : Request) : keeps_initLock (route r).
Proof.
  destruct r; unfold route, getController; try (keeps_lock; fail).
  (* POST /session/init *)
  intros a. unfold bind at 1. simpl.
  destruct (initLock (state a)) eqn:Hlock; [done|].
  unfold bind at 1, set_state, modify, finally_unlock.
  by match goal with |- context [let (_, _) := ?m in _] => destruct m end.
Qed.

Lemma handle_keeps_initLock (r : Request) (a : Api) :
  initLock (state (fst (handle r a))) = initLock (state a).
Proof.
  rewrite <- (route_keeps_initLock r a). unfold handle.
  by destruct (route r a) as [a' [e | x]].
Qed.

(** X10. The lock that guards the session routes is never left held:
    whatever requests are handled one after the other, and however they
    end (validation error, failed initialisation, success), the lock is
    afterwards as it was before; from a new API it is free. While it is
    held, both session routes answer 409 and change nothing. *)
Theorem X10_session_lock_is_released (a : Api) (rs : list Request)
    (c : option ClaudeCodeController) (start : Z) (w : World)
    (body : InitSessionBody) (uuid process_cwd : string)
    (exits : list (string * option Z)) (waited : N) :
  initLock (state (serve a rs)) = initLock (state a)
  /\ initLock (state (serve {| state := createApi c start; api_world := w |} rs))
     = false
  /\ (initLock (state a) = true ->
      handle (POST_session_init body uuid process_cwd exits waited) a
      = (a, conflict "Session init already in progress")
      /\ handle (POST_session_shutdown exits waited) a
         = (a, conflict "Session init in progress")).
Proof.
  assert (forall a0, initLock (state (serve a0 rs)) = initLock (state a0)) as H.
  { unfold serve. induction rs as [|r rs IH]; intros a0; [done|].
    simpl. rewrite IH. apply handle_keeps_initLock. }
  split_and!; [apply H | by rewrite H |].
  intros Hlock. unfold handle, route, bind. simpl. by rewrite Hlock.
Qed.

Lemma X10_witness :
  handle (POST_session_shutdown [] 0)
    {| state := set_initLock true (createApi None 0);
       api_world := empty_World |}
  = ({| state := set_initLock true (createApi None 0);
        api_world := empty_World |},
     conflict "Session init in progress").
Proof.
  exact (proj2 (proj2 (proj2
           (X10_session_lock_is_released
              {| state := set_initLock true (createApi None 0);
                 api_world := empty_World |}
              [] None 0 empty_World
              {| is_teamName := None; is_cwd := None;
                 is_claudeBinary := None; is_env := None |}
              EmptyString EmptyString [] 0)) eq_refl)).
Defined.

(** X11. [POST /session/shutdown] ends the session whoever owns the
    controller: the slot is emptied, the tracker cleared and detached, the
    answer is 200. Only a controller the API created itself is shut down;
    one that was handed to [createApi] is left running and its files
    untouched. Afterwards [GET /session] reports no session and the other
    routes answer 500. *)
Theorem X11_shutdown_route_ends_the_session (a : Api)
    (c : ClaudeCodeController) (exits : list (string * option Z))
    (waited : N) :
  initLock (state a) = false ->
  controller (state a) = Some c ->
  let a' := fst (handle (POST_session_shutdown exits waited) a) in
  snd (handle (POST_session_shutdown exits waited) a)
    = {| status := 200; body := ok_body |}
  /\ controller (state a') = None
  /\ owned (state a') = false
  /\ tracker (state a') = clear (tracker (state a))
  /\ api_world a'
     = (if owned (state a)
        then world (fst (shutdown exits waited
                           {| ctrl := c; world := api_world a |}))
        else api_world a)
  /\ handle GET_session a'
     = (a', {| status := 200; body := session_body false EmptyString |})
  /\ handle GET_agents a' = (a', no_session).
Proof.
  intros Hlock Hc.
  assert (exists a1,
            handle (POST_session_shutdown exits waited) a
            = (a1, {| status := 200; body := ok_body |})
            /\ controller (state a1) = None
            /\ owned (state a1) = false
            /\ tracker (state a1) = clear (tracker (state a))
            /\ api_world a1
               = (if owned (state a)
                  then world (fst (shutdown exits waited
                                     {| ctrl := c; world := api_world a |}))
                  else api_world a)) as (a1 & Heq & H1 & H2 & H3 & H4).
  { unfold handle, route. unfold bind at 1. simpl. rewrite Hlock.
    unfold bind at 1. rewrite (getController_Some a c Hc).
    unfold bind, set_tracker, set_state, modify, gets, detached. simpl.
    destruct (owned (state a)); simpl.
    - destruct (shutdown_clears_flag exits waited
                  {| ctrl := c; world := api_world a |}) as (s' & Hs & _).
      rewrite Hs. simpl. eexists. split; [reflexivity|]. done.
    - eexists. split; [reflexivity|]. done. }
  rewrite Heq. simpl. split_and!; try done.
  - unfold handle, route, bind, gets. simpl. by rewrite H1.
  - unfold handle, route, bind. by rewrite (getController_None a1 H1).
Qed.

Lemma X11_witness :
  api_world (fst (handle (POST_session_shutdown [] 0) sample_api))
  = api_world sample_api.
Proof.
  exact (proj1 (proj2 (proj2 (proj2 (proj2
           (X11_shutdown_route_ends_the_session sample_api
              (ctrl sample_ready) [] 0 eq_refl eq_refl)))))).
Defined.

Lemma SAFE_NAME_RE_test_nonempty (name : string) :
  SAFE_NAME_RE_test name = true -> name <> EmptyString.
Proof. by intros H ->. Qed.

Lemma or_else_Some (x d : string) : x <> EmptyString -> or_else (Some x) d = x.
Proof. intros H. simpl. by destruct (String.eqb_spec x EmptyString). Qed.

(** X12. [POST /session/init] with a safe team name that is not in use
    creates the team and answers 201: the API then holds an initialised
    controller of that name, owns it, and its tracker listens to it. A
    controller that was handed to [createApi] is replaced without being
    shut down (its files stay), and what the tracker had recorded for it is
    dropped. *)
Theorem X12_init_route_starts_an_owned_session (a : Api)
    (body : InitSessionBody) (name uuid process_cwd : string)
    (exits : list (string * option Z)) (waited : N) :
  initLock (state a) = false ->
  owned (state a) = false ->
  is_teamName body = Some name ->
  SAFE_NAME_RE_test name = true ->
  teams (api_world a) !! name = None ->
  exists a' c',
    handle (POST_session_init body uuid process_cwd exits waited) a
    = (a', {| status := 201; body := session_body true name |})
    /\ controller (state a') = Some c'
    /\ teamName c' = name
    /\ cwd c' = or_else (is_cwd body) process_cwd
    /\ initialized c' = true
    /\ owned (state a') = true
    /\ initLock (state a') = false
    /\ currentController (tracker (state a')) = Some name
    /\ (controller (state a) <> None ->
        getPendingApprovals (tracker (state a')) = []
        /\ getIdleAgents (tracker (state a')) = [])
    /\ is_Some (teams (api_world a') !! name)
    /\ (forall other, other <> name ->
          teams (api_world a') !! other = teams (api_world a) !! other)
    /\ inboxes (api_world a') = inboxes (api_world a).
Proof.
  intros Hlock Howned Hname Hsafe Hfree.
  pose proof (SAFE_NAME_RE_test_nonempty name Hsafe) as Hne.
  assert (String.eqb name EmptyString = false) as Heqb
    by by apply String.eqb_neq.
  unfold handle, route. unfold bind at 1. simpl. rewrite Hlock.
  unfold bind at 1, set_state, modify, finally_unlock.
  rewrite Hname, (truthy_Some name Hne). simpl.
  unfold validateName. rewrite Hsafe.
  unfold bind at 1. simpl. unfold bind at 1. simpl.
  destruct (controller (state a)) as [c0|] eqn:Hc0;
    unfold bind, set_tracker, set_state, modify, gets, ret; simpl;
    rewrite ?Howned; simpl;
    unfold init, bind, gets, onWorld, team_create, update_ctrl, modify, ret;
    simpl; rewrite ?Heqb;
    unfold bind, gets, randomUUID, modify, ret, c_json; simpl;
    rewrite Hfree; simpl; rewrite ?Heqb;
    (do 2 eexists; split; [reflexivity|]); simpl; rewrite ?Heqb;
    split_and!; try done;
    destruct (ledgers (api_world a) !! name); simpl; rewrite ?Heqb;
    try done;
    try (by rewrite lookup_insert_eq);
    try (intros other Hother; by rewrite lookup_insert_ne).
Qed.

Lemma X12_witness :
  exists a' c',
    handle (POST_session_init
              {| is_teamName := Some "t1"; is_cwd := None;
                 is_claudeBinary := None; is_env := None |}
              EmptyString "/srv" [] 0)
           {| state := createApi None 0; api_world := empty_World |}
    = (a', {| status := 201; body := session_body true "t1" |})
    /\ controller (state a') = Some c'
    /\ initialized c' = true
    /\ owned (state a') = true.
Proof.
  destruct (X12_init_route_starts_an_owned_session
              {| state := createApi None 0; api_world := empty_World |}
              {| is_teamName := Some "t1"; is_cwd := None;
                 is_claudeBinary := None; is_env := None |}
              "t1" EmptyString "/srv" [] 0
              eq_refl eq_refl eq_refl eq_refl eq_refl)
    as (a' & c' & H1 & H2 & _ & _ & H3 & H4 & _).
  exists a', c'. done.
Defined.

(** ** The controller, continued *)

Lemma filter_named_app_new (name : string) (m : TeamMember)
    (ms : list TeamMember) :
  tm_name m = name ->
  List.filter (named name)
    (List.filter (fun x => negb (named name x)) ms ++ [m])%list
  = [m].
Proof.
  intros <-. rewrite List.filter_app. simpl. unfold named.
  rewrite String.eqb_refl.
  induction ms as [|x ms IH]; [done|]. simpl.
  destruct (String.eqb (tm_name x) (tm_name m)) eqn:E; simpl; [done|].
  by rewrite E.
Qed.

Lemma filter_named_app_other (name other : string) (m : TeamMember)
    (ms : list TeamMember) :
  tm_name m = name -> other <> name ->
  List.filter (named other)
    (List.filter (fun x => negb (named name x)) ms ++ [m])%list
  = List.filter (named other) ms.
Proof.
  intros <- Hne. rewrite List.filter_app. simpl. unfold named.
  destruct (String.eqb_spec (tm_name m) other) as [E|_]; [by subst|].
  rewrite app_nil_r. induction ms as [|x ms IH]; [done|]. simpl.
  destruct (String.eqb_spec (tm_name x) (tm_name m)) as [Hx|Hx]; simpl.
  - destruct (String.eqb_spec (tm_name x) other) as [E|_]; [congruence|].
    exact IH.
  - destruct (String.eqb (tm_name x) other); by rewrite IH.
Qed.

(** What a successful [spawnAgent] does, piece by piece. *)
Lemma spawnAgent_effects (opts : SpawnAgentOptions) (s : Sys)
    (cfg : TeamConfig) :
  initialized (ctrl s) = true ->
  teams (world s) !! teamName (ctrl s) = Some cfg ->
  isRunning (so_name opts) (ctrl s) = false ->
  exists s' p member,
    spawnAgent opts s
    = (s', inr {| h_name := so_name opts;
                  h_pid := Some (next_pid (world s)) |})
    /\ JsMap.get (so_name opts) (processes (ctrl s')) = Some p
    /\ proc_running p = true /\ proc_onExit p = true
    /\ proc_pid p = Some (next_pid (world s))
    /\ sp_color (proc_spec p) = color_of (colorIndex (ctrl s))
    /\ sp_agentId (proc_spec p) = so_name opts ++ "@" ++ teamName (ctrl s)
    /\ sp_cwd (proc_spec p) = or_else (so_cwd opts) (cwd (ctrl s))
    /\ sp_parentSessionId (proc_spec p) = sessionId (ctrl s)
    /\ colorIndex (ctrl s') = N.succ (colorIndex (ctrl s))
    /\ emitted (ctrl s')
       = (emitted (ctrl s)
          ++ [agent_spawned (so_name opts) (next_pid (world s))])%list
    /\ teamName (ctrl s') = teamName (ctrl s)
    /\ initialized (ctrl s') = true
    /\ (forall other, other <> so_name opts ->
          JsMap.get other (processes (ctrl s'))
          = JsMap.get other (processes (ctrl s)))
    /\ members_named (so_name opts) s' = [member]
    /\ tm_name member = so_name opts
    /\ tm_agentType member = or_else (so_type opts) "general-purpose"
    /\ tm_agentId member = so_name opts ++ "@" ++ teamName (ctrl s)
    /\ (forall other, other <> so_name opts ->
          members_named other s' = members_named other s)
    /\ inboxes (world s') = inboxes (world s)
    /\ ledgers (world s') = ledgers (world s)
    /\ now (world s') = now (world s).
Proof.
  intros Hinit Hcfg Hrun.
  unfold spawnAgent, bind. rewrite ensureInitialized_true by done.
  unfold gets, update_ctrl, modify, Date_now, onWorld, team_addMember,
    team_getConfig, bind, gets, modify, ret. simpl. rewrite Hcfg. simpl.
  unfold processes_spawn, bind, gets. simpl.
  replace (isRunning (so_name opts) (set_colorIndex _ (ctrl s))) with false
    by (by rewrite <- Hrun).
  simpl. unfold processes_onExit, update_ctrl, modify, emit, update_ctrl,
    modify. simpl.
  do 3 eexists. split; [reflexivity|]. unfold set_processes. simpl.
  rewrite !JsMap_get_set_eq. split_and!; try done.
  - intros other Hne. rewrite !JsMap_get_set_ne by done. done.
  - unfold members_named, team_members. simpl. rewrite lookup_insert_eq. simpl.
    by apply filter_named_app_new.
  - done.
  - done.
  - done.
  - intros other Hne. unfold members_named, team_members. simpl.
    rewrite lookup_insert_eq, Hcfg. simpl.
    by apply filter_named_app_other.
Qed.

Lemma color_of_listed (k : N) : In (color_of k) AGENT_COLORS.
Proof.
  unfold color_of. apply nth_In.
  pose proof (N.mod_upper_bound k (N.of_nat (length AGENT_COLORS))) as H.
  simpl in *. lia.
Qed.

Lemma color_of_period (k : N) :
  color_of (k + N.of_nat (length AGENT_COLORS)) = color_of k.
Proof.
  unfold color_of. f_equal. f_equal. simpl length.
  rewrite <- (N.Div0.add_mod_idemp_r k), N.Div0.mod_same, N.add_0_r. done.
Qed.

(** X13. A successful [spawnAgent] launches one process under the agent's
    name, with the exit listener armed, and returns its handle; the agent
    is then a member of the team, with the type given ("general-purpose"
    when none is) and the id name@team; one [agent:spawned] event is
    emitted; the other agents, the mailboxes and the tasks are not
    touched. The colour handed to the process is the next of the eight
    predefined ones, and they repeat with period eight. *)
Theorem X13_spawnAgent_registers_and_launches (opts : SpawnAgentOptions)
    (s : Sys) :
  initialized (ctrl s) = true ->
  is_Some (teams (world s) !! teamName (ctrl s)) ->
  isRunning (so_name opts) (ctrl s) = false ->
  exists s' p member,
    spawnAgent opts s
    = (s', inr {| h_name := so_name opts;
                  h_pid := Some (next_pid (world s)) |})
    /\ JsMap.get (so_name opts) (processes (ctrl s')) = Some p
    /\ proc_running p = true /\ proc_onExit p = true
    /\ isRunning (so_name opts) (ctrl s') = true
    /\ In member (team_members s')
    /\ tm_name member = so_name opts
    /\ tm_agentType member = or_else (so_type opts) "general-purpose"
    /\ tm_agentId member = so_name opts ++ "@" ++ teamName (ctrl s)
    /\ (forall other, other <> so_name opts ->
          members_named other s' = members_named other s
          /\ isRunning other (ctrl s') = isRunning other (ctrl s))
    /\ emitted (ctrl s')
       = (emitted (ctrl s)
          ++ [agent_spawned (so_name opts) (next_pid (world s))])%list
    /\ inboxes (world s') = inboxes (world s)
    /\ ledgers (world s') = ledgers (world s)
    /\ sp_color (proc_spec p) = color_of (colorIndex (ctrl s))
    /\ colorIndex (ctrl s') = N.succ (colorIndex (ctrl s))
    /\ In (sp_color (proc_spec p)) AGENT_COLORS
    /\ color_of (colorIndex (ctrl s) + 8) = color_of (colorIndex (ctrl s)).
Proof.
  intros Hinit [cfg Hcfg] Hrun.
  destruct (spawnAgent_effects opts s cfg Hinit Hcfg Hrun)
    as (s' & p & member & Heq & Hp & Hr & Hx & Hpid & Hcol & Hid & Hcwd & Hsid
        & Hci & Hem & Htn & Hin & Hother & Hm & Hmn & Hmt & Hmi & Hmo & Hib
        & Hl & Hnow).
  exists s', p, member. split_and!; try done.
  - unfold isRunning. by rewrite Hp.
  - unfold members_named in Hm.
    assert (In member (List.filter (named (so_name opts)) (team_members s')))
      as Hlisted by (rewrite Hm; by left).
    by apply filter_In in Hlisted as [? _].
  - intros other Hne. split; [by apply Hmo|].
    unfold isRunning. by rewrite Hother.
  - rewrite Hcol. apply color_of_listed.
  - apply (color_of_period (colorIndex (ctrl s))).
Qed.

Lemma X13_witness :
  exists s',
    spawnAgent sample_spawn sample_ready
    = (s', inr {| h_name := "w1"; h_pid := Some 1000 |})
    /\ isRunning "w1" (ctrl s') = true.
Proof.
  destruct (X13_spawnAgent_registers_and_launches sample_spawn sample_ready
              eq_refl (ex_intro _ _ eq_refl) eq_refl)
    as (s' & p & member & H1 & _ & _ & _ & H2 & _).
  exists s'. split; [exact H1 | exact H2].
Defined.

(** ** The routes over a session *)

Lemma withController_run {A} (m : M Sys A) (a : Api)
    (c : ClaudeCodeController) (s' : Sys) (r : JsError + A) :
  controller (state a) = Some c ->
  m {| ctrl := c; world := api_world a |} = (s', r) ->
  withController m a
  = ({| state := {| controller := Some (ctrl s');
                    tracker := deliver (teamName c)
                                 (toISOString (now (world s')))
                                 (drop (length (emitted c)) (emitted (ctrl s')))
                                 (tracker (state a));
                    owned := owned (state a);
                    initLock := initLock (state a);
                    startTime := startTime (state a) |};
        api_world := world s' |}, r).
Proof. intros Hc Hm. unfold withController. by rewrite Hc, Hm. Qed.

Lemma deliver_attached (source nowIso : string)
    (events : list ControllerEvent) (t : ActionTracker) :
  currentController t = Some source ->
  deliver source nowIso events t
  = fold_left (fun t' e => tracker_on nowIso e t') events t.
Proof. intros H. unfold deliver. by rewrite H, String.eqb_refl. Qed.

(** X14. A successful [POST /agents] answers 201 with the name, the pid
    and [running: true]; the tracker has recorded the type of the agent
    ("general-purpose" when the body gives none) and, hearing
    [agent:spawned], no longer lists the agent as idle; the pending
    approvals are not touched. *)
Theorem X14_spawn_route_registers_the_agent (a : Api)
    (c : ClaudeCodeController) (body : SpawnAgentBody) (name : string) :
  controller (state a) = Some c ->
  initialized c = true ->
  is_Some (teams (api_world a) !! teamName c) ->
  isRunning name c = false ->
  currentController (tracker (state a)) = Some (teamName c) ->
  sa_name body = Some name ->
  SAFE_NAME_RE_test name = true ->
  exists a' c',
    handle (POST_agents body) a
    = (a', {| status := 201;
              body := spawned_body name (Some (next_pid (api_world a))) true |})
    /\ controller (state a') = Some c'
    /\ isRunning name c' = true
    /\ JsMap.get name (agentTypes (tracker (state a')))
       = Some (or_else (sa_type body) "general-purpose")
    /\ JsMap.get name (idles (tracker (state a'))) = None
    /\ (forall other, other <> name ->
          JsMap.get other (idles (tracker (state a')))
          = JsMap.get other (idles (tracker (state a))))
    /\ approvals (tracker (state a')) = approvals (tracker (state a))
    /\ inboxes (api_world a') = inboxes (api_world a)
    /\ ledgers (api_world a') = ledgers (api_world a).
Proof.
  intros Hc Hinit [cfg Hcfg] Hrun Hatt Hname Hsafe.
  pose proof (SAFE_NAME_RE_test_nonempty name Hsafe) as Hne.
  set (opts := {| so_name := name; so_type := sa_type body;
                  so_model := sa_model body; so_cwd := sa_cwd body;
                  so_permissions := sa_permissions body;
                  so_permissionMode := None; so_env := sa_env body |}).
  destruct (spawnAgent_effects opts {| ctrl := c; world := api_world a |} cfg
              Hinit Hcfg Hrun)
    as (s' & p & member & Heq & Hp & Hr & Hx & Hpid & Hcol & Hid & Hcwd & Hsid
        & Hci & Hem & Htn & Hin & Hother & Hm & Hmn & Hmt & Hmi & Hmo & Hib
        & Hl & Hnow).
  simpl in *.
  unfold handle, route. unfold bind at 1.
  rewrite (getController_Some a c Hc). rewrite Hname, (truthy_Some name Hne).
  cbn [negb default from_option id].
  unfold bind at 1. unfold validateName at 1. rewrite Hsafe. cbn [ret].
  unfold bind at 1. cbn [set_tracker modify].
  unfold bind at 1.
  erewrite withController_run; [|exact Hc|exact Heq].
  unfold bind at 1. cbn [h_name h_pid].
  erewrite withController_run; [|reflexivity|reflexivity].
  cbn [c_json ret isAgentRunning gets ctrl world state controller tracker
       api_world].
  rewrite Hem, drop_app_length, drop_all, deliver_nil.
  rewrite deliver_attached by done.
  do 2 eexists. split.
  { f_equal. f_equal. f_equal. unfold isRunning. by rewrite Hp. }
  cbn [state controller tracker api_world fold_left tracker_on].
  split_and!; try done.
  - unfold isRunning. by rewrite Hp.
  - simpl. by rewrite JsMap_get_set_eq.
  - simpl. apply JsMap_get_delete_eq.
  - intros other Hne'. simpl. apply JsMap_get_delete_ne. congruence.
Qed.

Lemma X14_witness :
  exists a',
    handle (POST_agents
              {| sa_name := Some "w1"; sa_type := None; sa_model := None;
                 sa_cwd := None; sa_permissions := None; sa_env := None |})
           sample_api
    = (a', {| status := 201; body := spawned_body "w1" (Some 1000) true |})
    /\ JsMap.get "w1" (agentTypes (tracker (state a')))
       = Some "general-purpose".
Proof.
  destruct (X14_spawn_route_registers_the_agent sample_api (ctrl sample_ready)
              {| sa_name := Some "w1"; sa_type := None; sa_model := None;
                 sa_cwd := None; sa_permissions := None; sa_env := None |}
              "w1" eq_refl eq_refl (ex_intro _ _ eq_refl) eq_refl eq_refl
              eq_refl eq_refl)
    as (a' & c' & H1 & _ & _ & H2 & _).
  exists a'. split; [exact H1 | exact H2].
Defined.

Lemma filter_named_removed (name : string) (ms : list TeamMember) :
  List.filter (named name) (List.filter (fun x => negb (named name x)) ms) = [].
Proof.
  induction ms as [|x ms IH]; [done|]. simpl.
  destruct (named name x) eqn:E; simpl; [done|]. by rewrite E.
Qed.

Lemma filter_named_kept (name other : string) (ms : list TeamMember) :
  other <> name ->
  List.filter (named other) (List.filter (fun x => negb (named name x)) ms)
  = List.filter (named other) ms.
Proof.
  intros Hne. induction ms as [|x ms IH]; [done|]. simpl.
  destruct (named name x) eqn:Hx; simpl.
  - unfold named in Hx. apply String.eqb_eq in Hx.
    destruct (named other x) eqn:Ho; [|exact IH].
    unfold named in Ho. apply String.eqb_eq in Ho. congruence.
  - destruct (named other x); by rewrite IH.
Qed.

(** What [killAgent] does, piece by piece. *)
Lemma killAgent_effects (name : string) (s : Sys) (cfg : TeamConfig) :
  teams (world s) !! teamName (ctrl s) = Some cfg ->
  exists s',
    killAgent name s = (s', inr tt)
    /\ isRunning name (ctrl s') = false
    /\ emitted (ctrl s')
       = (emitted (ctrl s)
          ++ (if armed name (ctrl s) then [agent_exited name None] else []))%list
    /\ teamName (ctrl s') = teamName (ctrl s)
    /\ initialized (ctrl s') = initialized (ctrl s)
    /\ members_named name s' = []
    /\ (forall other, other <> name ->
          members_named other s' = members_named other s
          /\ JsMap.get other (processes (ctrl s'))
             = JsMap.get other (processes (ctrl s)))
    /\ inboxes (world s') = inboxes (world s)
    /\ ledgers (world s') = ledgers (world s)
    /\ now (world s') = now (world s).
Proof.
  intros Hcfg. destruct s as [c w]. simpl in Hcfg.
  unfold killAgent, processes_kill, process_exit, armed, isRunning.
  unfold bind at 1. unfold bind at 1. cbn [gets ctrl world].
  destruct (JsMap.get name (processes c)) as [p|] eqn:Hp.
  - destruct (proc_running p) eqn:Hrun.
    + unfold bind at 1. cbn [update_ctrl modify ctrl world].
      destruct (proc_onExit p) eqn:Harm; cbn [andb];
        unfold emit, update_ctrl, modify, bind, gets, onWorld,
          team_removeMember, team_getConfig, bind, gets, ret, modify;
        simpl; rewrite Hcfg; simpl;
        (eexists; split; [reflexivity|]); simpl;
        rewrite ?JsMap_get_set_eq, ?app_nil_r; unfold members_named, team_members; simpl;
        rewrite lookup_insert_eq; simpl;
        (split_and!; try done; [apply filter_named_removed|]);
        intros other Hne; rewrite Hcfg;
        (split; [by apply filter_named_kept|]);
        by rewrite JsMap_get_set_ne.
    + unfold bind, gets, onWorld, team_removeMember, team_getConfig, bind,
        gets, ret, modify. simpl. rewrite Hcfg. simpl.
      eexists. split; [reflexivity|]. simpl. rewrite Hp, Hrun, app_nil_r.
      unfold members_named, team_members. simpl. rewrite lookup_insert_eq. simpl.
      split_and!; try done; [apply filter_named_removed|].
      intros other Hne. rewrite Hcfg. split; [by apply filter_named_kept|done].
  - unfold bind, gets, onWorld, team_removeMember, team_getConfig, bind,
      gets, ret, modify. simpl. rewrite Hcfg. simpl.
    eexists. split; [reflexivity|]. simpl. rewrite Hp, app_nil_r.
    unfold members_named, team_members. simpl. rewrite lookup_insert_eq. simpl.
    split_and!; try done; [apply filter_named_removed|].
    intros other Hne. rewrite Hcfg. split; [by apply filter_named_kept|done].
Qed.

(** X15. [POST /agents/:name/kill] answers 200 for any name, known or not:
    afterwards no process of that name is running and the team has no
    member of that name, while the other agents and members, the
    mailboxes and the tasks are as before. When the killed process was
    alive with its exit listener armed, the tracker hears [agent:exited]
    and drops what it held for the agent; otherwise the tracker is not
    touched. *)
Theorem X15_kill_route_removes_the_agent (a : Api)
    (c : ClaudeCodeController) (name : string) :
  controller (state a) = Some c ->
  is_Some (teams (api_world a) !! teamName c) ->
  currentController (tracker (state a)) = Some (teamName c) ->
  exists a' c',
    handle (POST_agent_kill name) a
    = (a', {| status := 200; body := ok_body |})
    /\ controller (state a') = Some c'
    /\ isRunning name c' = false
    /\ members_named name {| ctrl := c'; world := api_world a' |} = []
    /\ (forall other, other <> name ->
          isRunning other c' = isRunning other c
          /\ members_named other {| ctrl := c'; world := api_world a' |}
             = members_named other {| ctrl := c; world := api_world a |})
    /\ tracker (state a')
       = (if armed name c then onExited name (tracker (state a))
          else tracker (state a))
    /\ inboxes (api_world a') = inboxes (api_world a)
    /\ ledgers (api_world a') = ledgers (api_world a).
Proof.
  intros Hc [cfg Hcfg] Hatt.
  destruct (killAgent_effects name {| ctrl := c; world := api_world a |} cfg
              Hcfg)
    as (s' & Heq & Hrun & Hem & Htn & Hin & Hm & Hother & Hib & Hl & Hnow).
  destruct s' as [c' w']. simpl in *.
  unfold handle, route. unfold bind at 1.
  rewrite (getController_Some a c Hc).
  unfold bind at 1.
  erewrite withController_run; [|exact Hc|exact Heq].
  cbn [c_json ret ctrl world]. rewrite Hem, drop_app_length.
  rewrite deliver_attached by done.
  exists {| state := {| controller := Some c';
                        tracker := if armed name c
                                   then onExited name (tracker (state a))
                                   else tracker (state a);
                        owned := owned (state a);
                        initLock := initLock (state a);
                        startTime := startTime (state a) |};
            api_world := w' |}, c'.
  split; [by destruct (armed name c)|].
  cbn [state controller tracker api_world].
  split_and!; try done.
  - intros other Hne. destruct (Hother other Hne) as [H1 H2].
    split; [|done]. unfold isRunning. by rewrite H2.
Qed.

Lemma X15_witness :
  exists a',
    handle (POST_agent_kill "nobody") sample_api
    = (a', {| status := 200; body := ok_body |})
    /\ tracker (state a') = tracker (state sample_api).
Proof.
  destruct (X15_kill_route_removes_the_agent sample_api (ctrl sample_ready)
              "nobody" eq_refl (ex_intro _ _ eq_refl) eq_refl)
    as (a' & c' & H1 & _ & _ & _ & _ & H2 & _).
  exists a'. split; [exact H1 | exact H2].
Defined.

(** ** Receiving, continued *)

Lemma controller_unread_after_read (s : Sys) :
  controller_unread (after_read s) = [].
Proof.
  unfold after_read, readUnread_controller, controller_unread, readUnread,
    unread, mailbox.
  destruct (inboxes (world s) !! (teamName (ctrl s), "controller"))
    as [mb|] eqn:E; simpl.
  - rewrite lookup_insert_eq. simpl. apply drop_all.
  - by rewrite E.
Qed.

(** X16. With a timeout that is zero or negative (a safe integer),
    [receive] and [receiveAny] throw their timeout error at once: the
    mailbox is not read, so a message that is waiting there stays unread,
    and no time is spent asleep. *)
Theorem X16_non_positive_timeout_throws_unread (agentName : string)
    (opts : ReceiveOptions) (timeout : Z) (script : list EnvStep) (s : Sys) :
  ro_timeout opts = Some timeout ->
  safe_integer timeout ->
  timeout <= 0 ->
  receive agentName opts script s = (s, inl (timeout_error timeout agentName))
  /\ receiveAny opts script s = (s, inl (any_timeout_error timeout)).
Proof.
  intros Hopt _ Hle.
  assert ((now (world s) <? now (world s) + timeout) = false) as Hnow
    by (apply Z.ltb_ge; lia).
  split.
  - unfold receive, bind, Date_now, gets. rewrite Hopt. cbn [default from_option id].
    by rewrite receive_loop_unfold, Hnow.
  - unfold receiveAny, bind, Date_now, gets. rewrite Hopt.
    cbn [default from_option id].
    by rewrite receiveAny_loop_unfold, Hnow.
Qed.

Lemma X16_witness :
  controller_unread sample_idle_only = [sample_protocol_reply; sample_idle]
  /\ receive "w1" {| ro_timeout := Some 0; ro_pollInterval := None;
                     ro_all := None |} sample_script_reply sample_idle_only
     = (sample_idle_only, inl (timeout_error 0 "w1")).
Proof.
  split; [vm_compute; reflexivity|].
  apply (X16_non_positive_timeout_throws_unread "w1"
           {| ro_timeout := Some 0; ro_pollInterval := None; ro_all := None |}
           0 sample_script_reply sample_idle_only eq_refl).
  - unfold safe_integer. lia.
  - lia.
Defined.

Lemma filter_filter_and {A} (f g : A -> bool) (l : list A) :
  List.filter g (List.filter f l) = List.filter (fun x => f x && g x) l.
Proof.
  induction l as [|x l IH]; [done|]. simpl.
  destruct (f x); simpl; [|done]. destruct (g x); by rewrite IH.
Qed.

Lemma receive_pick_prefers_content (agentName : string) (all : bool)
    (batch : list InboxMessage) :
  let content :=
    List.filter (fun m => from_agent agentName m && is_meaningful m) batch in
  let idles :=
    List.filter (fun m => from_agent agentName m && is_idle m) batch in
  receive_pick agentName all batch
  = match content, idles with
    | _ :: _, _ => Some (all_or_first all content)
    | [], _ :: _ => Some (all_or_first all idles)
    | [], [] => None
    end.
Proof.
  intros content idles. subst content idles. unfold receive_pick.
  rewrite <- !filter_filter_and.
  destruct (List.filter (from_agent agentName) batch) as [|m l]; [done|].
  destruct (List.filter is_meaningful (m :: l)) as [|m0 more];
    [|by destruct all].
  destruct (List.filter is_idle (m :: l)) as [|i0 more]; [done|].
  by destruct all.
Qed.

(** X17. With a positive timeout, [receive(agent)] answers from the first
    batch it reads whenever that batch holds a content message or an idle
    notification of the agent: content is preferred, so an idle
    notification is returned only when the agent sent no content, and the
    two are never mixed; without [all] the result is the first such
    message alone, with [all] every one of them, in order of arrival. *)
Theorem X17_receive_prefers_content_to_idle (agentName : string)
    (opts : ReceiveOptions) (script : list EnvStep) (s : Sys) :
  0 < default 60000 (ro_timeout opts) ->
  let content :=
    List.filter (fun m => from_agent agentName m && is_meaningful m)
      (controller_unread s) in
  let idles :=
    List.filter (fun m => from_agent agentName m && is_idle m)
      (controller_unread s) in
  let returned l :=
    receive agentName opts script s
    = (after_read s,
       inr (Got (all_or_first (default false (ro_all opts)) l))) in
  (content <> [] -> returned content)
  /\ (content = [] -> idles <> [] -> returned idles).
Proof.
  intros Hpos content idles returned. subst returned. cbv beta.
  assert ((now (world s) <? now (world s) + default 60000 (ro_timeout opts))
          = true) as Hnow by (apply Z.ltb_lt; lia).
  unfold receive, bind, Date_now, gets.
  rewrite receive_loop_unfold, Hnow, receive_pick_prefers_content.
  fold content idles.
  split.
  - intros Hc. by destruct content.
  - intros -> Hi. by destruct idles.
Qed.

Lemma X17_witness :
  receive "w1" sample_receive_options [] sample_idle_only
  = (after_read sample_idle_only, inr (Got [sample_idle])).
Proof.
  apply (proj2 (X17_receive_prefers_content_to_idle "w1"
                  sample_receive_options [] sample_idle_only eq_refl)).
  - vm_compute. reflexivity.
  - vm_compute. discriminate.
Defined.

Lemma receive_loop_drains (name : string) (all : bool)
    (timeout interval deadline : Z) (script : list EnvStep) :
  forall (s s' : Sys) (r : Waited (list InboxMessage)),
    receive_loop name all timeout interval deadline script s = (s', inr r) ->
    controller_unread s' = [].
Proof.
  induction script as [|e rest IH]; intros s s' r;
    rewrite receive_loop_unfold;
    destruct (now (world s) <? deadline); try discriminate;
    destruct (receive_pick name all (controller_unread s)) as [picked|];
    try (by apply IH);
    intros [= <- _]; apply controller_unread_after_read.
Qed.

Lemma receiveAny_loop_drains (timeout interval deadline : Z)
    (script : list EnvStep) :
  forall (s s' : Sys) (r : Waited InboxMessage),
    receiveAny_loop timeout interval deadline script s = (s', inr r) ->
    controller_unread s' = [].
Proof.
  induction script as [|e rest IH]; intros s s' r;
    rewrite receiveAny_loop_unfold;
    destruct (now (world s) <? deadline); try discriminate;
    destruct (List.filter is_meaningful (controller_unread s)) as [|m0 ?];
    try (by apply IH);
    intros [= <- _]; apply controller_unread_after_read.
Qed.

(** X18. When [receive] or [receiveAny] returns, the controller's mailbox
    has no unread message left: every batch read on the way was marked
    read as a whole, so the messages that were not returned (those of
    other agents, further messages of the same agent, protocol messages)
    are not seen by a later call. *)
Theorem X18_receive_consumes_the_whole_batch (agentName : string)
    (opts : ReceiveOptions) (script : list EnvStep) (s s' : Sys)
    (msgs : list InboxMessage) (m : InboxMessage) :
  receive agentName opts script s = (s', inr (Got msgs))
  \/ receiveAny opts script s = (s', inr (Got m)) ->
  controller_unread s' = [].
Proof.
  unfold receive, receiveAny, bind, Date_now, gets. intros [H | H].
  - by apply receive_loop_drains in H.
  - by apply receiveAny_loop_drains in H.
Qed.

Lemma X18_witness :
  controller_unread sample_two_senders = [sample_other_reply; sample_reply]
  /\ receive "w1" sample_receive_options [] sample_two_senders
     = (after_read sample_two_senders, inr (Got [sample_reply]))
  /\ controller_unread (after_read sample_two_senders) = [].
Proof.
  assert (receive "w1" sample_receive_options [] sample_two_senders
          = (after_read sample_two_senders, inr (Got [sample_reply]))) as H
    by (vm_compute; reflexivity).
  split_and!; [vm_compute; reflexivity | exact H |].
  exact (X18_receive_consumes_the_whole_batch "w1" sample_receive_options []
           sample_two_senders (after_read sample_two_senders) [sample_reply]
           sample_reply (or_introl H)).
Defined.

(** ** Sending, continued *)

Lemma parseMessage_shutdown_request (sender requestId iso ts : string)
    (summary : option string) :
  parseMessage
    {| msg_from := sender;
       msg_text := Json.stringify (Json.JObj
         [ ("type", Json.JStr "shutdown_request");
           ("requestId", Json.JStr requestId);
           ("from", Json.JStr "controller");
           ("reason", Json.JStr "Controller shutdown requested");
           ("timestamp", Json.JStr iso) ]);
       msg_timestamp := ts; msg_summary := summary |}
  = Protocol "shutdown_request"
      [ ("type", Json.JStr "shutdown_request");
        ("requestId", Json.JStr requestId);
        ("from", Json.JStr "controller");
        ("reason", Json.JStr "Controller shutdown requested");
        ("timestamp", Json.JStr iso) ].
Proof.
  unfold parseMessage. cbn [msg_text].
  rewrite parse_stringify_flat; [reflexivity|discriminate|].
  repeat constructor.
Qed.

(** X19. [POST /agents/:name/shutdown] only asks: it appends one envelope
    from the controller to the agent's mailbox and answers 200, and the
    process keeps running. The envelope parses back as a
    [shutdown_request] whose request id is "shutdown-", the time in
    milliseconds, "@" and the agent's name, whatever characters the name
    holds. No other mailbox, no task and no tracker entry changes. *)
Theorem X19_shutdown_request_route_writes_one_request (a : Api)
    (c : ClaudeCodeController) (name : string) :
  controller (state a) = Some c ->
  initialized c = true ->
  exists a' envelope members,
    handle (POST_agent_shutdown name) a
    = (a', {| status := 200; body := ok_body |})
    /\ readInbox (teamName c) name (api_world a')
       = (readInbox (teamName c) name (api_world a) ++ [envelope])%list
    /\ msg_from envelope = "controller"
    /\ msg_summary envelope = None
    /\ parseMessage envelope = Protocol "shutdown_request" members
    /\ Json.field "requestId" members
       = Some (Json.JStr ("shutdown-" ++ Z_to_string (now (api_world a))
                            ++ "@" ++ name))
    /\ Json.field "from" members = Some (Json.JStr "controller")
    /\ Json.field "timestamp" members
       = Some (Json.JStr (toISOString (now (api_world a))))
    /\ (forall team agent, (team, agent) <> (teamName c, name) ->
          readInbox team agent (api_world a')
          = readInbox team agent (api_world a))
    /\ ledgers (api_world a') = ledgers (api_world a)
    /\ state a' = state a.
Proof.
  intros Hc Hinit.
  destruct a as [[ctl trk own lock start] w]. simpl in Hc. subst ctl.
  unfold handle, route, bind, getController, withController.
  cbn [state controller api_world gets ctrl world].
  rewrite drop_all, deliver_nil.
  cbn [state controller api_world].
  unfold sendShutdownRequest, bind, Date_now, gets.
  rewrite send_initialized by done.
  cbn [ctrl world c_json ret]. rewrite drop_all, deliver_nil.
  do 3 eexists. split; [reflexivity|].
  cbn [state api_world].
  split_and!.
  - apply readInbox_writeInbox_eq.
  - reflexivity.
  - reflexivity.
  - apply parseMessage_shutdown_request.
  - reflexivity.
  - reflexivity.
  - reflexivity.
  - intros team agent Hne. apply readInbox_writeInbox_ne. congruence.
  - reflexivity.
  - reflexivity.
Qed.

Lemma X19_witness :
  exists a',
    handle (POST_agent_shutdown "w1") sample_api
    = (a', {| status := 200; body := ok_body |})
    /\ state a' = state sample_api.
Proof.
  destruct (X19_shutdown_request_route_writes_one_request sample_api
              (ctrl sample_ready) "w1" eq_refl eq_refl)
    as (a' & envelope & members & H1 & H2).
  exists a'. split; [exact H1|]. apply H2.
Defined.

Lemma find_replaced (id : string) (t t' : TaskFile) (rs : list TaskFile) :
  find (has_id id) rs = Some t -> has_id id t' = true ->
  find (has_id id) (map (fun x => if has_id id x then t' else x) rs) = Some t'.
Proof.
  intros Hfind Hid. induction rs as [|r rs IH]; [done|]. simpl in *.
  destruct (has_id id r) eqn:E; [by rewrite Hid|]. rewrite E. by apply IH.
Qed.

(** X20. [assignTask] has no guard of its own: it first writes the owner
    into the task record and only then sends the assignment, and it is the
    sending that checks that the controller is initialised. On a
    controller that is not initialised the call therefore throws
    "Controller not initialized. Call init() first." with the owner
    already written and no assignment sent; on an initialised one it
    writes the owner and appends one [task_assignment] envelope, carrying
    the subject and description of the task, to the agent's mailbox. *)
Theorem X20_assignTask_writes_the_owner_then_sends (taskId agentName : string)
    (s : Sys) (task : TaskFile) :
  find (has_id taskId) (records (team_ledger s)) = Some task ->
  let team := teamName (ctrl s) in
  let updated := apply_patch (owner_patch agentName) task in
  let envelope :=
    {| msg_from := "controller";
       msg_text := task_assignment_text taskId (task_subject task)
                     (task_description task) (toISOString (now (world s)));
       msg_timestamp := toISOString (now (world s)); msg_summary := None |} in
  exists s',
    assignTask taskId agentName s
    = (s', if initialized (ctrl s) then inr tt
           else inl not_initialized_error)
    /\ find (has_id taskId) (records (team_ledger s')) = Some updated
    /\ task_owner updated = Some agentName
    /\ task_id updated = taskId
    /\ readInbox team agentName (world s')
       = (readInbox team agentName (world s)
          ++ (if initialized (ctrl s) then [envelope] else []))%list
    /\ parseMessage envelope
       = Protocol "task_assignment"
           [ ("type", Json.JStr "task_assignment");
             ("taskId", Json.JStr taskId);
             ("subject", Json.JStr (task_subject task));
             ("description", Json.JStr (task_description task));
             ("assignedBy", Json.JStr "controller");
             ("timestamp", Json.JStr (toISOString (now (world s)))) ].
Proof.
  intros Hfind team updated envelope.
  assert (has_id taskId task = true) as Hid
    by (by apply find_some in Hfind as [_ ?]).
  assert (has_id taskId updated = true) as Hid' by exact Hid.
  unfold team_ledger in Hfind.
  rewrite assignTask_eq.
  unfold onWorld, tasks_update, tasks_get, bind, gets, modify, ret.
  cbn [ctrl world]. rewrite Hfind. cbn [fst snd].
  fold updated.
  destruct (initialized (ctrl s)) eqn:Hinit.
  - unfold Date_now, gets. rewrite send_initialized by done.
    cbn [ctrl world now set_ledgers].
    eexists. split; [reflexivity|]. unfold team_ledger. cbn [ctrl world].
    rewrite ledger_writeInbox, ledger_insert. cbn [records].
    split_and!.
    + by apply (find_replaced taskId task).
    + reflexivity.
    + unfold has_id in Hid. by apply String.eqb_eq in Hid.
    + rewrite readInbox_writeInbox_eq. reflexivity.
    + apply parseMessage_task_assignment.
  - unfold Date_now, gets, send, bind. rewrite ensureInitialized_false by done.
    eexists. split; [reflexivity|]. unfold team_ledger. cbn [ctrl world].
    rewrite ledger_insert. cbn [records].
    split_and!.
    + by apply (find_replaced taskId task).
    + reflexivity.
    + unfold has_id in Hid. by apply String.eqb_eq in Hid.
    + by rewrite app_nil_r.
    + apply parseMessage_task_assignment.
Qed.

Lemma X20_witness :
  exists s',
    assignTask "1" "worker2" sample_with_task
    = (s', inl not_initialized_error)
    /\ option_map task_owner
         (find (has_id "1") (records (team_ledger s')))
       = Some (Some "worker2").
Proof.
  destruct (X20_assignTask_writes_the_owner_then_sends "1" "worker2"
              sample_with_task _ eq_refl)
    as (s' & H1 & H2 & _).
  exists s'. split; [exact H1|]. by rewrite H2.
Defined.

Lemma forM_send_initialized (agents : list TeamMember) (msg : string)
    (summary : option string) :
  forall s : Sys,
    initialized (ctrl s) = true ->
    forM agents (fun a => send (tm_name a) msg summary) s
    = ({| ctrl := ctrl s;
          world := fold_left
                     (fun w a => writeInbox (teamName (ctrl s)) (tm_name a)
                                   (controller_envelope msg summary (world s)) w)
                     agents (world s) |}, inr tt).
Proof.
  induction agents as [|a agents IH]; intros s Hinit.
  - by destruct s.
  - cbn [forM]. unfold bind. rewrite send_initialized by done.
    rewrite IH by done. reflexivity.
Qed.

Lemma readInbox_fold_writeInbox (team agent : string) (env : InboxMessage)
    (agents : list TeamMember) :
  forall w : World,
    readInbox team agent
      (fold_left (fun w' a => writeInbox team (tm_name a) env w') agents w)
    = (readInbox team agent w
       ++ map (fun _ => env) (List.filter (named agent) agents))%list.
Proof.
  induction agents as [|a agents IH]; intros w; simpl.
  - by rewrite app_nil_r.
  - rewrite IH. unfold named at 2.
    destruct (String.eqb_spec (tm_name a) agent) as [->|Hne].
    + rewrite readInbox_writeInbox_eq. by rewrite <- app_assoc.
    + rewrite readInbox_writeInbox_ne by congruence. done.
Qed.

Lemma readInbox_fold_writeInbox_other (team team' agent : string)
    (env : InboxMessage) (agents : list TeamMember) :
  team' <> team ->
  forall w : World,
    readInbox team' agent
      (fold_left (fun w' a => writeInbox team (tm_name a) env w') agents w)
    = readInbox team' agent w.
Proof.
  intros Hne. induction agents as [|a agents IH]; intros w; simpl; [done|].
  rewrite IH. apply readInbox_writeInbox_ne. congruence.
Qed.

Lemma fold_writeInbox_frame (team : string) (env : InboxMessage)
    (agents : list TeamMember) :
  forall w : World,
    let w' := fold_left (fun w' a => writeInbox team (tm_name a) env w')
                agents w in
    teams w' = teams w /\ ledgers w' = ledgers w /\ now w' = now w.
Proof.
  induction agents as [|a agents IH]; intros w; simpl; [done|].
  destruct (IH (writeInbox team (tm_name a) env w)) as (H1 & H2 & H3).
  by rewrite H1, H2, H3.
Qed.

(** X21. [broadcast] appends the same envelope once to the mailbox of every
    member of the team except the one named "controller": each such member
    receives it, the controller's own mailbox and the mailboxes of
    non-members and of other teams receive nothing, and neither the member
    list, the tasks nor the controller change. *)
Theorem X21_broadcast_reaches_every_agent_but_the_controller
    (msg : string) (summary : option string) (s : Sys) :
  initialized (ctrl s) = true ->
  is_Some (teams (world s) !! teamName (ctrl s)) ->
  let team := teamName (ctrl s) in
  let envelope := controller_envelope msg summary (world s) in
  let agents :=
    List.filter (fun m => negb (named "controller" m)) (team_members s) in
  exists s',
    broadcast msg summary s = (s', inr tt)
    /\ (forall agent,
          readInbox team agent (world s')
          = (readInbox team agent (world s)
             ++ map (fun _ => envelope) (List.filter (named agent) agents))%list)
    /\ (forall m, In m (team_members s) -> tm_name m <> "controller" ->
          In envelope (readInbox team (tm_name m) (world s')))
    /\ readInbox team "controller" (world s')
       = readInbox team "controller" (world s)
    /\ (forall agent, ~ In agent (map tm_name (team_members s)) ->
          readInbox team agent (world s') = readInbox team agent (world s))
    /\ (forall team' agent, team' <> team ->
          readInbox team' agent (world s') = readInbox team' agent (world s))
    /\ ctrl s' = ctrl s
    /\ teams (world s') = teams (world s)
    /\ ledgers (world s') = ledgers (world s).
Proof.
  intros Hinit [cfg Hcfg].
  assert (team_members s = tc_members cfg) as Hmembers
    by (unfold team_members; by rewrite Hcfg).
  rewrite Hmembers. clear Hmembers. intros team envelope agents.
  unfold broadcast, bind. rewrite ensureInitialized_true by done.
  unfold gets, onWorld, team_getConfig, bind, gets, ret. cbn [ctrl world].
  rewrite Hcfg. cbn [fst snd tc_members].
  destruct s as [c w]. cbn [ctrl world] in *.
  rewrite forM_send_initialized by done. cbn [ctrl world].
  fold team envelope agents.
  assert (forall agent,
            readInbox team agent
              (fold_left (fun w' a => writeInbox team (tm_name a) envelope w')
                 agents w)
            = (readInbox team agent w
               ++ map (fun _ => envelope)
                    (List.filter (named agent) agents))%list) as Hread
    by (intros agent; apply readInbox_fold_writeInbox).
  eexists. split; [reflexivity|]. cbn [ctrl world].
  split_and!.
  - exact Hread.
  - intros m Hm Hname. rewrite Hread. apply in_or_app. right.
    apply in_map_iff. exists m. split; [done|].
    apply filter_In. split.
    + apply filter_In. split; [done|]. unfold named.
      by destruct (String.eqb_spec (tm_name m) "controller").
    + unfold named. apply String.eqb_refl.
  - rewrite Hread.
    replace (List.filter (named "controller") agents) with (@nil TeamMember);
      [by rewrite app_nil_r|].
    symmetry. subst agents. apply filter_named_removed.
  - intros agent Hnot. rewrite Hread.
    replace (List.filter (named agent) agents) with (@nil TeamMember);
      [by rewrite app_nil_r|].
    symmetry. apply filter_nil_iff. intros m Hm.
    apply filter_In in Hm as [Hm _]. unfold named.
    destruct (String.eqb_spec (tm_name m) agent) as [<-|]; [|done].
    exfalso. apply Hnot. by apply in_map.
  - intros team' agent Hne. by apply readInbox_fold_writeInbox_other.
  - reflexivity.
  - apply (fold_writeInbox_frame team envelope agents w).
  - apply (fold_writeInbox_frame team envelope agents w).
Qed.

Lemma X21_witness :
  readInbox "t1" "w1" (world (fst (broadcast "status?" None sample_team)))
  = [controller_envelope "status?" None (world sample_team)]
  /\ readInbox "t1" "controller"
       (world (fst (broadcast "status?" None sample_team))) = [].
Proof.
  destruct (X21_broadcast_reaches_every_agent_but_the_controller "status?"
              None sample_team eq_refl (ex_intro _ _ eq_refl))
    as (s' & H1 & H2 & _ & H3 & _).
  rewrite H1. cbn [fst]. split.
  - etransitivity; [exact (H2 "w1")|]. vm_compute. reflexivity.
  - etransitivity; [exact H3|]. vm_compute. reflexivity.
Defined.

(** ** Shutting down *)

Lemma process_exit_returns (name : string) (code : option Z) (s : Sys) :
  process_exit name code s = (fst (process_exit name code s), inr tt).
Proof.
  destruct (never_throws_process_exit name code s) as (s' & [] & ->). done.
Qed.

Lemma isRunning_process_exit (name other : string) (code : option Z) (s : Sys) :
  isRunning other (ctrl (fst (process_exit name code s)))
  = if String.eqb other name then false else isRunning other (ctrl s).
Proof.
  unfold process_exit, bind, gets, update_ctrl, modify, emit, update_ctrl,
    modify, ret, isRunning.
  destruct (JsMap.get name (processes (ctrl s))) as [p|] eqn:Hp; simpl.
  - destruct (proc_running p) eqn:Hrun; simpl.
    + destruct (String.eqb_spec other name) as [->|Hne];
        destruct (proc_onExit p); simpl;
        rewrite ?JsMap_get_set_eq; try done;
        by rewrite JsMap_get_set_ne.
    + destruct (String.eqb_spec other name) as [->|Hne]; [|done].
      by rewrite Hp.
  - destruct (String.eqb_spec other name) as [->|Hne]; [|done].
    by rewrite Hp.
Qed.

Lemma teamName_process_exit (name : string) (code : option Z) (s : Sys) :
  teamName (ctrl (fst (process_exit name code s))) = teamName (ctrl s)
  /\ world (fst (process_exit name code s)) = world s.
Proof.
  unfold process_exit, bind, gets, update_ctrl, modify, emit, update_ctrl,
    modify, ret.
  destruct (JsMap.get name (processes (ctrl s))) as [p|]; simpl; [|done].
  destruct (proc_running p); simpl; [|done]. by destruct (proc_onExit p).
Qed.

Lemma forM_process_exit_stops (names : list string) :
  forall s : Sys,
    exists s',
      forM names processes_kill s = (s', inr tt)
      /\ (forall n, isRunning n (ctrl s')
                    = if existsb (String.eqb n) names then false
                      else isRunning n (ctrl s))
      /\ teamName (ctrl s') = teamName (ctrl s)
      /\ world s' = world s.
Proof.
  induction names as [|x names IH]; intros s.
  - exists s. by destruct s.
  - cbn [forM]. unfold bind, processes_kill at 1.
    rewrite process_exit_returns.
    destruct (IH (fst (process_exit x None s))) as (s' & -> & Hrun & Ht & Hw).
    exists s'. split; [done|].
    destruct (teamName_process_exit x None s) as [Ht' Hw'].
    split_and!; [|by rewrite Ht|by rewrite Hw].
    intros n. rewrite Hrun, isRunning_process_exit. simpl.
    destruct (String.eqb n x); simpl; [|done].
    by destruct (existsb _ names).
Qed.

Lemma runningAgents_complete (n : string) (c : ClaudeCodeController) :
  isRunning n c = true -> existsb (String.eqb n) (runningAgents c) = true.
Proof.
  unfold isRunning, runningAgents, JsMap.keys.
  destruct (JsMap.get n (processes c)) as [p|] eqn:Hp; [|done].
  intros Hrun. apply JsMap_get_In in Hp.
  apply existsb_exists. exists n. split; [|apply String.eqb_refl].
  apply in_map_iff. exists (n, p). split; [done|].
  apply filter_In. by split.
Qed.

Lemma processes_killAll_stops (s : Sys) :
  exists s',
    processes_killAll s = (s', inr tt)
    /\ (forall n, isRunning n (ctrl s') = false)
    /\ teamName (ctrl s') = teamName (ctrl s)
    /\ world s' = world s.
Proof.
  unfold processes_killAll, bind, gets.
  destruct (forM_process_exit_stops (runningAgents (ctrl s)) s)
    as (s' & -> & Hrun & Ht & Hw).
  exists s'. split_and!; try done.
  intros n. rewrite Hrun.
  destruct (existsb (String.eqb n) (runningAgents (ctrl s))) eqn:E; [done|].
  destruct (isRunning n (ctrl s)) eqn:R; [|done].
  apply runningAgents_complete in R. congruence.
Qed.

Lemma keeps_try_catch_ignore {A} (m : M Sys A) (a : A) :
  keeps_ledgers m -> keeps_ledgers (try_catch m (fun _ => ret a)).
Proof.
  intros Hm s. specialize (Hm s). unfold try_catch.
  by destruct (m s) as [s' [e|x]].
Qed.

Lemma keeps_sendShutdownRequest (name : string) :
  keeps_ledgers (sendShutdownRequest name).
Proof.
  unfold sendShutdownRequest, Date_now.
  apply keeps_bind; [apply keeps_gets|]. intros t. apply keeps_send.
Qed.

Lemma shutdown_eq (exits : list (string * option Z)) (waited : N) (s : Sys) :
  exists s4,
    shutdown exits waited s
    = ({| ctrl := set_initialized false (set_polling false (ctrl s4));
          world := fst (team_destroy (teamName (ctrl s)) (world s4)) |},
       inr tt)
    /\ (forall n, isRunning n (ctrl s4) = false)
    /\ teamName (ctrl s4) = teamName (ctrl s).
Proof.
  unfold shutdown. unfold bind at 1. cbn [gets].
  set (phase1 := forM (runningAgents (ctrl s))
                   (fun name => try_catch (sendShutdownRequest name)
                                  (fun _ => ret tt))).
  assert (never_throws phase1) as N1.
  { apply never_throws_forM. intros x. apply never_throws_try_catch. }
  assert (keeps_ledgers phase1) as K1.
  { apply keeps_forM. intros x. apply keeps_try_catch_ignore,
      keeps_sendShutdownRequest. }
  destruct (N1 s) as (s1 & [] & E1). specialize (K1 s). rewrite E1 in K1.
  destruct K1 as (_ & T1 & _). cbn [fst] in T1.
  unfold bind at 1. rewrite E1.
  set (phase2 := forM exits (fun e => process_exit (fst e) (snd e))).
  assert (never_throws phase2) as N2.
  { apply never_throws_forM. intros x. apply never_throws_process_exit. }
  assert (keeps_ledgers phase2) as K2.
  { apply keeps_forM. intros x. apply keeps_process_exit. }
  destruct (N2 s1) as (s2 & [] & E2). specialize (K2 s1). rewrite E2 in K2.
  destruct K2 as (_ & T2 & _). cbn [fst] in T2.
  unfold bind at 1. rewrite E2.
  unfold bind at 1. cbn [onWorld modify].
  destruct (processes_killAll_stops
              {| ctrl := ctrl s2;
                 world := set_now (fun t => t + Z.of_N waited) (world s2) |})
    as (s4 & E4 & Hrun & T4 & W4).
  cbn [ctrl world] in *.
  unfold bind at 1. rewrite E4.
  exists s4. split; [|split; [exact Hrun | congruence]].
  unfold bind, update_ctrl, modify, gets, onWorld, team_destroy, modify.
  cbn [ctrl world fst snd teamName set_polling].
  rewrite T4, T2, T1. reflexivity.
Qed.

Lemma init_succeeds (s : Sys) :
  initialized (ctrl s) = false ->
  teams (world s) !! teamName (ctrl s) = None ->
  exists s1,
    init s = (s1, inr (ctrl s1))
    /\ initialized (ctrl s1) = true
    /\ polling (ctrl s1) = true
    /\ teamName (ctrl s1) = teamName (ctrl s)
    /\ is_Some (teams (world s1) !! teamName (ctrl s))
    /\ processes (ctrl s1) = processes (ctrl s)
    /\ inboxes (world s1) = inboxes (world s).
Proof.
  intros Hinit Hfree.
  unfold init, bind, gets, onWorld, team_create, bind, gets, randomUUID,
    update_ctrl, modify, ret, tasks_init, modify.
  rewrite Hinit. simpl. rewrite Hfree. simpl.
  match goal with |- context [({| ctrl := ?c; world := ?w |}, inr _)] =>
    exists {| ctrl := c; world := w |} end.
  split; [reflexivity|]. simpl. split_and!; try done.
  - destruct (ledgers (world s) !! teamName (ctrl s)); simpl;
      rewrite lookup_insert_eq; by eexists.
  - by destruct (ledgers (world s) !! teamName (ctrl s)).
Qed.

(** X22. When [shutdown] has completed, no agent process is running, the
    poller is stopped, the controller is no longer initialised, and the
    team's configuration and every mailbox of the team are gone; a later
    [init] of the same controller succeeds and creates the team afresh.
    (The process manager and the team manager are modelled from the
    specification.) *)
Theorem X22_shutdown_stops_everything (exits : list (string * option Z))
    (waited : N) (s s' : Sys) :
  shutdown exits waited s = (s', inr tt) ->
  (forall name, isRunning name (ctrl s') = false)
  /\ polling (ctrl s') = false
  /\ initialized (ctrl s') = false
  /\ teamName (ctrl s') = teamName (ctrl s)
  /\ teams (world s') !! teamName (ctrl s) = None
  /\ (forall agent, readInbox (teamName (ctrl s)) agent (world s') = [])
  /\ exists s'',
       init s' = (s'', inr (ctrl s''))
       /\ initialized (ctrl s'') = true
       /\ is_Some (teams (world s'') !! teamName (ctrl s)).
Proof.
  destruct (shutdown_eq exits waited s) as (s4 & Heq & Hrun & Ht).
  rewrite Heq. intros [= <-].
  match type of Heq with _ = (?x, _) => set (s1 := x) in * end.
  assert (teams (world s1) !! teamName (ctrl s) = None) as Hgone
    by (simpl; apply lookup_delete_eq).
  assert (teamName (ctrl s1) = teamName (ctrl s)) as Ht' by exact Ht.
  destruct (init_succeeds s1) as (s'' & Hinit & Hi & _ & _ & Hteam & _);
    [done | by rewrite Ht' |].
  rewrite Ht' in Hteam. split_and!; try done.
  - intros agent. unfold readInbox, mailbox. simpl.
    replace (filter _ (inboxes (world s4)) !! (teamName (ctrl s), agent))
      with (@None Mailbox); [done|].
    symmetry. apply map_lookup_filter_None. right. intros mb _. simpl. tauto.
  - by exists s''.
Qed.

Lemma X22_witness :
  isRunning "w1" (ctrl sample_team) = true
  /\ exists s',
       shutdown [] 0 sample_team = (s', inr tt)
       /\ isRunning "w1" (ctrl s') = false
       /\ teams (world s') !! "t1" = None.
Proof.
  split; [vm_compute; reflexivity|].
  assert (shutdown [] 0 sample_team
          = (fst (shutdown [] 0 sample_team), inr tt)) as H
    by (vm_compute; reflexivity).
  destruct (X22_shutdown_stops_everything [] 0 sample_team _ H)
    as (Hrun & _ & _ & _ & Hteam & _).
  eexists. split; [exact H|]. split; [apply Hrun | exact Hteam].
Defined.

(** ** The reading routes *)

Lemma withController_tasks_list (a : Api) (c : ClaudeCodeController)
    (team : string) :
  controller (state a) = Some c ->
  withController (onWorld (tasks_list team)) a
  = (a, inr (records (ledger team (api_world a)))).
Proof.
  intros Hc. unfold withController. rewrite Hc.
  unfold onWorld, tasks_list, gets. cbn [ctrl world].
  rewrite drop_all, deliver_nil.
  destruct a as [[] ?]. simpl in *. by subst.
Qed.

Lemma unassigned_spec (tasks : list TaskFile) (u : UnassignedTask) :
  In u (unassigned tasks)
  <-> exists t,
        In t tasks
        /\ truthy (task_owner t) = false
        /\ task_status t <> completed
        /\ u = {| ut_id := task_id t; ut_subject := task_subject t;
                  ut_description := task_description t;
                  ut_status := task_status t;
                  ut_action := "POST /tasks/" ++ task_id t ++ "/assign" |}.
Proof.
  unfold unassigned. rewrite in_map_iff. split.
  - intros (t & <- & Hin). apply filter_In in Hin as [Hin Hf].
    apply andb_true_iff in Hf as [Ho Hs].
    exists t. split_and!; try done.
    + by destruct (truthy (task_owner t)).
    + by destruct (task_status t).
  - intros (t & Hin & Ho & Hs & ->). exists t. split; [done|].
    apply filter_In. split; [done|]. rewrite Ho. simpl.
    by destruct (task_status t).
Qed.

(** X23. [GET /actions] is the three action lists side by side: it answers
    with exactly the approvals of [GET /actions/approvals], the tasks of
    [GET /actions/tasks] and the agents of [GET /actions/idle-agents], and
    [pending] is the sum of their lengths. A task is listed as unassigned
    when it has no owner (or an empty one) and is not completed, with the
    route that assigns it. None of the four requests changes anything. *)
Theorem X23_actions_is_the_sum_of_its_parts (a : Api)
    (c : ClaudeCodeController) :
  controller (state a) = Some c ->
  let approvals := getPendingApprovals (tracker (state a)) in
  let idleAgents := getIdleAgents (tracker (state a)) in
  let tasks := records (ledger (teamName c) (api_world a)) in
  handle GET_actions a
  = (a, {| status := 200;
           body := actions_body
                     (length approvals + length (unassigned tasks)
                      + length idleAgents)
                     approvals (unassigned tasks) idleAgents |})
  /\ handle GET_actions_approvals a
     = (a, {| status := 200; body := approvals_body approvals |})
  /\ handle GET_actions_tasks a
     = (a, {| status := 200; body := unassigned_body (unassigned tasks) |})
  /\ handle GET_actions_idle_agents a
     = (a, {| status := 200; body := idle_agents_body idleAgents |})
  /\ (forall u,
        In u (unassigned tasks)
        <-> exists t,
              In t tasks
              /\ truthy (task_owner t) = false
              /\ task_status t <> completed
              /\ u = {| ut_id := task_id t; ut_subject := task_subject t;
                        ut_description := task_description t;
                        ut_status := task_status t;
                        ut_action := "POST /tasks/" ++ task_id t ++ "/assign" |}).
Proof.
  intros Hc approvals idleAgents tasks.
  split_and!.
  - unfold handle, route, bind. rewrite (getController_Some a c Hc).
    cbn [gets]. by rewrite (withController_tasks_list a c _ Hc).
  - unfold handle, route, bind. by rewrite (getController_Some a c Hc).
  - unfold handle, route, bind. rewrite (getController_Some a c Hc).
    by rewrite (withController_tasks_list a c _ Hc).
  - unfold handle, route, bind. by rewrite (getController_Some a c Hc).
  - apply unassigned_spec.
Qed.

Lemma X23_witness :
  handle GET_actions_approvals sample_api
  = (sample_api,
     {| status := 200;
        body := approvals_body
                  (getPendingApprovals (tracker (state sample_api))) |}).
Proof.
  exact (proj1 (proj2 (X23_actions_is_the_sum_of_its_parts sample_api
                         (ctrl sample_ready) eq_refl))).
Defined.

(** ** The task routes *)

Lemma withController_onWorld {A} (m : M World A) (a : Api)
    (c : ClaudeCodeController) :
  controller (state a) = Some c ->
  withController (onWorld m) a
  = (with_world a (fst (m (api_world a))), snd (m (api_world a))).
Proof.
  intros Hc. unfold withController, onWorld, with_world. rewrite Hc.
  cbn [ctrl world]. destruct (m (api_world a)) as [w' r]. cbn [ctrl world].
  rewrite drop_all, deliver_nil.
  destruct a as [[] ?]. simpl in *. by subst.
Qed.

Lemma with_world_same (a : Api) : with_world a (api_world a) = a.
Proof. by destruct a. Qed.

Lemma tasks_get_run (team id : string) (w : World) :
  tasks_get team id w
  = (w, match find (has_id id) (records (ledger team w)) with
        | Some t => inr t
        | None => inl {| err_name := Error;
                         err_message := "Task " ++ id ++ " not found" |}
        end).
Proof.
  unfold tasks_get, bind, gets, not_found, throw_Error, raise, ret.
  by destruct (find (has_id id) (records (ledger team w))).
Qed.

(** X24. A task id that is not on file is answered 404 by
    [GET /tasks/:id], [PATCH /tasks/:id], [DELETE /tasks/:id] and (when an
    agent is given) [POST /tasks/:id/assign], and nothing changes: no task
    is created by the patch, no assignment is sent. *)
Theorem X24_unknown_task_is_404 (a : Api) (c : ClaudeCodeController)
    (id : string) (patch : TaskPatch) (agent : string) :
  controller (state a) = Some c ->
  find (has_id id) (records (ledger (teamName c) (api_world a))) = None ->
  agent <> EmptyString ->
  handle (GET_task id) a = (a, task_not_found id)
  /\ handle (PATCH_task id patch) a = (a, task_not_found id)
  /\ handle (DELETE_task id) a = (a, task_not_found id)
  /\ handle (POST_task_assign id {| at_agent := Some agent |}) a
     = (a, task_not_found id).
Proof.
  intros Hc Hfind Hagent.
  split_and!; unfold handle, route, bind;
    rewrite (getController_Some a c Hc);
    cbn [at_agent]; rewrite ?(truthy_Some agent Hagent); cbn [negb];
    unfold catch_null; rewrite (withController_onWorld _ a c Hc);
    unfold tasks_update, bind; rewrite tasks_get_run, Hfind;
    cbn [fst snd]; by rewrite with_world_same.
Qed.

Lemma X24_witness :
  handle (DELETE_task "7") sample_api = (sample_api, task_not_found "7").
Proof.
  assert ("w1" <> EmptyString) as H by discriminate.
  exact (proj1 (proj2 (proj2
           (X24_unknown_task_is_404 sample_api (ctrl sample_ready) "7"
              (owner_patch "w1") "w1" eq_refl eq_refl H)))).
Defined.

Lemma find_removed (id : string) (rs : list TaskFile) :
  find (has_id id) (List.filter (fun x => negb (has_id id x)) rs) = None.
Proof.
  induction rs as [|r rs IH]; [done|]. simpl.
  destruct (has_id id r) eqn:E; simpl; [done|]. by rewrite E.
Qed.

Lemma find_kept (id other : string) (rs : list TaskFile) :
  other <> id ->
  find (has_id other) (List.filter (fun x => negb (has_id id x)) rs)
  = find (has_id other) rs.
Proof.
  intros Hne. induction rs as [|r rs IH]; [done|]. simpl.
  destruct (has_id id r) eqn:E; simpl.
  - unfold has_id in *. apply String.eqb_eq in E.
    destruct (String.eqb_spec (task_id r) other); [congruence|done].
  - by destruct (has_id other r).
Qed.

Lemma find_app_other (other : string) (file : TaskFile) (rs : list TaskFile) :
  task_id file <> other ->
  find (has_id other) (rs ++ [file])%list = find (has_id other) rs.
Proof.
  intros Hne. induction rs as [|r rs IH]; simpl.
  - unfold has_id. by destruct (String.eqb_spec (task_id file) other).
  - by destruct (has_id other r).
Qed.

(** X25. [POST /tasks] answers 201 with the task as filed: the next id of
    the team, the subject and description of the body, status "pending"
    unless the body gives one. [GET /tasks/:id] then returns that same
    task; [DELETE /tasks/:id] answers 200, after which the id is not found
    any more while the other tasks are still there. *)
Theorem X25_task_routes_round_trip (a : Api) (c : ClaudeCodeController)
    (body : CreateTaskBody) (subject description : string) :
  controller (state a) = Some c ->
  initialized c = true ->
  ledger_wf (ledger (teamName c) (api_world a)) ->
  ct_subject body = Some subject -> subject <> EmptyString ->
  ct_description body = Some description -> description <> EmptyString ->
  let id := N_to_string (next_id (ledger (teamName c) (api_world a))) in
  exists a1 a2 task,
    handle (POST_tasks body) a
    = (a1, {| status := 201; body := task_body task |})
    /\ task_id task = id
    /\ task_subject task = subject
    /\ task_description task = description
    /\ task_owner task = ct_owner body
    /\ task_status task = default pending (ct_status body)
    /\ handle (GET_task id) a1 = (a1, {| status := 200; body := task_body task |})
    /\ handle (DELETE_task id) a1 = (a2, {| status := 200; body := ok_body |})
    /\ handle (GET_task id) a2 = (a2, task_not_found id)
    /\ (forall other, other <> id ->
          find (has_id other) (records (ledger (teamName c) (api_world a2)))
          = find (has_id other) (records (ledger (teamName c) (api_world a)))).
Proof.
  intros Hc Hinit Hwf Hs Hsne Hd Hdne id.
  set (team := teamName c) in *.
  set (l := ledger team (api_world a)) in *.
  pose proof (createTask_initialized (task_input body)
                {| ctrl := c; world := api_world a |} Hinit Hwf) as Hcreate.
  cbv zeta in Hcreate. cbn [ctrl world] in Hcreate.
  fold team l id in Hcreate.
  match type of Hcreate with
  | context [(records l ++ [?f])%list] => set (file := f) in *
  end.
  match type of Hcreate with
  | _ = ({| ctrl := _; world := ?w |}, _) => set (w1 := w) in *
  end.
  assert (ledger team w1
          = {| next_id := N.succ (next_id l);
               records := (records l ++ [file])%list |}) as Hl1.
  { subst w1. destruct (truthy (ti_owner (task_input body)));
      [rewrite ledger_writeInbox|]; apply ledger_insert. }
  assert (find (has_id id) (records (ledger team w1)) = Some file) as Hfind.
  { rewrite Hl1. cbn [records].
    apply find_fresh_record; [by apply ledger_wf_fresh|done]. }
  assert (controller (state (with_world a w1)) = Some c) as Hc1 by exact Hc.
  assert (handle (POST_tasks body) a
          = (with_world a w1, {| status := 201; body := task_body file |}))
    as Hpost.
  { unfold handle, route. unfold bind at 1.
    rewrite (getController_Some a c Hc).
    rewrite Hs, Hd, (truthy_Some _ Hsne), (truthy_Some _ Hdne).
    cbn [negb orb]. unfold bind at 1.
    erewrite withController_run; [|exact Hc|exact Hcreate].
    cbn [ctrl world]. rewrite drop_all, deliver_nil.
    unfold bind at 1.
    match goal with |- context [withController _ ?x] =>
      replace x with (with_world a w1)
        by (unfold with_world; destruct a as [[] ?]; simpl in *; by subst)
    end.
    rewrite (withController_onWorld _ _ c Hc1).
    rewrite tasks_get_run. cbn [fst snd with_world api_world].
    fold team. rewrite Hfind. reflexivity. }
  set (w2 := fst (tasks_delete team id w1)).
  assert (ledger team w2
          = {| next_id := N.succ (next_id l);
               records := List.filter (fun x => negb (has_id id x))
                            (records l ++ [file]) |}) as Hl2.
  { subst w2. unfold tasks_delete, bind. rewrite tasks_get_run, Hfind.
    unfold gets, modify. cbn [fst snd]. rewrite ledger_insert, Hl1. done. }
  assert (tasks_delete team id w1 = (w2, inr tt)) as Hdel.
  { subst w2. unfold tasks_delete, bind. rewrite tasks_get_run, Hfind.
    reflexivity. }
  exists (with_world a w1), (with_world a w2), file.
  split_and!; try done.
  - subst file. simpl. by rewrite Hs.
  - subst file. simpl. by rewrite Hd.
  - unfold handle, route, bind. rewrite (getController_Some _ c Hc1).
    unfold catch_null. rewrite (withController_onWorld _ _ c Hc1).
    rewrite tasks_get_run. cbn [fst snd with_world api_world state].
    fold team. rewrite Hfind. by rewrite with_world_same.
  - unfold handle, route, bind. rewrite (getController_Some _ c Hc1).
    unfold catch_null. rewrite (withController_onWorld _ _ c Hc1).
    rewrite tasks_get_run. cbn [fst snd with_world api_world state].
    fold team. rewrite Hfind.
    change {| state := state a; api_world := w1 |} with (with_world a w1).
    rewrite (withController_onWorld _ _ c Hc1).
    cbn [with_world api_world state]. rewrite Hdel. reflexivity.
  - unfold handle, route, bind.
    assert (controller (state (with_world a w2)) = Some c) as Hc2 by exact Hc.
    rewrite (getController_Some _ c Hc2).
    unfold catch_null. rewrite (withController_onWorld _ _ c Hc2).
    rewrite tasks_get_run. cbn [fst snd with_world api_world state].
    fold team. rewrite Hl2. cbn [records]. rewrite find_removed.
    reflexivity.
  - intros other Hne. cbn [with_world api_world]. fold team. rewrite Hl2.
    cbn [records]. rewrite find_kept by done.
    apply find_app_other. by subst file.
Qed.

Lemma X25_witness :
  exists a1 task,
    handle (POST_tasks
              {| ct_subject := Some "Build feature";
                 ct_description := Some "Build the new feature";
                 ct_activeForm := None; ct_owner := None; ct_status := None;
                 ct_blocks := None; ct_blockedBy := None;
                 ct_metadata := None |}) sample_api
    = (a1, {| status := 201; body := task_body task |})
    /\ task_id task = "1"
    /\ handle (GET_task "1") a1
       = (a1, {| status := 200; body := task_body task |}).
Proof.
  assert ("Build feature" <> EmptyString) as H1 by discriminate.
  assert ("Build the new feature" <> EmptyString) as H2 by discriminate.
  assert (ledger_wf (ledger "t1" (api_world sample_api))) as Hwf
    by (vm_compute; constructor).
  destruct (X25_task_routes_round_trip sample_api (ctrl sample_ready)
              {| ct_subject := Some "Build feature";
                 ct_description := Some "Build the new feature";
                 ct_activeForm := None; ct_owner := None; ct_status := None;
                 ct_blocks := None; ct_blockedBy := None;
                 ct_metadata := None |}
              "Build feature" "Build the new feature"
              eq_refl eq_refl Hwf eq_refl H1 eq_refl H2)
    as (a1 & a2 & task & Hpost & Hid & _ & _ & _ & _ & Hget & _).
  exists a1, task. split_and!; [exact Hpost | exact Hid | exact Hget].
Defined.

(** ** The approval routes, continued *)

Lemma parseMessage_plan_approval_fields (sender requestId iso ts : string)
    (approve : bool) (feedback summary : option string) :
  exists members,
    parseMessage
      {| msg_from := sender;
         msg_text := plan_approval_response_text requestId approve feedback iso;
         msg_timestamp := ts; msg_summary := summary |}
    = Protocol "plan_approval_response" members
    /\ Json.field "requestId" members = Some (Json.JStr requestId)
    /\ Json.field "approved" members = Some (Json.JBool approve)
    /\ Json.field "feedback" members = option_map Json.JStr feedback
    /\ Json.field "from" members = Some (Json.JStr "controller").
Proof.
  unfold parseMessage, plan_approval_response_text. cbn [msg_text].
  rewrite parse_stringify_flat.
  - destruct feedback; eexists; split_and!; reflexivity.
  - discriminate.
  - destruct feedback; repeat constructor.
Qed.

Lemma send_uninitialized (agent msg : string) (summary : option string)
    (s : Sys) :
  initialized (ctrl s) = false ->
  send agent msg summary s = (s, inl not_initialized_error).
Proof.
  intros H. unfold send, bind. by rewrite ensureInitialized_false.
Qed.

(** X26. The approval routes pass an explicit decision on as it is: with
    [approve: false] the agent is sent a response with [approved: false],
    and the feedback of a plan decision travels with it (the key is left
    out when no feedback is given). Approved or rejected, the request is
    then no longer pending. When the response cannot be sent because the
    controller is not initialised, the route answers 500 and the request
    stays pending. *)
Theorem X26_explicit_decisions_are_passed_on (a : Api)
    (c : ClaudeCodeController) (name requestId : string) (approve : bool)
    (feedback : option string) :
  controller (state a) = Some c ->
  requestId <> EmptyString ->
  let plan := POST_agent_approve_plan name
                {| apl_requestId := Some requestId;
                   apl_approve := Some approve; apl_feedback := feedback |} in
  let permission := POST_agent_approve_permission name
                      {| ape_requestId := Some requestId;
                         ape_approve := Some approve |} in
  (initialized c = true ->
   (exists a' envelope members,
      handle plan a = (a', {| status := 200; body := ok_body |})
      /\ readInbox (teamName c) name (api_world a')
         = (readInbox (teamName c) name (api_world a) ++ [envelope])%list
      /\ parseMessage envelope = Protocol "plan_approval_response" members
      /\ Json.field "approved" members = Some (Json.JBool approve)
      /\ Json.field "feedback" members = option_map Json.JStr feedback
      /\ Json.field "requestId" members = Some (Json.JStr requestId)
      /\ JsMap.get requestId (approvals (tracker (state a'))) = None)
   /\ (exists a' envelope members,
         handle permission a = (a', {| status := 200; body := ok_body |})
         /\ readInbox (teamName c) name (api_world a')
            = (readInbox (teamName c) name (api_world a) ++ [envelope])%list
         /\ parseMessage envelope = Protocol "permission_response" members
         /\ Json.field "approved" members = Some (Json.JBool approve)
         /\ Json.field "requestId" members = Some (Json.JStr requestId)
         /\ JsMap.get requestId (approvals (tracker (state a'))) = None))
  /\ (initialized c = false ->
      handle plan a = (a, server_error not_initialized_error)
      /\ handle permission a = (a, server_error not_initialized_error)).
Proof.
  intros Hc Hne plan permission. split.
  - intros Hinit. split.
    + subst plan. rewrite (approve_plan_route a c) by done.
      destruct (parseMessage_plan_approval_fields "controller" requestId
                  (toISOString (now (api_world a)))
                  (toISOString (now (api_world a))) approve feedback None)
        as (members & Hparse & Hid & Happroved & Hfeedback & _).
      do 3 eexists. split; [reflexivity|]. split_and!;
        [apply readInbox_writeInbox_eq | exact Hparse | exact Happroved
        | exact Hfeedback | exact Hid | apply JsMap_get_delete_eq].
    + subst permission. rewrite (approve_permission_route a c) by done.
      destruct (parseMessage_permission_response "controller" requestId
                  (toISOString (now (api_world a)))
                  (toISOString (now (api_world a))) approve None)
        as (members & Hparse & Hid & Happroved).
      do 3 eexists. split; [reflexivity|]. split_and!;
        [apply readInbox_writeInbox_eq | exact Hparse | exact Happroved
        | exact Hid | apply JsMap_get_delete_eq].
  - intros Hinit. subst plan permission.
    split; unfold handle, route, bind; rewrite (getController_Some a c Hc);
      cbn [apl_requestId ape_requestId]; rewrite (truthy_Some _ Hne);
      cbn [negb];
      (erewrite withController_run;
         [|exact Hc
          |unfold sendPlanApproval, sendPermissionResponse, bind, Date_now,
             gets; by rewrite send_uninitialized]);
      cbn [ctrl world]; rewrite drop_all, deliver_nil;
      destruct a as [[] ?]; simpl in *; by subst.
Qed.

Lemma X26_witness :
  exists a' envelope members,
    handle (POST_agent_approve_plan "deadagent"
              {| apl_requestId := Some "plan-1"; apl_approve := Some false;
                 apl_feedback := Some "split the change" |}) sample_api
    = (a', {| status := 200; body := ok_body |})
    /\ readInbox "t1" "deadagent" (api_world a') = [envelope]
    /\ parseMessage envelope = Protocol "plan_approval_response" members
    /\ Json.field "approved" members = Some (Json.JBool false)
    /\ Json.field "feedback" members = Some (Json.JStr "split the change").
Proof.
  assert ("plan-1" <> EmptyString) as Hne by discriminate.
  destruct (proj1 (proj1 (X26_explicit_decisions_are_passed_on sample_api
                            (ctrl sample_ready) "deadagent" "plan-1" false
                            (Some "split the change") eq_refl Hne) eq_refl))
    as (a' & envelope & members & H1 & H2 & H3 & H4 & H5 & _).
  exists a', envelope, members. split_and!; try done.
Defined.

(** ** The agent routes, continued *)

(** X27. [GET /agents] lists the members of the team except the one named
    "controller", each with the type and model of the member list and the
    running state the process manager reports; [GET /agents/:name] answers
    with the first member of that name, or 404 when there is none. Every
    listed agent can be fetched by its name, and the entry "controller",
    which the list leaves out, can be fetched as well. Neither request
    changes anything. *)
Theorem X27_agent_listing (a : Api) (c : ClaudeCodeController)
    (cfg : TeamConfig) (name : string) :
  controller (state a) = Some c ->
  teams (api_world a) !! teamName c = Some cfg ->
  let listed :=
    map (agent_info c)
      (List.filter (fun m => negb (named "controller" m)) (tc_members cfg)) in
  handle GET_agents a = (a, {| status := 200; body := agents_body listed |})
  /\ (forall info, In info listed -> ai_name info <> "controller")
  /\ (forall m, In m (tc_members cfg) -> tm_name m <> "controller" ->
        In (agent_info c m) listed)
  /\ handle (GET_agent name) a
     = (a, match find (named name) (tc_members cfg) with
           | Some m => {| status := 200; body := agent_body (agent_info c m) |}
           | None => agent_not_found name
           end)
  /\ (In name (map tm_name (tc_members cfg)) ->
      exists info,
        handle (GET_agent name) a
        = (a, {| status := 200; body := agent_body info |})
        /\ ai_name info = name
        /\ ai_running info = isRunning name c)
  /\ (~ In name (map tm_name (tc_members cfg)) ->
      handle (GET_agent name) a = (a, agent_not_found name)).
Proof.
  intros Hc Hcfg listed.
  assert (withController (onWorld (team_getConfig (teamName c))) a
          = (a, inr cfg)) as Hget.
  { rewrite (withController_onWorld _ a c Hc).
    unfold team_getConfig, bind, gets, ret. rewrite Hcfg. cbn [fst snd].
    by rewrite with_world_same. }
  assert (handle (GET_agent name) a
          = (a, match find (named name) (tc_members cfg) with
                | Some m =>
                    {| status := 200; body := agent_body (agent_info c m) |}
                | None => agent_not_found name
                end)) as Hone.
  { unfold handle, route, bind. rewrite (getController_Some a c Hc), Hget.
    by destruct (find (named name) (tc_members cfg)). }
  split_and!.
  - unfold handle, route, bind. by rewrite (getController_Some a c Hc), Hget.
  - intros info Hin. apply in_map_iff in Hin as (m & <- & Hm).
    apply filter_In in Hm as [_ Hm]. cbn [agent_info ai_name].
    unfold named in Hm. by destruct (String.eqb_spec (tm_name m) "controller").
  - intros m Hm Hname. apply in_map. apply filter_In. split; [done|].
    unfold named. by destruct (String.eqb_spec (tm_name m) "controller").
  - exact Hone.
  - intros Hin. apply in_map_iff in Hin as (m & Hname & Hm).
    destruct (find (named name) (tc_members cfg)) as [m0|] eqn:Hfind.
    + exists (agent_info c m0). split; [exact Hone|].
      apply find_some in Hfind as [_ Hm0]. unfold named in Hm0.
      apply String.eqb_eq in Hm0. cbn [agent_info ai_name ai_running].
      by rewrite Hm0.
    + exfalso. apply (find_none _ _ Hfind) in Hm. unfold named in Hm.
      rewrite Hname, String.eqb_refl in Hm. discriminate.
  - intros Hnot. rewrite Hone.
    destruct (find (named name) (tc_members cfg)) as [m0|] eqn:Hfind; [|done].
    exfalso. apply Hnot. apply find_some in Hfind as [Hin Hm0].
    unfold named in Hm0. apply String.eqb_eq in Hm0.
    apply in_map_iff. by exists m0.
Qed.

Lemma X27_witness :
  exists info,
    handle (GET_agent "controller") sample_api
    = (sample_api, {| status := 200; body := agent_body info |})
    /\ ai_name info = "controller"
    /\ handle GET_agents sample_api
       = (sample_api, {| status := 200; body := agents_body [] |}).
Proof.
  assert (teams (api_world sample_api) !! teamName (ctrl sample_ready)
          = Some {| tc_name := "t1"; tc_cwd := "/work";
                    tc_sessionId := "00000000-0000-4000-8000-000000000000";
                    tc_createdAt := 0;
                    tc_members := [controller_member "t1" "/work" 0] |}) as H
    by (vm_compute; reflexivity).
  pose proof (X27_agent_listing sample_api (ctrl sample_ready) _ "controller"
                eq_refl H) as (Hlist & _ & _ & _ & Hone & _).
  destruct Hone as (info & H1 & H2 & _); [by left|].
  exists info. split_and!; [exact H1 | exact H2 | exact Hlist].
Defined.

(** ** A failed initialisation *)

Lemma init_fails_existing (s : Sys) (cfg : TeamConfig) :
  initialized (ctrl s) = false ->
  teams (world s) !! teamName (ctrl s) = Some cfg ->
  init s = (s, inl {| err_name := Error;
                      err_message := "Team " ++ teamName (ctrl s)
                                       ++ " already exists" |}).
Proof.
  intros Hinit Hcfg.
  unfold init, bind, gets, onWorld, team_create, bind, gets, throw_Error,
    raise.
  rewrite Hinit. cbn [ctrl world]. rewrite Hcfg. by destruct s.
Qed.

(** X28. When the initialisation of the new controller fails in
    [POST /session/init] (here: the team manager refuses a team name that
    is already there), the route answers 500 with the error of [init],
    releases the lock and leaves the API without a session. The clean-up
    it runs is a full [shutdown] of the new controller, so the
    configuration and the mailboxes of the team of that name are removed
    although this request did not create them. *)
Theorem X28_failed_init_cleans_up (a : Api) (body : InitSessionBody)
    (name uuid process_cwd : string) (exits : list (string * option Z))
    (waited : N) :
  initLock (state a) = false ->
  controller (state a) = None ->
  is_teamName body = Some name ->
  SAFE_NAME_RE_test name = true ->
  is_Some (teams (api_world a) !! name) ->
  exists a',
    handle (POST_session_init body uuid process_cwd exits waited) a
    = (a', {| status := 500;
              body := error_body ("Team " ++ name ++ " already exists") |})
    /\ state a' = state a
    /\ teams (api_world a') !! name = None
    /\ (forall agent, readInbox name agent (api_world a') = []).
Proof.
  intros Hlock Hnone Hname Hsafe [cfg Hcfg].
  pose proof (SAFE_NAME_RE_test_nonempty name Hsafe) as Hne.
  destruct body as [tn cw cb ev]. cbn [is_teamName] in Hname. subst tn.
  set (fresh := new_ClaudeCodeController
                  {| co_teamName := Some name; co_cwd := cw;
                     co_claudeBinary := cb; co_env := ev |} uuid process_cwd).
  assert (teamName fresh = name) as Hfresh.
  { subst fresh. unfold new_ClaudeCodeController. cbn [teamName co_teamName].
    by apply or_else_Some. }
  pose proof (init_fails_existing {| ctrl := fresh; world := api_world a |} cfg
                eq_refl) as Hinit.
  cbn [ctrl world] in Hinit. rewrite Hfresh in Hinit.
  specialize (Hinit Hcfg).
  destruct (shutdown_eq [] 0 {| ctrl := fresh; world := api_world a |})
    as (s4 & Hshut & _ & _).
  cbn [ctrl world] in Hshut. rewrite Hfresh in Hshut.
  unfold handle, route. unfold bind at 1. cbn [gets]. rewrite Hlock.
  unfold bind at 1, set_state, modify, finally_unlock.
  cbn [is_teamName is_cwd is_claudeBinary is_env].
  rewrite (truthy_Some name Hne) by done.
  unfold bind at 1. cbn [default from_option id].
  unfold validateName at 1. rewrite Hsafe. cbn [ret].
  unfold bind at 1. cbn [gets state controller set_initLock]. rewrite Hnone.
  unfold bind at 1. cbn [ret]. unfold bind at 1.
  cbn [api_world]. fold fresh. rewrite Hinit, Hshut.
  eexists. split; [reflexivity|]. cbn [state api_world world].
  split_and!.
  - destruct a as [[] ?]. simpl in *. by subst.
  - simpl. apply lookup_delete_eq.
  - intros agent. unfold readInbox, mailbox. simpl.
    replace (filter _ (inboxes (world s4)) !! (name, agent))
      with (@None Mailbox); [done|].
    symmetry. apply map_lookup_filter_None. right. intros mb _. simpl. tauto.
Qed.

Lemma X28_witness :
  exists a',
    handle (POST_session_init
              {| is_teamName := Some "t1"; is_cwd := None;
                 is_claudeBinary := None; is_env := None |}
              EmptyString "/srv" [] 0)
           {| state := createApi None 0; api_world := world sample_ready |}
    = (a', {| status := 500;
              body := error_body "Team t1 already exists" |})
    /\ teams (api_world a') !! "t1" = None.
Proof.
  destruct (X28_failed_init_cleans_up
              {| state := createApi None 0; api_world := world sample_ready |}
              {| is_teamName := Some "t1"; is_cwd := None;
                 is_claudeBinary := None; is_env := None |}
              "t1" EmptyString "/srv" [] 0
              eq_refl eq_refl eq_refl eq_refl (ex_intro _ _ eq_refl))
    as (a' & H1 & _ & H2 & _).
  exists a'. split; [exact H1 | exact H2].
Defined.

(** X29. [POST /session/init] on an API that owns a session first shuts
    that session down and then starts the new one; because the shutdown
    removes the old team, asking again for the same team name succeeds.
    The API then holds a new initialised controller of that name, owns
    it, and the tracker, emptied, listens to it. *)
Theorem X29_init_again_replaces_the_owned_session (a : Api)
    (old : ClaudeCodeController) (body : InitSessionBody)
    (uuid process_cwd : string) (exits : list (string * option Z))
    (waited : N) :
  initLock (state a) = false ->
  controller (state a) = Some old ->
  owned (state a) = true ->
  is_teamName body = Some (teamName old) ->
  SAFE_NAME_RE_test (teamName old) = true ->
  exists a' c',
    handle (POST_session_init body uuid process_cwd exits waited) a
    = (a', {| status := 201; body := session_body true (teamName old) |})
    /\ controller (state a') = Some c'
    /\ teamName c' = teamName old
    /\ initialized c' = true
    /\ processes c' = JsMap.empty
    /\ owned (state a') = true
    /\ initLock (state a') = false
    /\ tracker (state a') = attach (teamName old) (clear (tracker (state a)))
    /\ is_Some (teams (api_world a') !! teamName old)
    /\ (forall agent, readInbox (teamName old) agent (api_world a') = []).
Proof.
  intros Hlock Hold Howned Hname Hsafe.
  set (name := teamName old) in *.
  pose proof (SAFE_NAME_RE_test_nonempty name Hsafe) as Hne.
  destruct body as [tn cw cb ev]. cbn [is_teamName] in Hname. subst tn.
  set (fresh := new_ClaudeCodeController
                  {| co_teamName := Some name; co_cwd := cw;
                     co_claudeBinary := cb; co_env := ev |} uuid process_cwd).
  assert (teamName fresh = name) as Hfresh.
  { subst fresh. unfold new_ClaudeCodeController. cbn [teamName co_teamName].
    by apply or_else_Some. }
  destruct (shutdown_eq exits waited {| ctrl := old; world := api_world a |})
    as (s4 & Hshut & _ & _).
  cbn [ctrl world] in Hshut. fold name in Hshut.
  set (w1 := fst (team_destroy name (world s4))) in *.
  assert (teams w1 !! name = None) as Hgone
    by (subst w1; simpl; apply lookup_delete_eq).
  assert (forall agent, inboxes w1 !! (name, agent) = None) as Hmail.
  { intros agent. subst w1. simpl.
    apply map_lookup_filter_None. right. intros mb _. simpl. tauto. }
  destruct (init_succeeds {| ctrl := fresh; world := w1 |} eq_refl)
    as (s1 & Hinit & Hi & _ & Ht & Hteam & Hprocs & Hinboxes).
  { cbn [ctrl world]. by rewrite Hfresh. }
  cbn [ctrl world] in Ht, Hteam, Hprocs, Hinboxes.
  rewrite Hfresh in Ht, Hteam.
  unfold handle, route. unfold bind at 1. cbn [gets]. rewrite Hlock.
  unfold bind at 1, set_state, modify, finally_unlock.
  cbn [is_teamName is_cwd is_claudeBinary is_env].
  rewrite (truthy_Some name Hne) by done.
  unfold bind at 1. cbn [default from_option id].
  unfold validateName at 1. rewrite Hsafe. cbn [ret].
  unfold bind at 1. cbn [gets state controller set_initLock]. rewrite Hold.
  unfold bind at 1. unfold bind at 1. cbn [set_tracker modify].
  unfold bind at 1. cbn [state set_controller owned].
  unfold bind at 1.
  cbn [gets state owned set_controller set_initLock api_world controller
       tracker initLock startTime].
  rewrite Howned.
  unfold detached. cbn [api_world]. rewrite Hshut.
  unfold bind at 1. cbn [api_world world state]. fold fresh. rewrite Hinit.
  unfold bind, set_state, set_tracker, modify, c_json, ret.
  cbn [state api_world set_controller set_owned set_initLock controller
       tracker owned initLock startTime].
  do 2 eexists. split; [by rewrite Ht|].
  cbn [state api_world controller tracker owned initLock].
  split_and!; try done.
  intros agent. unfold readInbox, mailbox. by rewrite Hinboxes, Hmail.
Qed.

Lemma X29_witness :
  exists a' c',
    handle (POST_session_init
              {| is_teamName := Some "t1"; is_cwd := None;
                 is_claudeBinary := None; is_env := None |}
              EmptyString "/srv" [] 0) sample_owned_api
    = (a', {| status := 201; body := session_body true "t1" |})
    /\ controller (state a') = Some c'
    /\ initialized c' = true.
Proof.
  destruct (X29_init_again_replaces_the_owned_session sample_owned_api
              (ctrl sample_ready)
              {| is_teamName := Some "t1"; is_cwd := None;
                 is_claudeBinary := None; is_env := None |}
              EmptyString "/srv" [] 0
              eq_refl eq_refl eq_refl eq_refl eq_refl)
    as (a' & c' & H1 & H2 & _ & H3 & _).
  exists a', c'. split_and!; [exact H1 | exact H2 | exact H3].
Defined.

(** ** The listeners of the tracker *)

Lemma same_listener_eq (l l' : BoundListener) :
  same_listener l l' = true <-> l = l'.
Proof. unfold same_listener. apply bool_decide_eq_true. Qed.

Lemma remove_first_filter (l : BoundListener) (em : Emitter) :
  (count_occ BoundListener_eq_dec em l <= 1)%nat ->
  remove_first l em = List.filter (fun l' => negb (same_listener l l')) em.
Proof.
  induction em as [|l' rest IH]; intros Hcount; [reflexivity|].
  simpl in *. unfold same_listener in *.
  destruct (BoundListener_eq_dec l' l) as [->|Hne].
  - rewrite bool_decide_eq_true_2 by reflexivity. simpl.
    symmetry. apply forallb_filter_id, forallb_forall.
    intros y Hy. apply negb_true_iff, bool_decide_eq_false.
    intros <-. apply (count_occ_In BoundListener_eq_dec) in Hy. lia.
  - rewrite bool_decide_eq_false_2 by congruence. simpl.
    f_equal. apply IH. lia.
Qed.

Lemma filter_rev' {A} (f : A -> bool) (l : list A) :
  List.filter f (rev l) = rev (List.filter f l).
Proof.
  induction l as [|x l IH]; [reflexivity|].
  simpl. rewrite List.filter_app, IH. simpl.
  destruct (f x); simpl; [reflexivity | apply app_nil_r].
Qed.

Lemma removeListener_filter (l : BoundListener) (em : Emitter) :
  (count_occ BoundListener_eq_dec em l <= 1)%nat ->
  removeListener l em = List.filter (fun l' => negb (same_listener l l')) em.
Proof.
  intros Hcount. unfold removeListener.
  rewrite remove_first_filter by (rewrite count_occ_rev; exact Hcount).
  rewrite filter_rev', rev_involutive. reflexivity.
Qed.

Lemma count_occ_filter_le (f : BoundListener -> bool) (l : BoundListener)
    (em : Emitter) :
  (count_occ BoundListener_eq_dec (List.filter f em) l
   <= count_occ BoundListener_eq_dec em l)%nat.
Proof.
  induction em as [|l' rest IH]; [reflexivity|].
  simpl. destruct (f l'); simpl; destruct (BoundListener_eq_dec l' l); lia.
Qed.

Lemma count_occ_filter_kept (f : BoundListener -> bool) (l : BoundListener)
    (em : Emitter) :
  f l = true ->
  count_occ BoundListener_eq_dec (List.filter f em) l
  = count_occ BoundListener_eq_dec em l.
Proof.
  intros Hf. induction em as [|l' rest IH]; [reflexivity|].
  simpl. destruct (BoundListener_eq_dec l' l) as [->|Hne].
  - rewrite Hf. simpl. destruct (BoundListener_eq_dec l l); [|done].
    by rewrite IH.
  - destruct (f l'); simpl; [|exact IH].
    destruct (BoundListener_eq_dec l' l); [done|exact IH].
Qed.

(** The loop of [detach] takes out what it lists, when nothing it lists
    is registered twice. *)
Lemma remove_loop_filter (ls : list BoundListener) (em : Emitter) :
  (forall l, In l ls -> (count_occ BoundListener_eq_dec em l <= 1)%nat) ->
  fold_left (fun em' l => removeListener l em') ls em
  = List.filter (fun l' => negb (existsb (fun l => same_listener l l') ls)) em.
Proof.
  revert em. induction ls as [|l ls IH]; intros em Hcount.
  - simpl. symmetry. apply forallb_filter_id, forallb_forall. done.
  - simpl. rewrite removeListener_filter by (apply Hcount; by left).
    rewrite IH.
    + rewrite filter_filter_and. apply List.filter_ext.
      intros l'. by rewrite negb_orb.
    + intros l0 Hl0. etransitivity; [apply count_occ_filter_le|].
      apply Hcount. by right.
Qed.

Lemma remove_loop_closures (ls : list BoundListener) (em : Emitter) :
  List.filter is_closure em = ls ->
  List.NoDup ls ->
  fold_left (fun em' l => removeListener l em') ls em
  = List.filter (fun l => negb (is_closure l)) em.
Proof.
  intros Hls Hnodup. rewrite remove_loop_filter.
  - apply List.filter_ext_in. intros l' Hin. f_equal.
    destruct (is_closure l') eqn:Hc.
    + apply existsb_exists. exists l'. split; [|by apply same_listener_eq].
      rewrite <- Hls. apply List.filter_In. done.
    + apply not_true_is_false. intros [l [Hl Heq]]%existsb_exists.
      apply same_listener_eq in Heq. subst l'.
      rewrite <- Hls in Hl. apply List.filter_In in Hl. destruct Hl; congruence.
  - intros l Hl. pose proof Hl as Hl'.
    rewrite <- Hls in Hl'. apply List.filter_In in Hl' as [_ Hc].
    rewrite <- (count_occ_filter_kept is_closure l em Hc), Hls.
    by apply (proj1 (List.NoDup_count_occ BoundListener_eq_dec ls)).
Qed.

Lemma made_NoDup (n : nat) : List.NoDup (map (bound n) kinds).
Proof.
  unfold kinds, bound. simpl.
  repeat (constructor; [simpl; intuition congruence|]). constructor.
Qed.

Lemma made_closures (n : nat) :
  List.filter is_closure (map (bound n) kinds) = map (bound n) kinds.
Proof. reflexivity. Qed.

Lemma on_loop_app (ls : list BoundListener) (em : Emitter) :
  fold_left (fun em' l => emitter_on l em') ls em = (em ++ ls)%list.
Proof.
  revert em. induction ls as [|l ls IH]; intros em; simpl.
  - by rewrite app_nil_r.
  - rewrite IH. unfold emitter_on. by rewrite <- app_assoc.
Qed.

Lemma emitter_of_insert (c c' : string) (em : Emitter) (ems : gmap string Emitter) :
  emitter_of c' (<[c := em]> ems)
  = if bool_decide (c = c') then em else emitter_of c' ems.
Proof.
  unfold emitter_of. case_bool_decide as Hc.
  - subst. by rewrite lookup_insert_eq.
  - by rewrite lookup_insert_ne.
Qed.

Lemma filter_closure_foreign (em : Emitter) :
  List.filter is_closure (List.filter (fun l => negb (is_closure l)) em) = [].
Proof.
  rewrite filter_filter_and.
  induction em as [|l em IH]; [done|]. simpl.
  by destruct (is_closure l).
Qed.

Lemma filter_foreign_foreign (em : Emitter) :
  List.filter (fun l => negb (is_closure l))
    (List.filter (fun l => negb (is_closure l)) em)
  = List.filter (fun l => negb (is_closure l)) em.
Proof.
  rewrite filter_filter_and. apply List.filter_ext.
  intros l. by destruct (is_closure l).
Qed.

Lemma detach_listeners_sound (x : Listening) (ems : gmap string Emitter) :
  no_leak x ems -> well_bound x ->
  let st := detach_listeners x ems in
  no_leak (fst st) (snd st) /\ well_bound (fst st)
  /\ (forall c, closures c (snd st) = [])
  /\ (forall c, foreigns c (snd st) = foreigns c ems).
Proof.
  intros Hleak Hbound. unfold detach_listeners. cbn [fst snd].
  assert (Hnone : forall c,
    closures c (match currentController (tracked x) with
                | Some c0 =>
                    <[c0 := fold_left (fun em l => removeListener l em)
                              (listeners x) (emitter_of c0 ems)]> ems
                | None => ems
                end) = []
    /\ foreigns c (match currentController (tracked x) with
                   | Some c0 =>
                       <[c0 := fold_left (fun em l => removeListener l em)
                                 (listeners x) (emitter_of c0 ems)]> ems
                   | None => ems
                   end) = foreigns c ems).
  { intros c. pose proof (Hleak c) as Hc. unfold well_bound in Hbound.
    destruct (currentController (tracked x)) as [c0|] eqn:Hcur.
    - rename Hbound into Hn.
      pose proof (Hleak c0) as Hc0.
      rewrite bool_decide_eq_true_2 in Hc0 by exact Hcur.
      unfold closures, foreigns in *. rewrite emitter_of_insert.
      destruct (decide (c0 = c)) as [->|Hne].
      + rewrite bool_decide_eq_true_2 by reflexivity.
        rewrite (remove_loop_closures _ _ Hc0).
        * split; [apply filter_closure_foreign|apply filter_foreign_foreign].
        * rewrite Hn. apply made_NoDup.
      + rewrite bool_decide_eq_false_2 by exact Hne.
        split; [|reflexivity]. rewrite Hc.
        rewrite bool_decide_eq_false_2; [done|congruence].
    - split; [|reflexivity]. rewrite Hc. by rewrite bool_decide_eq_false_2. }
  split; [|split; [|split]].
  - intros c. cbn [tracked detach currentController listeners].
    rewrite bool_decide_eq_false_2 by done. apply Hnone.
  - reflexivity.
  - intros c. apply Hnone.
  - intros c. apply Hnone.
Qed.

Lemma attach_listeners_sound (c : string) (x : Listening)
    (ems : gmap string Emitter) :
  no_leak x ems -> well_bound x ->
  let st := attach_listeners c x ems in
  no_leak (fst st) (snd st) /\ well_bound (fst st)
  /\ tracked (fst st) = attach c (tracked x)
  /\ (forall c', foreigns c' (snd st) = foreigns c' ems).
Proof.
  intros Hleak Hbound.
  destruct (detach_listeners_sound x ems Hleak Hbound) as (_ & _ & Hnone & Hsame).
  unfold attach_listeners.
  destruct (detach_listeners x ems) as [x1 ems1] eqn:Hdet.
  cbn [fst snd] in *.
  assert (Htracked : tracked x1 = detach (tracked x)).
  { unfold detach_listeners in Hdet. by inversion Hdet. }
  split; [|split; [|split]].
  - intros c'. cbn [tracked attach currentController listeners].
    unfold closures. rewrite emitter_of_insert, on_loop_app.
    destruct (decide (c = c')) as [<-|Hne].
    + rewrite !bool_decide_eq_true_2 by reflexivity.
      rewrite List.filter_app. fold (closures c ems1). by rewrite Hnone.
    + rewrite !bool_decide_eq_false_2 by congruence. apply Hnone.
  - unfold well_bound. cbn [tracked attach currentController listeners].
    cbn [attach_calls Nat.pred]. reflexivity.
  - cbn [tracked]. rewrite Htracked. reflexivity.
  - intros c'. rewrite <- Hsame. unfold foreigns.
    rewrite emitter_of_insert, on_loop_app.
    destruct (decide (c = c')) as [<-|Hne].
    + rewrite bool_decide_eq_true_2 by reflexivity.
      rewrite List.filter_app. simpl. by rewrite app_nil_r.
    + by rewrite bool_decide_eq_false_2.
Qed.

Lemma clear_listeners_sound (x : Listening) (ems : gmap string Emitter) :
  no_leak x ems -> well_bound x ->
  let st := clear_listeners x ems in
  no_leak (fst st) (snd st) /\ well_bound (fst st)
  /\ tracked (fst st) = clear (tracked x)
  /\ (forall c, foreigns c (snd st) = foreigns c ems).
Proof.
  intros Hleak Hbound.
  destruct (detach_listeners_sound x ems Hleak Hbound) as (_ & _ & Hnone & Hsame).
  unfold clear_listeners.
  destruct (detach_listeners x ems) as [x1 ems1] eqn:Hdet.
  cbn [fst snd] in *.
  assert (Hx1 : tracked x1 = detach (tracked x) /\ listeners x1 = []).
  { unfold detach_listeners in Hdet. by inversion Hdet. }
  destruct Hx1 as [Htracked Hlisteners].
  split; [|split; [|split]].
  - intros c. cbn [tracked clear currentController listeners].
    rewrite Htracked. cbn [detach currentController].
    rewrite bool_decide_eq_false_2 by done. apply Hnone.
  - unfold well_bound. cbn [tracked clear currentController listeners].
    rewrite Htracked. exact Hlisteners.
  - cbn [tracked]. rewrite Htracked. reflexivity.
  - exact Hsame.
Qed.

(** The functions of others leave the tracker as it is. *)
Lemma call_skips_foreign (nowIso : string) (e : ControllerEvent)
    (em : Emitter) (t : ActionTracker) :
  fold_left (fun t' f => call_listener nowIso e f t') (map bl_fn em) t
  = fold_left (fun t' f => call_listener nowIso e f t')
      (map bl_fn (List.filter is_closure em)) t.
Proof.
  revert t. induction em as [|l em IH]; intros t; [reflexivity|].
  unfold is_closure at 1. simpl.
  destruct (bl_fn l) as [n k|id] eqn:Hfn; simpl.
  - rewrite Hfn. apply IH.
  - apply IH.
Qed.

(** Of the six closures of an [attach], an event calls the one made for
    it, which does what [tracker_on] says. *)
Lemma call_made (n : nat) (nowIso : string) (e : ControllerEvent)
    (t : ActionTracker) :
  fold_left (fun t' f => call_listener nowIso e f t')
    (map bl_fn
       (List.filter (fun l => String.eqb (bl_event l) (event_name e))
          (map (bound n) kinds))) t
  = tracker_on nowIso e t.
Proof. by destruct e. Qed.

Lemma emit_event_sound (c nowIso : string) (e : ControllerEvent)
    (x : Listening) (ems : gmap string Emitter) :
  no_leak x ems -> well_bound x ->
  tracked (emit_event c nowIso e x ems) = deliver c nowIso [e] (tracked x).
Proof.
  intros Hleak Hbound. unfold emit_event, listeners_for. cbn [tracked].
  rewrite call_skips_foreign, filter_filter_and.
  rewrite (List.filter_ext _ (fun l => is_closure l
             && String.eqb (bl_event l) (event_name e)))
    by (intros l; apply andb_comm).
  rewrite <- filter_filter_and. fold (closures c ems). rewrite (Hleak c).
  unfold deliver, well_bound in *.
  destruct (currentController (tracked x)) as [c0|] eqn:Hcur.
  - rename Hbound into Hn.
    destruct (decide (c0 = c)) as [->|Hne].
    + rewrite bool_decide_eq_true_2 by reflexivity.
      rewrite String.eqb_refl, Hn. apply call_made.
    + rewrite bool_decide_eq_false_2 by congruence.
      by rewrite (proj2 (String.eqb_neq c0 c) Hne).
  - by rewrite bool_decide_eq_false_2.
Qed.

Lemma deliver_keeps_controller (c nowIso : string) (e : ControllerEvent)
    (t : ActionTracker) :
  currentController (deliver c nowIso [e] t) = currentController t.
Proof.
  unfold deliver. destruct (currentController t) as [c0|] eqn:Hcur; [|done].
  destruct (String.eqb c0 c); [|done]. by destruct e.
Qed.

Lemma listening_step_sound (o : ListeningOp) (x : Listening)
    (ems : gmap string Emitter) :
  no_leak x ems -> well_bound x ->
  let st := listening_step (x, ems) o in
  no_leak (fst st) (snd st) /\ well_bound (fst st)
  /\ tracked (fst st) = tracked_step (tracked x) o
  /\ (forall c, foreigns c (snd st) = (foreigns c ems ++ others_on c [o])%list).
Proof.
  intros Hleak Hbound. destruct o as [c| | |c nowIso e|c event id];
    cbn [listening_step tracked_step fst snd others_on flat_map].
  - destruct (attach_listeners_sound c x ems Hleak Hbound) as (H1 & H2 & H3 & H4).
    repeat split; try done. intros c'. by rewrite app_nil_r.
  - destruct (detach_listeners_sound x ems Hleak Hbound) as (H1 & H2 & H3 & H4).
    repeat split; try done. intros c'. by rewrite app_nil_r.
  - destruct (clear_listeners_sound x ems Hleak Hbound) as (H1 & H2 & H3 & H4).
    repeat split; try done. intros c'. by rewrite app_nil_r.
  - pose proof (emit_event_sound c nowIso e x ems Hleak Hbound) as Hemit.
    pose proof (deliver_keeps_controller c nowIso e (tracked x)) as Hkeep.
    rewrite <- Hemit in Hkeep.
    split; [|split; [|split]].
    + intros c'. rewrite Hkeep. apply Hleak.
    + unfold well_bound. rewrite Hkeep. exact Hbound.
    + exact Hemit.
    + intros c'. by rewrite app_nil_r.
  - assert (Hem : forall c',
      emitter_of c' (<[c := emitter_on {| bl_event := event; bl_fn := foreign id |}
                            (emitter_of c ems)]> ems)
      = (emitter_of c' ems
         ++ if String.eqb c c'
            then [{| bl_event := event; bl_fn := foreign id |}] else [])%list).
    { intros c'. rewrite emitter_of_insert.
      destruct (decide (c = c')) as [<-|Hne].
      - rewrite bool_decide_eq_true_2 by reflexivity.
        by rewrite String.eqb_refl.
      - rewrite bool_decide_eq_false_2 by exact Hne.
        rewrite (proj2 (String.eqb_neq c c') Hne). by rewrite app_nil_r. }
    repeat split; try done.
    + intros c'. unfold closures. rewrite Hem, List.filter_app.
      fold (closures c' ems). rewrite (Hleak c').
      destruct (String.eqb c c'); simpl; by rewrite app_nil_r.
    + intros c'. unfold foreigns. rewrite Hem, List.filter_app, app_nil_r.
      by destruct (String.eqb c c').
Qed.

Lemma listening_run_sound (ops : list ListeningOp) (x : Listening)
    (ems : gmap string Emitter) :
  no_leak x ems -> well_bound x ->
  let st := fold_left listening_step ops (x, ems) in
  no_leak (fst st) (snd st) /\ well_bound (fst st)
  /\ tracked (fst st) = fold_left tracked_step ops (tracked x)
  /\ (forall c, foreigns c (snd st) = (foreigns c ems ++ others_on c ops)%list).
Proof.
  revert x ems. induction ops as [|o ops IH]; intros x ems Hleak Hbound.
  - simpl. repeat split; try done. intros c. by rewrite app_nil_r.
  - cbn [fold_left].
    destruct (listening_step_sound o x ems Hleak Hbound) as (H1 & H2 & H3 & H4).
    destruct (listening_step (x, ems) o) as [x1 ems1]. cbn [fst snd] in *.
    destruct (IH x1 ems1 H1 H2) as (I1 & I2 & I3 & I4).
    repeat split; try done.
    + by rewrite I3, H3.
    + intros c. rewrite I4, H4, <- app_assoc. f_equal.
      unfold others_on. simpl. by rewrite app_nil_r.
Qed.

(** X5. The tracker leaves no listener behind and hears exactly the
    controller it is attached to. Along any run of [attach], [detach],
    [clear], events emitted by controllers and listeners registered by
    others, from a new tracker and emitters that hold none of its closures:
    the closures registered on a controller are the six of the [listeners]
    array when the tracker is attached to that controller and none
    otherwise, so after [detach] or [clear] none is left anywhere; what
    others registered is still there, in order; an event emitted by the
    controller the tracker is attached to runs the listener made for it
    once, and an event of any other controller leaves the tracker as it
    is, which is what [deliver] says; and the fields of the tracker are
    those of the run told with [attach], [detach], [clear] and
    [deliver]. *)
Theorem X5_tracker_leaves_no_listener_behind (ops : list ListeningOp)
    (ems : gmap string Emitter) :
  (forall c, closures c ems = []) ->
  let st := fold_left listening_step ops (new_Listening, ems) in
  (forall c,
     closures c (snd st)
     = if bool_decide (currentController (tracked (fst st)) = Some c)
       then map (bound (Nat.pred (attach_calls (fst st)))) kinds else [])
  /\ listeners (fst st)
     = match currentController (tracked (fst st)) with
       | Some _ => map (bound (Nat.pred (attach_calls (fst st)))) kinds
       | None => []
       end
  /\ (forall c, foreigns c (snd st) = (foreigns c ems ++ others_on c ops)%list)
  /\ (forall c nowIso e,
        tracked (emit_event c nowIso e (fst st) (snd st))
        = deliver c nowIso [e] (tracked (fst st)))
  /\ (forall c nowIso e,
        currentController (tracked (fst st)) <> Some c ->
        tracked (emit_event c nowIso e (fst st) (snd st)) = tracked (fst st))
  /\ tracked (fst st) = fold_left tracked_step ops new_ActionTracker.
Proof.
  intros Hnone.
  destruct (listening_run_sound ops new_Listening ems) as (H1 & H2 & H3 & H4).
  { intros c. rewrite Hnone. by rewrite bool_decide_eq_false_2. }
  { reflexivity. }
  cbv zeta. set (st := fold_left listening_step ops (new_Listening, ems)) in *.
  assert (Hls : listeners (fst st)
     = match currentController (tracked (fst st)) with
       | Some _ => map (bound (Nat.pred (attach_calls (fst st)))) kinds
       | None => []
       end).
  { unfold well_bound in H2. by destruct (currentController (tracked (fst st))). }
  assert (Hemit : forall c nowIso e,
    tracked (emit_event c nowIso e (fst st) (snd st))
    = deliver c nowIso [e] (tracked (fst st))).
  { intros c nowIso e. by apply emit_event_sound. }
  split; [|split; [|split; [|split; [|split]]]]; try done.
  - intros c. rewrite (H1 c). case_bool_decide as Hc; [|done].
    by rewrite Hls, Hc.
  - intros c nowIso e Hc. rewrite Hemit. unfold deliver.
    destruct (currentController (tracked (fst st))) as [c0|]; [|done].
    destruct (String.eqb c0 c) eqn:Heq; [|done].
    apply String.eqb_eq in Heq. congruence.
Qed.

Lemma X5_witness :
  (forall c, closures c (∅ : gmap string Emitter) = [])
  /\ closures "t1" (snd sample_listened) = []
  /\ closures "t2" (snd sample_listened) = map (bound 1) kinds
  /\ foreigns "t1" (snd sample_listened)
     = [{| bl_event := "idle"; bl_fn := foreign 7 |}]
  /\ map ia_name (getIdleAgents (tracked (fst sample_listened))) = ["w1"]
  /\ tracked (emit_event "t1" "2026-01-01T00:00:02.000Z" (idle "w3")
                (fst sample_listened) (snd sample_listened))
     = tracked (fst sample_listened).
Proof.
  assert (Hnone : forall c, closures c (∅ : gmap string Emitter) = []).
  { intros c. unfold closures, emitter_of. by rewrite lookup_empty. }
  split; [exact Hnone|].
  destruct (X5_tracker_leaves_no_listener_behind sample_listening ∅ Hnone)
    as (H1 & H2 & H3 & H4 & H5 & H6).
  fold sample_listened in H1, H2, H3, H4, H5, H6.
  split; [|split; [|split; [|split]]].
  - rewrite (H1 "t1"). vm_compute. reflexivity.
  - rewrite (H1 "t2"). vm_compute. reflexivity.
  - rewrite (H3 "t1"). vm_compute. reflexivity.
  - rewrite H6. vm_compute. reflexivity.
  - apply H5. vm_compute. congruence.
Defined.
